(** * JESC sentence search: word-index construction and lookup

    A shallow embedding of the core of the JESC Discord bot
    (src/tokenizer.py, src/loader.py, src/database.py, src/bot.py and
    scripts/rebuild_word_index.py) together with the properties of its
    normalizer, tokenizer wrappers, corpus reader, index builder and
    tiered search. *)

From Stdlib Require Import ZArith NArith List Bool Lia Permutation Sorted.
From stdpp Require Import base option list gmap sets.

Local Open Scope Z_scope.

(** ** Python values *)

Module Py.

(** A Python [str] is a sequence of Unicode code points. *)
Abbreviation str := (list N).

Definition len {A : Type} (l : list A) : Z := Z.of_nat (length l).

(** Exceptions that the modelled code can see. *)
Inductive exn :=
| BackendError        (* raised by the persistence backend *)
| AttributeError      (* attribute lookup on an object that lacks it *)
| IndexError          (* list index out of range *)
| CsvError            (* csv.Error, raised by the CSV reader *)
| UnicodeDecodeError. (* raised while a file is decoded *)

Inductive result (A : Type) :=
| Ok (a : A)
| Raise (e : exn).
Arguments Ok {A} a.
Arguments Raise {A} e.

(** [str.isspace] on one code point: the characters [str.strip] removes. *)
Definition isspace (c : N) : bool :=
  ((0x09 <=? c) && (c <=? 0x0D) || (0x1C <=? c) && (c <=? 0x20)
   || (c =? 0x85) || (c =? 0xA0) || (c =? 0x1680)
   || (0x2000 <=? c) && (c <=? 0x200A)
   || (c =? 0x2028) || (c =? 0x2029) || (c =? 0x202F)
   || (c =? 0x205F) || (c =? 0x3000))%N.

Fixpoint lstrip (s : str) : str :=
  match s with
  | c :: s' => if isspace c then lstrip s' else s
  | [] => []
  end.

Definition rstrip (s : str) : str := rev (lstrip (rev s)).

Definition strip (s : str) : str := rstrip (lstrip s).

(** [c in s] for a one-character needle. *)
Definition contains (c : N) (s : str) : bool := existsb (N.eqb c) s.

(** [text.replace(old, new)] for a two-character [old] and a
    one-character [new]: non-overlapping occurrences, left to right. *)
Fixpoint replace2 (a b c : N) (s : str) : str :=
  match s with
  | [] => []
  | x :: r =>
      match r with
      | y :: t =>
          if ((x =? a) && (y =? b))%N then c :: replace2 a b c t
          else x :: replace2 a b c r
      | [] => [x]
      end
  end.

(** [text.translate(table)] for a table from code points to
    one-character strings: characters without an entry are kept. *)
Fixpoint table_get (tbl : list (N * N)) (c : N) : option N :=
  match tbl with
  | [] => None
  | (k, v) :: tbl' => if (k =? c)%N then Some v else table_get tbl' c
  end.

Definition translate_char (tbl : list (N * N)) (c : N) : N :=
  match table_get tbl c with Some v => v | None => c end.

Definition translate (tbl : list (N * N)) (s : str) : str :=
  map (translate_char tbl) s.

(** Iterating over a set visits every element exactly once; the
    order is left open by the language.  An iteration order is a
    function from sets to lists that is a rearrangement of the
    elements. *)
Definition iterates_once (set_iter : gset str -> list str) : Prop :=
  forall s, set_iter s ≡ₚ elements s.

(** [range(a, b + 1)] over code points. *)
Definition chars (a b : N) : list N :=
  map (fun i => (a + N.of_nat i)%N) (seq 0 (N.to_nat (b + 1 - a))).

End Py.

Import Py.

(** ** jaconv: the width conversions used by the normalizer

    The normalizer calls the third-party [jaconv] package.  Its two entry
    points are table driven: [z2h] translates through a table selected by
    its flags, [h2z] first joins a half-width kana with a following voicing
    mark and then translates.  The tables below are jaconv's conversion
    tables for the flag combinations the normalizer uses, written as code
    points. *)

Module Jaconv.

Definition HALF_ASCII : list N :=
  chars 0x21 0x2F ++ chars 0x3A 0x40 ++ chars 0x5B 0x60 ++
  chars 0x61 0x7A ++ chars 0x41 0x5A ++ chars 0x7B 0x7E ++ [0x20]%N.

Definition FULL_ASCII : list N :=
  chars 0xFF01 0xFF0F ++ chars 0xFF1A 0xFF20 ++ chars 0xFF3B 0xFF40 ++
  chars 0xFF41 0xFF5A ++ chars 0xFF21 0xFF3A ++ chars 0xFF5B 0xFF5E ++
  [0x3000]%N.

Definition HALF_DIGIT : list N := chars 0x30 0x39.
Definition FULL_DIGIT : list N := chars 0xFF10 0xFF19.

(** Half-width kana without voicing marks, in jaconv's order; the
    seven characters that have no half-width form stand for themselves. *)
Definition HALF_KANA_SEION : list N :=
  [0xFF67; 0xFF71; 0xFF68; 0xFF72; 0xFF69; 0xFF73; 0xFF6A; 0xFF74;
   0xFF6B; 0xFF75; 0xFF76; 0xFF77; 0xFF78; 0xFF79; 0xFF7A; 0xFF7B;
   0xFF7C; 0xFF7D; 0xFF7E; 0xFF7F; 0xFF80; 0xFF81; 0xFF6F; 0xFF82;
   0xFF83; 0xFF84; 0xFF85; 0xFF86; 0xFF87; 0xFF88; 0xFF89; 0xFF8A;
   0xFF8B; 0xFF8C; 0xFF8D; 0xFF8E; 0xFF8F; 0xFF90; 0xFF91; 0xFF92;
   0xFF93; 0xFF6C; 0xFF94; 0xFF6D; 0xFF95; 0xFF6E; 0xFF96; 0xFF97;
   0xFF98; 0xFF99; 0xFF9A; 0xFF9B; 0xFF9C; 0xFF66; 0xFF9D; 0xFF70;
   0x30EE; 0x30F0; 0x30F1; 0x30F5; 0x30F6; 0x30FD; 0x30FE;
   0xFF65; 0xFF62; 0xFF63; 0xFF61; 0xFF64]%N.

Definition FULL_KANA_SEION : list N :=
  [0x30A1; 0x30A2; 0x30A3; 0x30A4; 0x30A5; 0x30A6; 0x30A7; 0x30A8;
   0x30A9; 0x30AA; 0x30AB; 0x30AD; 0x30AF; 0x30B1; 0x30B3; 0x30B5;
   0x30B7; 0x30B9; 0x30BB; 0x30BD; 0x30BF; 0x30C1; 0x30C3; 0x30C4;
   0x30C6; 0x30C8; 0x30CA; 0x30CB; 0x30CC; 0x30CD; 0x30CE; 0x30CF;
   0x30D2; 0x30D5; 0x30D8; 0x30DB; 0x30DE; 0x30DF; 0x30E0; 0x30E1;
   0x30E2; 0x30E3; 0x30E4; 0x30E5; 0x30E6; 0x30E7; 0x30E8; 0x30E9;
   0x30EA; 0x30EB; 0x30EC; 0x30ED; 0x30EF; 0x30F2; 0x30F3; 0x30FC;
   0x30EE; 0x30F0; 0x30F1; 0x30F5; 0x30F6; 0x30FD; 0x30FE;
   0x30FB; 0x300C; 0x300D; 0x3002; 0x3001]%N.

(** The voicing-mark joins of [h2z], in the order its chain of
    [replace] calls applies them: (kana, mark, joined kana). *)
Definition DAKUTEN : list (N * N * N) :=
  [(0xFF76, 0xFF9E, 0x30AC); (0xFF77, 0xFF9E, 0x30AE);
   (0xFF78, 0xFF9E, 0x30B0); (0xFF79, 0xFF9E, 0x30B2);
   (0xFF7A, 0xFF9E, 0x30B4); (0xFF7B, 0xFF9E, 0x30B6);
   (0xFF7C, 0xFF9E, 0x30B8); (0xFF7D, 0xFF9E, 0x30BA);
   (0xFF7E, 0xFF9E, 0x30BC); (0xFF7F, 0xFF9E, 0x30BE);
   (0xFF80, 0xFF9E, 0x30C0); (0xFF81, 0xFF9E, 0x30C2);
   (0xFF82, 0xFF9E, 0x30C5); (0xFF83, 0xFF9E, 0x30C7);
   (0xFF84, 0xFF9E, 0x30C9); (0xFF8A, 0xFF9E, 0x30D0);
   (0xFF8B, 0xFF9E, 0x30D3); (0xFF8C, 0xFF9E, 0x30D6);
   (0xFF8D, 0xFF9E, 0x30D9); (0xFF8E, 0xFF9E, 0x30DC);
   (0xFF8A, 0xFF9F, 0x30D1); (0xFF8B, 0xFF9F, 0x30D4);
   (0xFF8C, 0xFF9F, 0x30D7); (0xFF8D, 0xFF9F, 0x30DA);
   (0xFF8E, 0xFF9F, 0x30DD); (0xFF73, 0xFF9E, 0x30F4)]%N.

(** The two translation tables the normalizer selects. *)
Definition Z2H_AD : list (N * N) :=
  combine (FULL_ASCII ++ FULL_DIGIT) (HALF_ASCII ++ HALF_DIGIT).

Definition H2Z_K : list (N * N) :=
  combine HALF_KANA_SEION FULL_KANA_SEION.

Definition conv_dakuten (joins : list (N * N * N)) (text : str) : str :=
  fold_left (fun t '(a, b, c) => replace2 a b c t) joins text.

(** [z2h(text, kana=False, ascii=True, digit=True)] *)
Definition z2h_ascii_digit (text : str) : str := translate Z2H_AD text.

(** [h2z(text, kana=True, ascii=False, digit=False)] *)
Definition h2z_kana (text : str) : str :=
  translate H2Z_K (conv_dakuten DAKUTEN text).

(** The two passes over arbitrary tables [zt] (for [z2h]), [ht] and
    [dk] (for [h2z]), and the characters they leave alone. *)
Section Tables.

Variables (zt ht : list (N * N)) (dk : list (N * N * N)).

Definition normalize_with (text : str) : str :=
  translate ht (conv_dakuten dk (translate zt text)).

Definition z_fixed (c : N) : bool := (translate_char zt c =? c)%N.

Definition is_key (c : N) : bool :=
  match table_get ht c with Some _ => true | None => false end.

(** A character no pass touches: fixed by both tables and not the
    first character of a join. *)
Definition settled (c : N) : bool :=
  z_fixed c && (translate_char ht c =? c)%N
  && negb (existsb (fun '(a, _, _) => (a =? c)%N) dk).

End Tables.

End Jaconv.

(** ** src/tokenizer.py *)

Module Tokenizer.

(** What the morphological analyser (a [fugashi.Tagger] over a UniDic
    dictionary) hands back for one morpheme.  Feature fields are [None]
    for out-of-dictionary words; [kana] is a field only of some
    dictionary versions, hence the outer [option]. *)
Record Feature := {
  lemma : option str;
  pos1 : option str;
  pos2 : option str;
  kana : option (option str)
}.

Record Node := { surface : str; feature : Feature }.

(** The dictionary returned by [analyze_word]. *)
Record WordInfo := {
  info_surface : str;
  info_lemma : option str;
  info_pos : option str;
  info_pos_detail : option str;
  info_reading : option str
}.

(** The marker the analyser uses for a lemma it does not know. *)
Definition STAR : str := [0x2A]%N.

(** Truth value of an optional string: [None] and [''] are false. *)
Definition truthy (o : option str) : bool :=
  match o with
  | Some (_ :: _) => true
  | _ => false
  end.

(** [lemma and lemma != '*'] *)
Definition usable (l : option str) : bool :=
  truthy l && negb (bool_decide (l = Some STAR)).

(** [JapaneseTokenizer.normalize] *)
Definition normalize (text : str) : str :=
  let text := Jaconv.z2h_ascii_digit text in
  let text := Jaconv.h2z_kana text in
  text.

Section WithTagger.

(** [self.tagger(text)]: the list of morphemes, or [None] when the
    analyser raises.  Error logging of the wrappers is not part of
    the modelled state. *)
Variable tagger : str -> option (list Node).

(** [JapaneseTokenizer.tokenize] *)
Definition tokenize (text : str) : list str :=
  let text := normalize text in
  match tagger text with
  | Some words => map surface words
  | None => []
  end.

(** [JapaneseTokenizer.get_lemmas] *)
Definition get_lemmas (text : str) : gset str :=
  let text := normalize text in
  match tagger text with
  | Some words =>
      fold_left
        (fun (lemmas : gset str) word =>
           match lemma (feature word) with
           | Some l =>
               if usable (Some l) then lemmas ∪ {[ l ]}
               else lemmas ∪ {[ surface word ]}
           | None => lemmas ∪ {[ surface word ]}
           end)
        words ∅
  | None => ∅
  end.

(** [JapaneseTokenizer.get_lemmas_with_surface] *)
Definition get_lemmas_with_surface (text : str) : gset str :=
  let text := normalize text in
  match tagger text with
  | Some words =>
      fold_left
        (fun (words : gset str) word =>
           let words := words ∪ {[ surface word ]} in
           match lemma (feature word) with
           | Some l => if usable (Some l) then words ∪ {[ l ]} else words
           | None => words
           end)
        words ∅
  | None => ∅
  end.

(** [JapaneseTokenizer.analyze_word]; [None] is the empty dictionary. *)
Definition analyze_word (word : str) : option WordInfo :=
  match tagger word with
  | Some (first_word :: _) =>
      Some {| info_surface := surface first_word;
              info_lemma :=
                if bool_decide (lemma (feature first_word) = Some STAR)
                then None else lemma (feature first_word);
              info_pos := pos1 (feature first_word);
              info_pos_detail := pos2 (feature first_word);
              info_reading :=
                match kana (feature first_word) with
                | Some reading => reading
                | None => None
                end |}
  | Some [] => None
  | None => None
  end.

End WithTagger.

(** The module-level convenience function [normalize_text]. *)
Definition normalize_text (text : str) : str := normalize text.

End Tokenizer.

(** ** csv: the reader of the standard library

    The part of [csv.reader] over a file opened with [encoding='utf-8']
    that [read_jesc_file] depends on.  A file is the sequence of its
    records, each one already split into fields, or a stretch of the
    file on which the reader raises (bytes that are not UTF-8 raise
    [UnicodeDecodeError]).  The reader also raises [csv.Error] on a
    record with a field of more than [csv.field_size_limit()]
    characters. *)

Module Csv.

Definition FIELD_SIZE_LIMIT : Z := 131072.

Inductive Entry :=
| Fields (row : list str)
| Broken (e : exn).

(** [next(reader)] on the entry the reader stands at. *)
Definition next (entry : Entry) : result (list str) :=
  match entry with
  | Fields row =>
      if existsb (fun field => FIELD_SIZE_LIMIT <? len field) row
      then Raise CsvError
      else Ok row
  | Broken e => Raise e
  end.

(** [list(reader)]: every row of the file, or the first failure. *)
Fixpoint read_all (entries : list Entry) : result (list (list str)) :=
  match entries with
  | [] => Ok []
  | entry :: rest =>
      match next entry with
      | Ok row =>
          match read_all rest with
          | Ok rows => Ok (row :: rows)
          | Raise e => Raise e
          end
      | Raise e => Raise e
      end
  end.

End Csv.

(** ** src/loader.py *)

Module Loader.

(** [if limit and line_num > limit]: [None] and [0] never stop the loop. *)
Definition limit_reached (limit : option Z) (line_num : Z) : bool :=
  match limit with
  | Some n => negb (n =? 0) && (n <? line_num)
  | None => false
  end.

Definition NEWLINE : N := 0x0A%N.
Definition TAB : N := 0x09%N.

(** The loop of [read_jesc_file] over the entries of the file,
    [line_num] counting from 1 and [sentences] being the list built so
    far.  [enumerate] asks the reader for the next row before the body
    looks at the limit; a failure of the reader leaves the loop. *)
Fixpoint read_rows (limit : option Z) (line_num : Z)
         (entries : list Csv.Entry) (sentences : list (str * str))
  : result (list (str * str)) :=
  match entries with
  | [] => Ok sentences
  | entry :: rest =>
      match Csv.next entry with
      | Raise e => Raise e
      | Ok row =>
          if limit_reached limit line_num then Ok sentences
          else if len row <? 3 then read_rows limit (line_num + 1) rest sentences
          else
            let en_text := strip (nth 1 row []) in
            let ja_text := strip (nth 2 row []) in
            if negb (Tokenizer.truthy (Some ja_text))
               || negb (Tokenizer.truthy (Some en_text))
            then read_rows limit (line_num + 1) rest sentences
            else if contains NEWLINE ja_text || contains TAB ja_text
                    || contains NEWLINE en_text || contains TAB en_text
            then read_rows limit (line_num + 1) rest sentences
            else if (300 <? len ja_text) || (300 <? len en_text)
            then read_rows limit (line_num + 1) rest sentences
            else read_rows limit (line_num + 1) rest
                           (sentences ++ [(ja_text, en_text)])
      end
  end.

(** [read_jesc_file] on an opened file: the loop, and the handler that
    logs a failure and raises it again. *)
Definition read_jesc_file (entries : list Csv.Entry) (limit : option Z)
  : result (list (str * str)) :=
  match read_rows limit 1 entries [] with
  | Ok sentences => Ok sentences
  | Raise e => (* logger.error(...); raise *) Raise e
  end.

(** The entries the loop asks the reader for under [limit]: all of
    them without a limit, and otherwise one more than the limit, the
    one on which the loop breaks. *)
Definition requested (limit : option Z) (entries : list Csv.Entry)
  : list Csv.Entry :=
  match limit with
  | Some n => if n =? 0 then entries else take (S (Z.to_nat n)) entries
  | None => entries
  end.

(** The rows the body of the loop gets to test under [limit]. *)
Definition consumed (limit : option Z) (rows : list (list str))
  : list (list str) :=
  match limit with
  | Some n => if n =? 0 then rows else take (Z.to_nat n) rows
  | None => rows
  end.

(** The two text fields of a record, trimmed. *)
Definition en_field (row : list str) : str := strip (nth 1 row []).
Definition ja_field (row : list str) : str := strip (nth 2 row []).

(** The rejection rule in the words of the input format: too few
    fields, an empty text, an embedded newline or tab, or a text of
    more than 300 characters. *)
Definition rejected (row : list str) : Prop :=
  len row < 3
  \/ ja_field row = [] \/ en_field row = []
  \/ NEWLINE ∈ ja_field row \/ TAB ∈ ja_field row
  \/ NEWLINE ∈ en_field row \/ TAB ∈ en_field row
  \/ 300 < len (ja_field row) \/ 300 < len (en_field row).

#[global] Instance rejected_dec row : Decision (rejected row).
Proof. unfold rejected. apply _. Defined.

(** The sentence pair an accepted record contributes. *)
Definition pair_of (row : list str) : str * str := (ja_field row, en_field row).

(** The pairs of the rows that are not rejected, in order. *)
Definition accepted (rows : list (list str)) : list (str * str) :=
  pair_of <$> filter (fun row => ¬ rejected row) rows.

Section WithTokenizer.

Variable tagger : str -> option (list Tokenizer.Node).

(** The order in which a set of words is iterated. *)
Variable set_iter : gset str -> list str.

(** The loop of [build_word_index]: [idx] is the enumeration counter,
    [word_index] the list built so far. *)
Fixpoint build_loop (idx : Z) (sentences : list (str * str))
         (word_index : list (str * Z)) : list (str * Z) :=
  match sentences with
  | [] => word_index
  | (ja_text, _) :: rest =>
      let words := Tokenizer.get_lemmas_with_surface tagger ja_text in
      build_loop (idx + 1) rest
        (fold_left (fun acc word => acc ++ [(word, idx)])
                   (set_iter words) word_index)
  end.

(** What one stored sentence contributes to the index: a pair for
    each word of its word set, in iteration order. *)
Definition contribution (row : Z * str) : list (str * Z) :=
  (fun word => (word, row.1))
    <$> set_iter (Tokenizer.get_lemmas_with_surface tagger row.2).

(** [build_word_index] *)
Definition build_word_index (sentences : list (str * str)) (start_id : Z)
  : list (str * Z) :=
  build_loop start_id sentences [].

End WithTokenizer.

End Loader.

(** ** scripts/rebuild_word_index.py *)

Module Rebuild.

(** The [(id, japanese)] rows of the Sentence table for sentences
    stored under sequential ids from [start_id] on. *)
Fixpoint persisted_rows (start_id : Z) (sentences : list (str * str))
  : list (Z * str) :=
  match sentences with
  | [] => []
  | (ja_text, _) :: rest => (start_id, ja_text) :: persisted_rows (start_id + 1) rest
  end.

Section WithTokenizer.

Variable tagger : str -> option (list Tokenizer.Node).
Variable set_iter : gset str -> list str.

(** The index-building loop of [rebuild_word_index] over the fetched
    [(Sentence.id, Sentence.japanese)] rows. *)
Fixpoint rebuild_loop (results : list (Z * str))
         (word_index : list (str * Z)) : list (str * Z) :=
  match results with
  | [] => word_index
  | (sentence_id, ja_text) :: rest =>
      let words := Tokenizer.get_lemmas_with_surface tagger ja_text in
      rebuild_loop rest
        (fold_left (fun acc word => acc ++ [(word, sentence_id)])
                   (set_iter words) word_index)
  end.

Definition rebuild_word_index (results : list (Z * str)) : list (str * Z) :=
  rebuild_loop results [].

End WithTokenizer.

End Rebuild.

(** ** src/database.py *)

Module Database.

(** The statements the query methods build and hand to the session. *)
Inductive Stmt :=
| SelectByWord (word : str) (limit : Z)
    (* select(japanese, english).join(WordIndex, id == sentence_id)
       .where(WordIndex.word == word).limit(limit) *)
| SelectByWordLike (pattern : str) (limit : Z)
    (* ... .where(WordIndex.word.like(pattern)).limit(limit) *)
| SelectRandom
    (* select(japanese, english).order_by(func.random()).limit(1) *)
| SelectCount.
    (* select(func.count()).select_from(Sentence) *)

(** The persistence backend behind [session.execute]: an external
    collaborator with a state of its own.  It answers a row query with
    the rows or fails, and a scalar query with an optional integer or
    fails. *)
Record Backend (W : Type) := {
  exec_rows : Stmt -> W -> option (list (str * str)) * W;
  exec_scalar : Stmt -> W -> option (option Z) * W
}.
Arguments exec_rows {W} _ _ _.
Arguments exec_scalar {W} _ _ _.

Definition stmt_limit (stmt : Stmt) : option Z :=
  match stmt with
  | SelectByWord _ limit => Some limit
  | SelectByWordLike _ limit => Some limit
  | SelectRandom => Some 1
  | SelectCount => None
  end.

(** A backend honours [LIMIT] when it never answers a statement with
    more rows than its (non-negative) limit. *)
Definition honours_limit {W} (B : Backend W) : Prop :=
  forall stmt c rows c' l,
    exec_rows B stmt c = (Some rows, c') ->
    stmt_limit stmt = Some l -> 0 <= l -> len rows <= l.

(** What a run does that an observer can see: statements executed by
    the backend and texts handed to the lemma extractor. *)
Inductive Call :=
| Executed (stmt : Stmt)
| Lemmatized (text : str).

Record World (W : Type) := { conn : W; trace : list Call }.
Arguments conn {W} _.
Arguments trace {W} _.

(** Computations that may raise, over the backend state and the trace. *)
Definition M (W A : Type) : Type := World W -> result A * World W.

Definition ret {W A} (a : A) : M W A := fun w => (Ok a, w).

Definition bind {W A B} (m : M W A) (k : A -> M W B) : M W B :=
  fun w =>
    match m w with
    | (Ok a, w') => k a w'
    | (Raise e, w') => (Raise e, w')
    end.

Definition raise {W A} (e : exn) : M W A := fun w => (Raise e, w).

(** [try: m  except Exception as e: handler e] *)
Definition try_except {W A} (m : M W A) (handler : exn -> M W A) : M W A :=
  fun w =>
    match m w with
    | (Ok a, w') => (Ok a, w')
    | (Raise e, w') => handler e w'
    end.

Definition record {W} (c : Call) : M W unit :=
  fun w => (Ok tt, {| conn := conn w; trace := trace w ++ [c] |}).

#[global] Instance M_ret {W} : MRet (M W) := fun A a => ret a.
#[global] Instance M_bind {W} : MBind (M W) := fun A B k m => bind m k.

(** [logger.info] and [logger.error] write to the log, which is not
    part of the modelled state. *)
Definition logger_info {W} : M W unit := ret tt.
Definition logger_error {W} : M W unit := ret tt.

(** [logger.erorr]: a [logging.Logger] has no such attribute. *)
Definition logger_erorr {W} : M W unit := raise AttributeError.

(** [x if x else d] on an optional integer ([None] and [0] are false). *)
Definition or_zero (count : option Z) : Z :=
  match count with
  | Some c => if c =? 0 then 0 else c
  | None => 0
  end.

Section WithBackend.

Context {W : Type}.
Variable B : Backend W.

(** [session.execute(stmt).all()] *)
Definition execute_all (stmt : Stmt) : M W (list (str * str)) :=
  fun w =>
    let '(answer, c) := exec_rows B stmt (conn w) in
    let w' := {| conn := c; trace := trace w ++ [Executed stmt] |} in
    match answer with
    | Some rows => (Ok rows, w')
    | None => (Raise BackendError, w')
    end.

(** [session.execute(stmt).scalar()] *)
Definition execute_scalar (stmt : Stmt) : M W (option Z) :=
  fun w =>
    let '(answer, c) := exec_scalar B stmt (conn w) in
    let w' := {| conn := c; trace := trace w ++ [Executed stmt] |} in
    match answer with
    | Some v => (Ok v, w')
    | None => (Raise BackendError, w')
    end.

(** [Database.search_by_word] *)
Definition search_by_word (word : str) (limit : Z) : M W (list (str * str)) :=
  try_except
    (results ← execute_all (SelectByWord word limit);
     ret (map (fun '(jp, en) => (jp, en)) results))
    (fun e => logger_erorr;; ret []).

(** [Database.search_by_partial_word]; the pattern is [f"{word}%"]. *)
Definition search_by_partial_word (word : str) (limit : Z)
  : M W (list (str * str)) :=
  try_except
    (results ← execute_all (SelectByWordLike (word ++ [0x25]%N) limit);
     ret (map (fun '(jp, en) => (jp, en)) results))
    (fun e => logger_erorr;; ret []).

(** [Database.get_random_sentence]; [(None, None)] is a pair of
    absent strings. *)
Definition get_random_sentence : M W (option str * option str) :=
  try_except
    (rows ← execute_all SelectRandom;
     match rows with
     | (jp, en) :: _ => ret (Some jp, Some en)
     | [] => ret (None, None)
     end)
    (fun e => logger_error;; ret (None, None)).

(** [Database.get_sentence_count] *)
Definition get_sentence_count : M W Z :=
  try_except
    (count ← execute_scalar SelectCount;
     ret (or_zero count))
    (fun e => logger_error;; ret 0).

End WithBackend.

End Database.

(** ** src/bot.py *)

Module Bot.

Import Database.

Section WithCollaborators.

Context {W : Type}.
Variable B : Backend W.
Variable tagger : str -> option (list Tokenizer.Node).
Variable set_iter : gset str -> list str.

(** [tokenizer.get_lemmas(text)], recorded in the trace. *)
Definition call_get_lemmas (text : str) : M W (gset str) :=
  record (Lemmatized text);; ret (Tokenizer.get_lemmas tagger text).

(** The search part of [sentence_command]: from the clamping of
    [limit] to the last assignment of [results].  The Discord
    interaction around it (deferring, building and sending the embed)
    is outside the model. *)
Definition sentence_command (word : str) (limit : Z)
  : M W (list (str * str)) :=
  let limit := Z.max 1 (Z.min limit 10) in
  let normalized_word := Tokenizer.normalize_text word in
  logger_info;;
  results ← search_by_word B normalized_word limit;
  results ← match results with
             | [] =>
                 logger_info;;
                 search_by_partial_word B normalized_word limit
             | _ :: _ => ret results
             end;
  results ← match results with
             | [] =>
                 lemmas ← call_get_lemmas normalized_word;
                 if bool_decide (lemmas = ∅) then ret results
                 else
                   match set_iter lemmas with
                   | lemma :: _ =>
                       logger_info;;
                       search_by_word B lemma limit
                   | [] => raise IndexError
                   end
             | _ :: _ => ret results
             end;
  ret results.

End WithCollaborators.

End Bot.

(** ** Concrete collaborators

    A small analyser and an in-memory backend on which the model can be
    run on concrete data. *)

Module Sample.

Import Tokenizer Database.

Definition unknown_word (c : N) : Node :=
  {| surface := [c];
     feature := {| lemma := None; pos1 := None; pos2 := None; kana := None |} |}.

Definition entry (surf lem : str) : Node :=
  {| surface := surf;
     feature := {| lemma := Some lem; pos1 := Some [0x52D5; 0x8A5E]%N;
                   pos2 := Some STAR; kana := None |} |}.

Definition TABERU : str := [0x98DF; 0x3079; 0x308B]%N.   (* 食べる *)
Definition TABETA : str := [0x98DF; 0x3079; 0x305F]%N.   (* 食べた *)
Definition TABE : str := [0x98DF; 0x3079]%N.             (* 食べ *)
Definition TA : str := [0x305F]%N.                       (* た *)
Definition NEKO : str := [0x732B]%N.                     (* 猫 *)

(** An analyser that knows two inflections of one verb, treats every
    other character as an out-of-dictionary word of its own, and fails
    on text containing U+0000. *)
Definition tagger (text : str) : option (list Node) :=
  if contains 0%N text then None
  else if bool_decide (text = TABERU) then Some [entry TABERU TABERU]
  else if bool_decide (text = TABETA) then Some [entry TABE TABERU; entry TA TA]
  else Some (map unknown_word text).

(** Set iteration in the order of stdpp's [elements]. *)
Definition set_iter (s : gset str) : list str := elements s.

(** SQL [LIKE] with the wildcards [%] and [_] and the escape
    character [\]. *)
Fixpoint like (pattern : str) : str -> bool :=
  match pattern with
  | [] => fun s => match s with [] => true | _ :: _ => false end
  | p :: rest =>
      if (p =? 0x25)%N then
        fix skip (s : str) : bool :=
          like rest s || match s with [] => false | _ :: s' => skip s' end
      else if (p =? 0x5F)%N then
        fun s => match s with _ :: s' => like rest s' | [] => false end
      else if (p =? 0x5C)%N then
        match rest with
        | q :: rest' =>
            fun s => match s with
                     | x :: s' => (x =? q)%N && like rest' s'
                     | [] => false
                     end
        | [] => fun _ => false
        end
      else
        fun s => match s with
                 | x :: s' => (x =? p)%N && like rest s'
                 | [] => false
                 end
  end.

Record Store := {
  sentences : list (Z * str * str);
  word_index : list (str * Z);
  up : bool;       (* is the server reachable *)
  seed : nat       (* state of the random generator *)
}.

(** The rows of the join of the two tables on the sentence id, for the
    index words that satisfy [p]: a sentence is there once for each of
    its matching index entries.  The statements have no ORDER BY, so the
    join is a bag of rows; it is listed here sentence by sentence, and a
    backend hands the rows out in an order of its own. *)
Definition join (p : str -> bool) (st : Store) : list (str * str) :=
  flat_map
    (fun '(sid, ja, en) =>
       flat_map (fun '(w, i) => if (i =? sid) && p w then [(ja, en)] else [])
                (word_index st))
    (sentences st).

(** The order in which a backend hands out the rows of a statement
    without ORDER BY: its own choice, which may depend on the statement
    and on the tables.  LIMIT keeps the first rows of that order. *)
Definition Arrangement : Type :=
  Stmt -> Store -> list (str * str) -> list (str * str).

Definition rearranges (arrange : Arrangement) : Prop :=
  forall stmt st rows, arrange stmt st rows ≡ₚ rows.

(** Two arrangements: the order of the listing above, and its reverse. *)
Definition listed : Arrangement := fun _ _ rows => rows.
Definition backwards : Arrangement := fun _ _ rows => rev rows.

Definition answer_rows (arrange : Arrangement) (stmt : Stmt) (st : Store)
  : option (list (str * str)) * Store :=
  if negb (up st) then (None, st)
  else
    match stmt with
    | SelectByWord w l =>
        if l <? 0 then (None, st)
        else (Some (take (Z.to_nat l)
                      (arrange stmt st (join (fun x => bool_decide (x = w)) st))),
              st)
    | SelectByWordLike p l =>
        if l <? 0 then (None, st)
        else (Some (take (Z.to_nat l) (arrange stmt st (join (like p) st))), st)
    | SelectRandom =>
        (Some (take 1 (drop (seed st `mod` length (sentences st))%nat
                            (map (fun '(_, ja, en) => (ja, en)) (sentences st)))),
         {| sentences := sentences st; word_index := word_index st;
            up := up st; seed := S (seed st) |})
    | SelectCount => (None, st)
    end.

Definition answer_scalar (stmt : Stmt) (st : Store) : option (option Z) * Store :=
  if negb (up st) then (None, st)
  else
    match stmt with
    | SelectCount => (Some (Some (len (sentences st))), st)
    | _ => (None, st)
    end.

Definition backend_in (arrange : Arrangement) : Backend Store :=
  {| exec_rows := answer_rows arrange; exec_scalar := answer_scalar |}.

(** The backend that hands out rows as they are listed. *)
Definition backend : Backend Store := backend_in listed.

(** One sentence, 猫を食べた, indexed under 食べる and 猫. *)
Definition store : Store :=
  {| sentences := [(1, NEKO ++ [0x3092]%N ++ TABETA, [0x49]%N)];
     word_index := [(TABERU, 1); (NEKO, 1)];
     up := true; seed := 0 |}.

Definition store_down : Store :=
  {| sentences := sentences store; word_index := word_index store;
     up := false; seed := 0 |}.

Definition start {W} (c : W) : World W := {| conn := c; trace := [] |}.



End Sample.

(** ** Character classes of the normalizer *)

(** The characters a pass of the normalizer changes or joins: full-width
    ASCII and digits, the ideographic space, and half-width katakana. *)
Definition is_wide_or_half (c : N) : bool :=
  ((0xFF01 <=? c) && (c <=? 0xFF5E) || (c =? 0x3000)
   || (0xFF61 <=? c) && (c <=? 0xFF9D))%N.

(** The two voicing marks of half-width katakana. *)
Definition is_voicing_mark (c : N) : bool :=
  ((c =? 0xFF9E) || (c =? 0xFF9F))%N.

(** The characters LIKE does not take literally: percent sign,
    underscore and backslash. *)
Definition is_like_special (c : N) : bool :=
  ((c =? 0x25) || (c =? 0x5F) || (c =? 0x5C))%N.

(** ** Python values of the write path and of the commands *)

Module PyX.

(** The exceptions of the write path and of the commands: those of the
    query path and three more.  [SystemExit] is raised by [sys.exit] and
    is not an [Exception]. *)
Inductive exc :=
| Base (e : exn)
| ValueError
| TypeError
| FileNotFoundError
| SystemExit (code : Z).

(** [isinstance(e, Exception)] *)
Definition is_Exception (e : exc) : bool :=
  match e with
  | SystemExit _ => false
  | _ => true
  end.

Inductive outcome (A : Type) :=
| Return (a : A)
| Except (e : exc).
Arguments Return {A} a.
Arguments Except {A} e.

(** Computations over a state [S] that return or raise. *)
Definition X (S A : Type) : Type := S -> outcome A * S.

Definition ret {S A} (a : A) : X S A := fun s => (Return a, s).

Definition bind {S A B} (m : X S A) (k : A -> X S B) : X S B :=
  fun s =>
    match m s with
    | (Return a, s') => k a s'
    | (Except e, s') => (Except e, s')
    end.

Definition raise {S A} (e : exc) : X S A := fun s => (Except e, s).

(** [try: m  except Exception as e: handler e] *)
Definition try_except {S A} (m : X S A) (handler : exc -> X S A) : X S A :=
  fun s =>
    match m s with
    | (Return a, s') => (Return a, s')
    | (Except e, s') =>
        if is_Exception e then handler e s' else (Except e, s')
    end.

#[global] Instance X_ret {S} : MRet (X S) := fun A a => ret a.
#[global] Instance X_bind {S} : MBind (X S) := fun A B k m => bind m k.

(** [for a in l: body a] *)
Fixpoint for_each {S A} (l : list A) (body : A -> X S unit) : X S unit :=
  match l with
  | [] => ret tt
  | a :: l' => body a;; for_each l' body
  end.

(** A computation of the query path, run inside the wider one. *)
Definition lift {W A} (m : Database.M W A) : X (Database.World W) A :=
  fun w =>
    match m w with
    | (Ok a, w') => (Return a, w')
    | (Raise e, w') => (Except (Base e), w')
    end.

(** A computation on the backend state, run on the world around it. *)
Definition on_conn {W A} (m : X W A) : X (Database.World W) A :=
  fun w =>
    let '(r, c) := m (Database.conn w) in
    (r, {| Database.conn := c; Database.trace := Database.trace w |}).

(** [range(start, stop, step)]; [None] stands for the [ValueError] of a
    zero step. *)
Definition range (start stop step : Z) : option (list Z) :=
  if step =? 0 then None
  else if 0 <? step then
    Some (map (fun k => start + Z.of_nat k * step)
              (seq 0 (Z.to_nat ((stop - start + step - 1) / step))))
  else
    Some (map (fun k => start + Z.of_nat k * step)
              (seq 0 (Z.to_nat ((start - stop - step - 1) / (- step))))).

(** A slice bound as Python resolves it against a length: negative
    bounds count from the end, and every bound is clipped to the list. *)
Definition clip (n i : Z) : nat :=
  Z.to_nat (if i <? 0 then Z.max (i + n) 0 else Z.min i n).

(** [l[a:b]] *)
Definition slice {A} (l : list A) (a b : Z) : list A :=
  take (clip (len l) b - clip (len l) a) (drop (clip (len l) a) l).

End PyX.

(** ** src/database.py: the bulk inserts *)

Module DatabaseWrite.

Import PyX.

(** The mapped objects handed to the session. *)
Inductive Obj :=
| SentenceObj (japanese english : str)
| WordIndexObj (word : str) (sentence_id : Z).

(** The session operations of the write path and of the scripts, over
    the state of the backend; [false] (or [None]) stands for an
    operation that raises. *)
Record Session (W : Type) := {
  connect : W -> bool * W;
  bulk_save_objects : list Obj -> W -> bool * W;
  commit : W -> bool * W;
  rollback : W -> W;
  select_id_japanese : W -> option (list (Z * str)) * W;
  show_client_encoding : W -> bool * W
}.
Arguments connect {W} _ _.
Arguments bulk_save_objects {W} _ _ _.
Arguments commit {W} _ _.
Arguments rollback {W} _ _.
Arguments select_id_japanese {W} _ _.
Arguments show_client_encoding {W} _ _.

Definition logger_info {S} : X S unit := ret tt.
Definition logger_error {S} : X S unit := ret tt.

Section WithSession.

Context {W : Type}.
Variable Ss : Session W.

Definition attempt (op : W -> bool * W) : X W unit :=
  fun s =>
    let '(ok, s') := op s in
    (if ok then Return tt else Except (Base BackendError), s').

Definition session_bulk_save_objects (objs : list Obj) : X W unit :=
  attempt (bulk_save_objects Ss objs).

Definition session_commit : X W unit := attempt (commit Ss).

Definition session_rollback : X W unit :=
  fun s => (Return tt, rollback Ss s).

(** [range(0, len(entries), batch_size)] *)
Definition batch_starts {A} (entries : list A) (batch_size : Z) : X W (list Z) :=
  match range 0 (len entries) batch_size with
  | Some starts => ret starts
  | None => raise ValueError
  end.

(** [Database.bulk_insert_sentences] *)
Definition bulk_insert_sentences (sentences : list (str * str))
    (batch_size : Z) : X W unit :=
  try_except
    (starts ← batch_starts sentences batch_size;
     for_each starts (fun i =>
       let batch := slice sentences i (i + batch_size) in
       let sentence_objs := map (fun '(jp, en) => SentenceObj jp en) batch in
       session_bulk_save_objects sentence_objs;;
       session_commit;;
       logger_info))
    (fun e => session_rollback;; logger_error;; raise e).

(** [Database.bulk_insert_word_index] *)
Definition bulk_insert_word_index (word_entries : list (str * Z))
    (batch_size : Z) : X W unit :=
  try_except
    (starts ← batch_starts word_entries batch_size;
     for_each starts (fun i =>
       let batch := slice word_entries i (i + batch_size) in
       let index_objs := map (fun '(word, sid) => WordIndexObj word sid) batch in
       session_bulk_save_objects index_objs;;
       session_commit;;
       logger_info))
    (fun e => session_rollback;; logger_error;; raise e).

(** [Database.connect] *)
Definition db_connect : X W unit :=
  try_except
    (attempt (connect Ss);; logger_info)
    (fun e => logger_error;; raise e).

End WithSession.

End DatabaseWrite.

(** ** An in-memory database

    Rows become durable at commit, in commit order; a rollback drops the
    rows saved since the last commit; the id of a sentence comes from a
    sequence that a rollback does not rewind.  [faults] scripts the
    outcomes of the coming save and commit operations ([true]: the
    operation raises); an exhausted script means success. *)

Module MemDb.

Import DatabaseWrite.

Inductive Row :=
| SentenceRow (id : Z) (japanese english : str)
| WordIndexRow (word : str) (sentence_id : Z).

Record Db := {
  rows : list Row;
  pending : list Row;
  next_id : Z;
  faults : list bool
}.

Definition sentences (db : Db) : list (Z * str * str) :=
  flat_map (fun r => match r with
                     | SentenceRow id ja en => [(id, ja, en)]
                     | WordIndexRow _ _ => []
                     end) (rows db).

Definition word_index (db : Db) : list (str * Z) :=
  flat_map (fun r => match r with
                     | SentenceRow _ _ _ => []
                     | WordIndexRow w sid => [(w, sid)]
                     end) (rows db).

(** The object a row was made from. *)
Definition erase (r : Row) : Obj :=
  match r with
  | SentenceRow _ ja en => SentenceObj ja en
  | WordIndexRow w sid => WordIndexObj w sid
  end.

(** Rows for the objects, sentence ids drawn from [id] on. *)
Fixpoint number (id : Z) (objs : list Obj) : list Row :=
  match objs with
  | [] => []
  | SentenceObj ja en :: objs' => SentenceRow id ja en :: number (id + 1) objs'
  | WordIndexObj w sid :: objs' => WordIndexRow w sid :: number id objs'
  end.

Fixpoint count_sentences (objs : list Obj) : Z :=
  match objs with
  | [] => 0
  | SentenceObj _ _ :: objs' => 1 + count_sentences objs'
  | WordIndexObj _ _ :: objs' => count_sentences objs'
  end.

Definition pop_fault (db : Db) : bool * Db :=
  match faults db with
  | f :: fs => (f, {| rows := rows db; pending := pending db;
                      next_id := next_id db; faults := fs |})
  | [] => (false, db)
  end.

Definition save (objs : list Obj) (db : Db) : bool * Db :=
  let '(fault, db) := pop_fault db in
  if fault then (false, db)
  else (true, {| rows := rows db;
                 pending := pending db ++ number (next_id db) objs;
                 next_id := next_id db + count_sentences objs;
                 faults := faults db |}).

Definition do_commit (db : Db) : bool * Db :=
  let '(fault, db) := pop_fault db in
  if fault then (false, db)
  else (true, {| rows := rows db ++ pending db; pending := [];
                 next_id := next_id db; faults := faults db |}).

Definition do_rollback (db : Db) : Db :=
  {| rows := rows db; pending := []; next_id := next_id db;
     faults := faults db |}.

Definition session : Session Db :=
  {| connect := fun db => (true, db);
     bulk_save_objects := save;
     commit := do_commit;
     rollback := do_rollback;
     select_id_japanese :=
       fun db => (Some (map (fun '(id, ja, _) => (id, ja)) (sentences db)), db);
     show_client_encoding := fun db => (true, db) |}.

(** The committed tables as the query side sees them. *)
Definition view (db : Db) : Sample.Store :=
  {| Sample.sentences := sentences db; Sample.word_index := word_index db;
     Sample.up := true; Sample.seed := 0 |}.

(** The query side, handing out rows in the order [arrange]. *)
Definition backend_in (arrange : Sample.Arrangement) : Database.Backend Db :=
  {| Database.exec_rows :=
       fun stmt db => ((Sample.answer_rows arrange stmt (view db)).1, db);
     Database.exec_scalar :=
       fun stmt db => ((Sample.answer_scalar stmt (view db)).1, db) |}.

(** The query side that hands out rows as they are listed. *)
Definition backend : Database.Backend Db := backend_in Sample.listed.

(** The rows of sentences stored under the ids [id], [id + 1], ... *)
Fixpoint stored_from (id : Z) (sentences : list (str * str))
  : list (Z * str * str) :=
  match sentences with
  | [] => []
  | (ja, en) :: rest => (id, ja, en) :: stored_from (id + 1) rest
  end.

(** The sentence pairs of the sentence table, without their ids. *)
Definition texts (db : Db) : list (str * str) :=
  map (fun '(_, ja, en) => (ja, en)) (sentences db).

(** A database with empty tables and a fresh id sequence. *)
Definition fresh : Db :=
  {| rows := []; pending := []; next_id := 1; faults := [] |}.

End MemDb.

(** ** String literals *)

From Stdlib Require String Ascii DecimalString.

Module Lit.

Import Stdlib.Strings.String.

(** An ASCII literal as a Python string. *)
Definition lit (s : string) : str :=
  map Ascii.N_of_ascii (list_ascii_of_string s).

(** [str(n)] for an integer. *)
Definition str_of_Z (n : Z) : str :=
  lit (DecimalString.NilZero.string_of_int (Z.to_int n)).

Definition EXAMPLE_SENTENCE_FOR : str := lit "Example sentence for: ".
Definition FUOND : str := lit "Fuond ".
Definition EXAMPLES_FROM : str := lit " example(s) from Japanese subtitles".
Definition EXAMPLE : str := lit "Example ".
Definition JP : str := lit "jp: ".
Definition EN : str := 0x0A%N :: lit " en: ".
Definition DOTS : str := lit "...".
Definition DATA_FROM_JESC : str :=
  lit "Data from JESC (Japanese-English Subtitle Corpus)".
Definition NO_RESULTS_FOUND : str := lit "No results found".
Definition COULD_NOT_FIND : str :=
  lit "Couldn't find any sentences containing **".
Definition STARS : str := lit "**".
Definition RANDOM_SENTENCE : str := lit "Random Sentence".
Definition HERE_IS_A_RANDOM_SENTENCE : str :=
  lit "Here's a random sentence from the Japanese media:".
Definition JAPANESE : str := [0x1F1EF; 0x1F1F5]%N ++ lit " Japanese".
Definition ENLIGH : str := [0x1F1EC; 0x1F1E7]%N ++ lit " Enligh".
Definition ERROR : str := lit "Error".
Definition FAILED_TO_RETRIEVE : str :=
  lit "Failed to retrieve a random sentence".

End Lit.

(** ** config.py *)

Module Config.

Import PyX.




End Config.

(** ** src/loader.py and scripts/rebuild_word_index.py: the entry points *)

Module Scripts.

Import PyX DatabaseWrite.


Section WithCollaborators.

Context {W : Type}.
Variable B : Database.Backend W.
Variable Ss : Session W.
Variable tagger : str -> option (list Tokenizer.Node).
Variable set_iter : gset str -> list str.

(** The CSV files by path: the entries of a file that exists. *)
Variable files : str -> option (list Csv.Entry).

(** [read_jesc_file] from the opening of the file on. *)
Definition read_jesc_file (csv_path : str) (limit : option Z)
  : X (Database.World W) (list (str * str)) :=
  logger_info;;
  match files csv_path with
  | Some entries =>
      match Loader.read_jesc_file entries limit with
      | Ok sentences => logger_info;; ret sentences
      | Raise e => raise (Base e)
      end
  | None => logger_error;; raise FileNotFoundError
  end.


(** [session.execute(select(Sentence.id, Sentence.japanese)).all()] *)
Definition fetch_sentences : X W (list (Z * str)) :=
  fun s =>
    let '(answer, s') := select_id_japanese Ss s in
    (match answer with
     | Some results => Return results
     | None => Except (Base BackendError)
     end, s').

(** [rebuild_word_index] of the rebuild script. *)
Definition rebuild_word_index : X (Database.World W) unit :=
  try_except
    (logger_info;;
     on_conn (db_connect Ss);;
     on_conn (attempt (show_client_encoding Ss));;
     logger_info;;
     total_sentences ← lift (Database.get_sentence_count B);
     logger_info;;
     results ← on_conn fetch_sentences;
     logger_info;;
     let word_index := Rebuild.rebuild_word_index tagger set_iter results in
     logger_info;;
     on_conn (bulk_insert_word_index Ss word_index 50000);;
     logger_info)
    (fun e => logger_error;; raise e).

End WithCollaborators.

End Scripts.

(** ** src/bot.py: the replies *)

Module Discord.

Inductive Color := Blue | Red | Green.

Record Field := { name : str; value : str; inline : bool }.

Record Embed := {
  title : str;
  description : str;
  color : Color;
  fields : list Field;
  footer : option str
}.

(** [embed.add_field(name=..., value=..., inline=...)] *)
Definition add_field (embed : Embed) (name value : str) (inline : bool) : Embed :=
  {| title := title embed; description := description embed;
     color := color embed;
     fields := fields embed ++ [{| name := name; value := value;
                                   inline := inline |}];
     footer := footer embed |}.

(** [embed.set_footer(text=...)] *)
Definition set_footer (embed : Embed) (text : str) : Embed :=
  {| title := title embed; description := description embed;
     color := color embed; fields := fields embed; footer := Some text |}.

End Discord.

Module Replies.

Import PyX Discord.

(** [text if len(text) <= 200 else text[:197] + "..."] *)
Definition display (text : str) : str :=
  if len text <=? 200 then text else PyX.slice text 0 197 ++ Lit.DOTS.

(** The loop of [sentence_command] that adds one field for each result,
    [idx] counting from 1. *)
Fixpoint add_examples (idx : Z) (results : list (str * str)) (embed : Embed)
  : Embed :=
  match results with
  | [] => embed
  | (ja_text, en_text) :: rest =>
      let ja_display := display ja_text in
      let en_display := display en_text in
      add_examples (idx + 1) rest
        (add_field embed (Lit.EXAMPLE ++ Lit.str_of_Z idx)
           (Lit.JP ++ ja_display ++ Lit.EN ++ en_display) false)
  end.

(** The embed [sentence_command] builds for a non-empty result list. *)
Definition results_embed (word : str) (results : list (str * str)) : Embed :=
  let embed :=
    {| title := Lit.EXAMPLE_SENTENCE_FOR ++ word;
       description := Lit.FUOND ++ Lit.str_of_Z (len results)
                      ++ Lit.EXAMPLES_FROM;
       color := Blue; fields := []; footer := None |} in
  let embed := add_examples 1 results embed in
  set_footer embed Lit.DATA_FROM_JESC.

(** [embed.add_field(name=..., values=..., inline=False)]: the method
    takes [value]; the keyword [values] is not one of its parameters. *)
Definition add_field_values {S} (embed : Embed) : X S Embed :=
  raise TypeError.

(** The branch of [sentence_command] for an empty result list. *)
Definition no_results_embed {S} (word : str) : X S Embed :=
  let embed :=
    {| title := Lit.NO_RESULTS_FOUND;
       description := Lit.COULD_NOT_FIND ++ word ++ Lit.STARS;
       color := Red; fields := []; footer := None |} in
  add_field_values embed.

Definition random_embed (ja_text en_text : str) : Embed :=
  let embed :=
    {| title := Lit.RANDOM_SENTENCE;
       description := Lit.HERE_IS_A_RANDOM_SENTENCE;
       color := Green; fields := []; footer := None |} in
  let embed := add_field embed Lit.JAPANESE ja_text false in
  let embed := add_field embed Lit.ENLIGH en_text false in
  set_footer embed Lit.DATA_FROM_JESC.

Definition error_embed : Embed :=
  {| title := Lit.ERROR; description := Lit.FAILED_TO_RETRIEVE;
     color := Red; fields := []; footer := None |}.

Section WithCollaborators.

Context {W : Type}.
Variable B : Database.Backend W.
Variable Ss : DatabaseWrite.Session W.
Variable tagger : str -> option (list Tokenizer.Node).
Variable set_iter : gset str -> list str.

(** [interaction.followup.send(embed=embed)]; the result of a command
    is the embed it sends. *)
Definition followup_send (embed : Embed) : X (Database.World W) Embed :=
  ret embed.

(** [sentence_command], with the reply. *)
Definition sentence_command (word : str) (limit : Z)
  : X (Database.World W) Embed :=
  results ← lift (Bot.sentence_command B tagger set_iter word limit);
  embed ← match results with
          | _ :: _ => ret (results_embed word results)
          | [] => no_results_embed word
          end;
  followup_send embed.

(** [random_command] *)
Definition random_command : X (Database.World W) Embed :=
  DatabaseWrite.logger_info;;
  pair ← lift (Database.get_random_sentence B);
  let '(ja_text, en_text) := pair in
  let embed :=
    match ja_text, en_text with
    | Some ja, Some en =>
        if Tokenizer.truthy ja_text && Tokenizer.truthy en_text
        then random_embed ja en else error_embed
    | _, _ => error_embed
    end in
  followup_send embed.

(** [self.tree.sync()], a call to the chat service. *)
Variable tree_sync : X (Database.World W) unit.

(** [JESCBot.setup_hook]; [sys.exit(1)] raises [SystemExit]. *)
Definition setup_hook : X (Database.World W) unit :=
  DatabaseWrite.logger_info;;
  try_except
    (on_conn (DatabaseWrite.db_connect Ss);;
     sentence_count ← lift (Database.get_sentence_count B);
     DatabaseWrite.logger_info)
    (fun e =>
       DatabaseWrite.logger_error;;
       DatabaseWrite.logger_error;;
       raise (SystemExit 1));;
  tree_sync;;
  DatabaseWrite.logger_info.

End WithCollaborators.

End Replies.

(** * Properties *)

(** ** The normalizer *)

Lemma list_pair_ind (P : str -> Prop) :
  P [] ->
  (forall x, P [x]) ->
  (forall x y t, P t -> P (y :: t) -> P (x :: y :: t)) ->
  forall s, P s.
Proof.
  intros Hnil Hone Hstep s.
  assert (H : P s /\ forall x, P (x :: s)).
  { induction s as [|a s [IH1 IH2]].
    - split; [exact Hnil | exact Hone].
    - split; [apply IH2 | intros x; apply Hstep; [exact IH1 | apply IH2]]. }
  apply H.
Qed.

Lemma replace2_Forall (P : N -> Prop) a b c s :
  P c -> Forall P s -> Forall P (replace2 a b c s).
Proof.
  intros Hc. induction s as [| x | x y t IHt IHyt] using list_pair_ind;
    intros Hs.
  - constructor.
  - exact Hs.
  - change (replace2 a b c (x :: y :: t))
      with (if ((x =? a) && (y =? b))%N then c :: replace2 a b c t
            else x :: replace2 a b c (y :: t)).
    inversion Hs as [|? ? Hx Hyt]; subst.
    inversion Hyt as [|? ? Hy Ht]; subst.
    destruct ((x =? a) && (y =? b))%N; constructor; auto.
Qed.

Lemma replace2_absent a b c s :
  Forall (fun x => x <> a) s -> replace2 a b c s = s.
Proof.
  induction s as [| x | x y t IHt IHyt] using list_pair_ind; intros Hs.
  - reflexivity.
  - reflexivity.
  - change (replace2 a b c (x :: y :: t))
      with (if ((x =? a) && (y =? b))%N then c :: replace2 a b c t
            else x :: replace2 a b c (y :: t)).
    inversion Hs as [|? ? Hx Hyt]; subst.
    destruct (N.eqb_spec x a) as [->|_]; [contradiction|].
    cbn [andb]. f_equal. apply IHyt, Hyt.
Qed.

Lemma table_get_In tbl c v :
  table_get tbl c = Some v -> In (c, v) tbl.
Proof.
  induction tbl as [|[k w] tbl IH]; cbn; [discriminate|].
  destruct (N.eqb_spec k c) as [->|_].
  - intros [= ->]. now left.
  - intros H. right. auto.
Qed.

Section TranslationTables.

(** Two translation tables and a list of joins, as [z2h] and [h2z]
    use them. *)
Variables (zt ht : list (N * N)) (dk : list (N * N * N)).

Local Abbreviation z_fixed := (Jaconv.z_fixed zt).
Local Abbreviation settled := (Jaconv.settled zt ht dk).
Local Abbreviation is_key := (Jaconv.is_key ht).
Local Abbreviation normalize_with := (Jaconv.normalize_with zt ht dk).

Hypothesis zt_images : forallb (fun '(_, v) => z_fixed v) zt = true.
Hypothesis ht_images : forallb (fun '(_, v) => settled v) ht = true.
Hypothesis dk_images :
  forallb (fun '(a, _, c) => settled c && is_key a) dk = true.

Lemma z_fixed_translate c : z_fixed (translate_char zt c) = true.
Proof.
  unfold translate_char at 1. destruct (table_get zt c) as [v|] eqn:E.
  - apply table_get_In in E.
    rewrite forallb_forall in zt_images. exact (zt_images _ E).
  - unfold Jaconv.z_fixed, translate_char. rewrite E. apply N.eqb_refl.
Qed.

Lemma settled_z_fixed c : settled c = true -> z_fixed c = true.
Proof.
  unfold Jaconv.settled. intros H.
  apply andb_prop in H as [H _]. apply andb_prop in H as [H _]. exact H.
Qed.

Lemma settled_translate c :
  z_fixed c = true -> settled (translate_char ht c) = true.
Proof.
  intros Hz. unfold translate_char at 1.
  destruct (table_get ht c) as [v|] eqn:E.
  - apply table_get_In in E.
    rewrite forallb_forall in ht_images. exact (ht_images _ E).
  - unfold Jaconv.settled. rewrite Hz. unfold translate_char. rewrite E.
    rewrite N.eqb_refl. cbn [andb].
    apply negb_true_iff, not_true_is_false. intros Hex.
    apply existsb_exists in Hex as [[[a b] c'] [Hin Heq]].
    apply N.eqb_eq in Heq. subst a.
    rewrite forallb_forall in dk_images. specialize (dk_images _ Hin).
    cbn in dk_images. apply andb_prop in dk_images as [_ Hk].
    unfold Jaconv.is_key in Hk. rewrite E in Hk. discriminate.
Qed.

Lemma conv_dakuten_z_fixed s :
  Forall (fun c => z_fixed c = true) s ->
  Forall (fun c => z_fixed c = true) (Jaconv.conv_dakuten dk s).
Proof.
  unfold Jaconv.conv_dakuten. revert s.
  assert (Hall : forall j, In j dk -> In j dk) by auto. revert Hall.
  generalize dk at 1 3 as js.
  induction js as [|[[a b] c] js IH]; intros Hall s Hs; cbn; [exact Hs|].
  apply IH; [intros j Hj; apply Hall; now right|].
  apply replace2_Forall; [|exact Hs].
  apply settled_z_fixed.
  rewrite forallb_forall in dk_images.
  specialize (dk_images _ (Hall _ (or_introl eq_refl))). cbn in dk_images.
  apply andb_prop in dk_images as [Hc _]. exact Hc.
Qed.

Lemma conv_dakuten_settled s :
  Forall (fun c => settled c = true) s -> Jaconv.conv_dakuten dk s = s.
Proof.
  unfold Jaconv.conv_dakuten. intros Hs.
  assert (Hall : forall j, In j dk -> In j dk) by auto. revert Hall.
  generalize dk at 1 3 as js.
  induction js as [|[[a b] c] js IH]; intros Hall; cbn; [reflexivity|].
  rewrite replace2_absent; [apply IH; intros j Hj; apply Hall; now right|].
  eapply Forall_impl; [exact Hs|]. cbn. intros x Hx ->.
  unfold Jaconv.settled in Hx. apply andb_prop in Hx as [_ Hx].
  apply negb_true_iff in Hx.
  assert (Hex : existsb (fun '(a0, _, _) => (a0 =? a)%N) dk = true).
  { apply existsb_exists. exists (a, b, c). split.
    - apply Hall. now left.
    - apply N.eqb_refl. }
  congruence.
Qed.

Lemma normalize_with_settles s :
  Forall (fun c => settled c = true) (normalize_with s).
Proof.
  unfold Jaconv.normalize_with, translate at 1.
  apply Forall_map.
  eapply Forall_impl; [apply conv_dakuten_z_fixed|].
  - unfold translate. apply Forall_map, Forall_forall.
    intros c _. apply z_fixed_translate.
  - intros c Hc. apply settled_translate, Hc.
Qed.

Lemma normalize_with_settled s :
  Forall (fun c => settled c = true) s -> normalize_with s = s.
Proof.
  intros Hs. unfold Jaconv.normalize_with.
  assert (Hz : translate zt s = s).
  { unfold translate. induction Hs as [|c s Hc Hs IH]; cbn; [reflexivity|].
    f_equal; [|exact IH].
    apply settled_z_fixed in Hc. unfold Jaconv.z_fixed in Hc.
    now apply N.eqb_eq in Hc. }
  rewrite Hz, conv_dakuten_settled by exact Hs.
  unfold translate. induction Hs as [|c s Hc Hs IH]; cbn; [reflexivity|].
  f_equal; [|apply IH].
  - unfold Jaconv.settled in Hc. apply andb_prop in Hc as [Hc _].
    apply andb_prop in Hc as [_ Hc]. now apply N.eqb_eq in Hc.
  - unfold translate in Hz. cbn in Hz. now injection Hz.
Qed.

Lemma normalize_with_idempotent s :
  normalize_with (normalize_with s) = normalize_with s.
Proof. apply normalize_with_settled, normalize_with_settles. Qed.

End TranslationTables.

(** C3. The normalizer is idempotent, [normalize (normalize x) = normalize x]
    for every string [x], and maps the empty string to the empty string.
    It is a total function of its argument alone: [normalize] is a plain
    function on strings, defined by structural recursion. *)
Theorem normalize_idempotent :
  (forall x : str, Tokenizer.normalize (Tokenizer.normalize x) = Tokenizer.normalize x)
  /\ Tokenizer.normalize [] = [].
Proof.
  split.
  - intros x.
    change Tokenizer.normalize
      with (Jaconv.normalize_with Jaconv.Z2H_AD Jaconv.H2Z_K Jaconv.DAKUTEN).
    apply normalize_with_idempotent; vm_compute; reflexivity.
  - reflexivity.
Qed.

(** ** The tokenizer wrappers *)

Section TokenizerFacts.

Import Tokenizer.
Variable tagger : str -> option (list Node).

(** The two accumulation steps, as the loops apply them. *)
Let add_lemma (lemmas : gset str) (word : Node) : gset str :=
  match lemma (feature word) with
  | Some l => if usable (Some l) then lemmas ∪ {[ l ]}
              else lemmas ∪ {[ surface word ]}
  | None => lemmas ∪ {[ surface word ]}
  end.

Let add_both (words : gset str) (word : Node) : gset str :=
  let words := words ∪ {[ surface word ]} in
  match lemma (feature word) with
  | Some l => if usable (Some l) then words ∪ {[ l ]} else words
  | None => words
  end.

Lemma add_both_mono words acc : acc ⊆ fold_left add_both words acc.
Proof.
  revert acc. induction words as [|w words IH]; intros acc; cbn; [done|].
  etrans; [|apply IH]. unfold add_both.
  destruct (lemma (feature w)) as [l|]; [destruct (usable (Some l))|];
    set_solver.
Qed.

Lemma add_both_surface words acc w :
  w ∈ words -> surface w ∈ fold_left add_both words acc.
Proof.
  revert acc. induction words as [|w' words IH]; intros acc Hin; cbn.
  - by apply elem_of_nil in Hin.
  - apply elem_of_cons in Hin as [<-|Hin]; [|by apply IH].
    apply add_both_mono. unfold add_both.
    destruct (lemma (feature w)) as [l|]; [destruct (usable (Some l))|];
      set_solver.
Qed.

Lemma add_lemma_below words acc acc' :
  acc ⊆ acc' -> fold_left add_lemma words acc ⊆ fold_left add_both words acc'.
Proof.
  revert acc acc'. induction words as [|w words IH]; intros acc acc' Hsub;
    cbn; [done|].
  apply IH. unfold add_lemma, add_both. intros x.
  destruct (lemma (feature w)) as [l|]; [destruct (usable (Some l))|];
    rewrite !elem_of_union; intros [Hx|Hx]; auto.
Qed.

Lemma lemmas_below_words text :
  get_lemmas tagger text ⊆ get_lemmas_with_surface tagger text.
Proof.
  unfold get_lemmas, get_lemmas_with_surface.
  destruct (tagger (normalize text)) as [words|]; [|done].
  by apply add_lemma_below.
Qed.

Lemma tokens_below_words text t :
  t ∈ tokenize tagger text -> t ∈ get_lemmas_with_surface tagger text.
Proof.
  unfold tokenize, get_lemmas_with_surface.
  destruct (tagger (normalize text)) as [words|].
  - intros Hin. apply list_elem_of_fmap in Hin as [w [-> Hw]].
    by apply add_both_surface.
  - intros Hin. by apply elem_of_nil in Hin.
Qed.

(** The three wrappers that normalize first give the same answer on a
    text and on its normal form. *)
Lemma extraction_normalizes_first text :
  tokenize tagger text = tokenize tagger (normalize text)
  /\ get_lemmas tagger text = get_lemmas tagger (normalize text)
  /\ get_lemmas_with_surface tagger text
     = get_lemmas_with_surface tagger (normalize text).
Proof.
  unfold tokenize, get_lemmas, get_lemmas_with_surface.
  assert (Hid : normalize (normalize text) = normalize text).
  { change normalize
      with (Jaconv.normalize_with Jaconv.Z2H_AD Jaconv.H2Z_K Jaconv.DAKUTEN).
    apply normalize_with_idempotent; vm_compute; reflexivity. }
  rewrite Hid. done.
Qed.

End TokenizerFacts.

(** C4. For every analyser and every text, the word set of
    [get_lemmas_with_surface] contains the union of the lemma set of
    [get_lemmas] and the surface tokens of [tokenize]. *)
Theorem lemmas_with_surface_superset
    (tagger : str -> option (list Tokenizer.Node)) (text : str) :
  Tokenizer.get_lemmas tagger text ∪ list_to_set (Tokenizer.tokenize tagger text)
    ⊆ Tokenizer.get_lemmas_with_surface tagger text.
Proof.
  apply union_subseteq. split.
  - apply lemmas_below_words.
  - intros t Ht. apply elem_of_list_to_set in Ht.
    by apply tokens_below_words.
Qed.

(** C7. [analyze_word] hands its argument to the analyser as it is: on
    the full-width letter [Ａ] it reports the surface [Ａ], on the normal
    form [A] of that text it reports the surface [A]. *)
Theorem analyze_word_skips_normalize :
  Tokenizer.normalize [0xFF21]%N = [0x41]%N
  /\ option_map Tokenizer.info_surface
       (Tokenizer.analyze_word Sample.tagger [0xFF21]%N) = Some [0xFF21]%N
  /\ option_map Tokenizer.info_surface
       (Tokenizer.analyze_word Sample.tagger (Tokenizer.normalize [0xFF21]%N))
     = Some [0x41]%N
  /\ Tokenizer.analyze_word Sample.tagger [0xFF21]%N
     <> Tokenizer.analyze_word Sample.tagger (Tokenizer.normalize [0xFF21]%N).
Proof.
  repeat split; try (vm_compute; reflexivity).
  vm_compute. discriminate.
Qed.

(** ** The corpus reader *)

Lemma contains_elem_of c (s : str) : contains c s = true <-> c ∈ s.
Proof.
  unfold contains. rewrite existsb_exists. split.
  - intros [x [Hin Heq]]. apply N.eqb_eq in Heq. subst x.
    by apply list_elem_of_In.
  - intros Hin. exists c. split; [by apply list_elem_of_In | apply N.eqb_refl].
Qed.

Lemma read_rows_cons limit line_num entry rest sentences :
  Loader.read_rows limit line_num (entry :: rest) sentences =
  match Csv.next entry with
  | Raise e => Raise e
  | Ok row =>
      if Loader.limit_reached limit line_num then Ok sentences
      else if bool_decide (Loader.rejected row)
           then Loader.read_rows limit (line_num + 1) rest sentences
           else Loader.read_rows limit (line_num + 1) rest
                                 (sentences ++ [Loader.pair_of row])
  end.
Proof.
  cbn [Loader.read_rows].
  destruct (Csv.next entry) as [row|e]; [|reflexivity].
  destruct (Loader.limit_reached limit line_num); [reflexivity|].
  fold (Loader.en_field row). fold (Loader.ja_field row).
  destruct (Z.ltb_spec (len row) 3) as [Hlen|Hlen].
  { rewrite bool_decide_eq_true_2; [reflexivity | by left]. }
  destruct (Loader.ja_field row) as [|j ja] eqn:Eja.
  { rewrite bool_decide_eq_true_2; [reflexivity|].
    unfold Loader.rejected. rewrite Eja. auto. }
  destruct (Loader.en_field row) as [|e en] eqn:Een.
  { rewrite bool_decide_eq_true_2; [reflexivity|].
    unfold Loader.rejected. rewrite Een. auto. }
  cbn [Tokenizer.truthy negb orb].
  destruct (contains Loader.NEWLINE (j :: ja)) eqn:E1.
  { apply contains_elem_of in E1.
    rewrite bool_decide_eq_true_2; [reflexivity|].
    unfold Loader.rejected. rewrite Eja. auto. }
  destruct (contains Loader.TAB (j :: ja)) eqn:E2.
  { apply contains_elem_of in E2.
    rewrite bool_decide_eq_true_2; [reflexivity|].
    unfold Loader.rejected. rewrite Eja. auto 6. }
  destruct (contains Loader.NEWLINE (e :: en)) eqn:E3.
  { apply contains_elem_of in E3.
    rewrite bool_decide_eq_true_2; [reflexivity|].
    unfold Loader.rejected. rewrite Een. auto 7. }
  destruct (contains Loader.TAB (e :: en)) eqn:E4.
  { apply contains_elem_of in E4.
    rewrite bool_decide_eq_true_2; [reflexivity|].
    unfold Loader.rejected. rewrite Een. auto 8. }
  cbn [orb].
  destruct (Z.ltb_spec 300 (len (j :: ja))) as [H5|H5].
  { rewrite bool_decide_eq_true_2; [reflexivity|].
    unfold Loader.rejected. rewrite Eja. auto 9. }
  destruct (Z.ltb_spec 300 (len (e :: en))) as [H6|H6].
  { rewrite bool_decide_eq_true_2; [reflexivity|].
    unfold Loader.rejected. rewrite Een. auto 10. }
  cbn [orb].
  rewrite bool_decide_eq_false_2.
  - unfold Loader.pair_of. rewrite Eja, Een. reflexivity.
  - unfold Loader.rejected. rewrite Eja, Een.
    assert (N1 : contains Loader.NEWLINE (j :: ja) <> true) by congruence.
    assert (N2 : contains Loader.TAB (j :: ja) <> true) by congruence.
    assert (N3 : contains Loader.NEWLINE (e :: en) <> true) by congruence.
    assert (N4 : contains Loader.TAB (e :: en) <> true) by congruence.
    rewrite contains_elem_of in N1, N2, N3, N4.
    intros [?|[?|[?|[?|[?|[?|[?|[?|?]]]]]]]];
      try done; try lia.
Qed.

Lemma accepted_cons row rows :
  Loader.accepted (row :: rows)
  = if bool_decide (Loader.rejected row) then Loader.accepted rows
    else Loader.pair_of row :: Loader.accepted rows.
Proof.
  unfold Loader.accepted. rewrite filter_cons. case_bool_decide.
  - by rewrite decide_False by tauto.
  - by rewrite decide_True by tauto.
Qed.

(** The loop without a limit: every entry is asked for and tested. *)
Lemma read_rows_unlimited limit entries : forall line_num sentences,
  (forall k, Loader.limit_reached limit k = false) ->
  Loader.read_rows limit line_num entries sentences =
  match Csv.read_all entries with
  | Ok rows => Ok (sentences ++ Loader.accepted rows)
  | Raise e => Raise e
  end.
Proof.
  induction entries as [|entry rest IH]; intros line_num sentences Hlimit.
  - cbn. by rewrite app_nil_r.
  - rewrite read_rows_cons. cbn [Csv.read_all].
    destruct (Csv.next entry) as [row|e]; [|reflexivity].
    rewrite Hlimit.
    case_bool_decide as Hrej; rewrite IH by done;
      destruct (Csv.read_all rest) as [rows|e]; try reflexivity;
      rewrite accepted_cons;
      [ by rewrite bool_decide_eq_true_2 by done
      | rewrite bool_decide_eq_false_2 by done; by rewrite <- app_assoc ].
Qed.

(** The loop under a limit [n] that is not 0, standing at [line_num]:
    it asks for one entry more than it tests. *)
Lemma read_rows_limited n entries : forall line_num sentences,
  n <> 0 ->
  Loader.read_rows (Some n) line_num entries sentences =
  match Csv.read_all (take (S (Z.to_nat (n - line_num + 1))) entries) with
  | Ok rows =>
      Ok (sentences ++ Loader.accepted (take (Z.to_nat (n - line_num + 1)) rows))
  | Raise e => Raise e
  end.
Proof.
  induction entries as [|entry rest IH]; intros line_num sentences Hn.
  - cbn. by rewrite take_nil, app_nil_r.
  - rewrite read_rows_cons. cbn [take Csv.read_all Loader.limit_reached].
    destruct (Csv.next entry) as [row|e]; [|reflexivity].
    destruct (Z.eqb_spec n 0) as [|_]; [done|]. cbn [negb andb].
    destruct (Z.ltb_spec n line_num) as [Hlt|Hge].
    + replace (Z.to_nat (n - line_num + 1)) with 0%nat by lia.
      rewrite take_0. cbn [Csv.read_all take]. by rewrite app_nil_r.
    + replace (Z.to_nat (n - line_num + 1))
        with (S (Z.to_nat (n - (line_num + 1) + 1))) by lia.
      case_bool_decide as Hrej; rewrite IH by done;
        destruct (Csv.read_all (take _ rest)) as [rows|e]; try reflexivity;
        cbn [take]; rewrite accepted_cons;
        [ by rewrite bool_decide_eq_true_2 by done
        | rewrite bool_decide_eq_false_2 by done; by rewrite <- app_assoc ].
Qed.

(** The reader in terms of the rows of the file. *)
Lemma read_jesc_file_spec (entries : list Csv.Entry) (limit : option Z) :
  Loader.read_jesc_file entries limit
  = match Csv.read_all (Loader.requested limit entries) with
    | Ok rows => Ok (Loader.accepted (Loader.consumed limit rows))
    | Raise e => Raise e
    end.
Proof.
  unfold Loader.read_jesc_file, Loader.requested, Loader.consumed.
  destruct limit as [n|].
  - destruct (Z.eqb_spec n 0) as [->|Hn].
    + rewrite read_rows_unlimited by done.
      by destruct (Csv.read_all entries).
    + rewrite read_rows_limited by done.
      replace (n - 1 + 1) with n by lia.
      by destruct (Csv.read_all _).
  - rewrite read_rows_unlimited by done.
    by destruct (Csv.read_all entries).
Qed.

(** The reader delivers a record exactly when none of its fields is
    longer than the field size limit. *)
Lemma next_fields (row : list str) :
  (Csv.next (Csv.Fields row) = Ok row
   /\ Forall (fun field => len field <= Csv.FIELD_SIZE_LIMIT) row)
  \/ (Csv.next (Csv.Fields row) = Raise CsvError
      /\ Exists (fun field => Csv.FIELD_SIZE_LIMIT < len field) row).
Proof.
  unfold Csv.next.
  destruct (existsb _ row) eqn:E.
  - right. split; [done|]. apply existsb_exists in E as (field & Hin & Hlong).
    apply Exists_exists. exists field. split; [by apply list_elem_of_In | lia].
  - left. split; [done|]. apply Forall_forall. intros field Hin.
    destruct (Z.ltb_spec Csv.FIELD_SIZE_LIMIT (len field)) as [Hlong|]; [|done].
    assert (existsb (fun field => Csv.FIELD_SIZE_LIMIT <? len field) row = true)
      as Hex; [|congruence].
    apply existsb_exists. exists field.
    split; [by apply list_elem_of_In | by apply Z.ltb_lt].
Qed.

Lemma read_all_fields (rows : list (list str)) :
  Forall (Forall (fun field => len field <= Csv.FIELD_SIZE_LIMIT)) rows ->
  Csv.read_all (Csv.Fields <$> rows) = Ok rows.
Proof.
  induction 1 as [|row rows Hrow _ IH]; [done|].
  rewrite fmap_cons. cbn [Csv.read_all]. rewrite IH.
  destruct (next_fields row) as [[-> _]|[_ Hlong]]; [done|].
  exfalso. apply Exists_exists in Hlong as (field & Hin & Hlong).
  rewrite Forall_forall in Hrow. specialize (Hrow field Hin). cbn in Hrow. lia.
Qed.

Lemma read_all_failure (before : list (list str)) (entry : Csv.Entry)
    (after : list Csv.Entry) (e : exn) :
  Forall (Forall (fun field => len field <= Csv.FIELD_SIZE_LIMIT)) before ->
  Csv.next entry = Raise e ->
  Csv.read_all ((Csv.Fields <$> before) ++ entry :: after) = Raise e.
Proof.
  intros Hshort Hfail. induction Hshort as [|row before Hrow _ IH].
  - cbn. by rewrite Hfail.
  - rewrite fmap_cons. cbn [app Csv.read_all]. rewrite IH.
    destruct (next_fields row) as [[-> _]|[_ Hlong]]; [done|].
    exfalso. apply Exists_exists in Hlong as (field & Hin & Hlong).
    rewrite Forall_forall in Hrow. specialize (Hrow field Hin).
    cbn in Hrow. lia.
Qed.



(** The tests are made on the trimmed texts: a field that only ends in
    a newline, or that is longer than 300 characters only by the white
    space around it, is accepted. *)
Example read_jesc_file_trims_first :
  Loader.read_jesc_file
    [Csv.Fields [[0x31]; [0x49; 0x0A]; [0x20; 0x732B; 0x09]]%N] None
  = Ok [([0x732B]%N, [0x49]%N)].
Proof. vm_compute. reflexivity. Qed.

(** ** The index builder and the rebuild script *)

Section IndexFacts.

Variable tagger : str -> option (list Tokenizer.Node).

Lemma append_pairs (idx : Z) (l : list str) (acc : list (str * Z)) :
  fold_left (fun acc word => acc ++ [(word, idx)]) l acc
  = acc ++ ((fun word => (word, idx)) <$> l).
Proof.
  revert acc. induction l as [|w l IH]; intros acc; cbn.
  - by rewrite app_nil_r.
  - rewrite IH. by rewrite <- app_assoc.
Qed.

Lemma build_loop_spec set_iter sentences : forall idx word_index,
  Loader.build_loop tagger set_iter idx sentences word_index
  = word_index
    ++ (Rebuild.persisted_rows idx sentences
          ≫= Loader.contribution tagger set_iter).
Proof.
  induction sentences as [|[ja en] rest IH]; intros idx acc; cbn.
  - by rewrite app_nil_r.
  - rewrite IH, append_pairs. by rewrite <- app_assoc.
Qed.

Lemma rebuild_loop_spec set_iter results : forall word_index,
  Rebuild.rebuild_loop tagger set_iter results word_index
  = word_index ++ (results ≫= Loader.contribution tagger set_iter).
Proof.
  induction results as [|[sid ja] rest IH]; intros acc; cbn.
  - by rewrite app_nil_r.
  - rewrite IH, append_pairs. by rewrite <- app_assoc.
Qed.

Lemma build_word_index_spec set_iter sentences start_id :
  Loader.build_word_index tagger set_iter sentences start_id
  = Rebuild.persisted_rows start_id sentences
      ≫= Loader.contribution tagger set_iter.
Proof. unfold Loader.build_word_index. by rewrite build_loop_spec. Qed.

Lemma rebuild_word_index_spec set_iter results :
  Rebuild.rebuild_word_index tagger set_iter results
  = results ≫= Loader.contribution tagger set_iter.
Proof. unfold Rebuild.rebuild_word_index. by rewrite rebuild_loop_spec. Qed.

(** The stored rows carry the ids [start_id], [start_id + 1], ... in
    input order. *)
Lemma persisted_rows_elem sentences : forall start_id sid ja,
  (sid, ja) ∈ Rebuild.persisted_rows start_id sentences
  <-> exists (i : nat) en,
        sentences !! i = Some (ja, en) /\ sid = start_id + Z.of_nat i.
Proof.
  induction sentences as [|[ja' en'] rest IH]; intros start_id sid ja; cbn.
  - split; [by intros ?%elem_of_nil | by intros (i & en & ? & _)].
  - rewrite elem_of_cons, IH. split.
    + intros [[= -> ->]|(i & en & Hi & ->)].
      * exists 0%nat, en'. split; [done | lia].
      * exists (S i), en. split; [done | lia].
    + intros ([|i] & en & Hi & ->).
      * left. cbn in Hi. injection Hi as -> ->. f_equal. lia.
      * right. exists i, en. split; [done | lia].
Qed.

Lemma persisted_rows_ids_from sentences : forall start_id,
  Forall (fun row => start_id <= row.1)
         (Rebuild.persisted_rows start_id sentences).
Proof.
  induction sentences as [|[ja en] rest IH]; intros start_id; cbn;
    constructor; [cbn; lia|].
  eapply Forall_impl; [apply IH|]. cbn. intros; lia.
Qed.

Lemma persisted_rows_NoDup sentences : forall start_id,
  NoDup (Rebuild.persisted_rows start_id sentences).*1.
Proof.
  induction sentences as [|[ja en] rest IH]; intros start_id; cbn;
    constructor; [|apply IH].
  intros Hin. apply list_elem_of_fmap in Hin as [[sid ja'] [Heq Hin]].
  pose proof (persisted_rows_ids_from rest (start_id + 1)) as Hall.
  rewrite Forall_forall in Hall. specialize (Hall _ Hin).
  cbn in Heq, Hall. lia.
Qed.

Lemma contribution_elem set_iter row w sid :
  Py.iterates_once set_iter ->
  (w, sid) ∈ Loader.contribution tagger set_iter row
  <-> sid = row.1 /\ w ∈ Tokenizer.get_lemmas_with_surface tagger row.2.
Proof.
  intros Hiter. unfold Loader.contribution.
  rewrite list_elem_of_fmap. split.
  - intros [w' [[= -> ->] Hin]]. split; [done|].
    rewrite (Hiter _) in Hin. by apply elem_of_elements in Hin.
  - intros [-> Hin]. exists w. split; [done|].
    rewrite (Hiter _). by apply elem_of_elements.
Qed.

Lemma contribution_NoDup set_iter row :
  Py.iterates_once set_iter ->
  NoDup (Loader.contribution tagger set_iter row).
Proof.
  intros Hiter. unfold Loader.contribution.
  apply NoDup_fmap_2.
  - intros w1 w2 [= ->]. done.
  - rewrite (Hiter _). apply NoDup_elements.
Qed.

Lemma index_elem set_iter sentences start_id w sid :
  Py.iterates_once set_iter ->
  (w, sid) ∈ Loader.build_word_index tagger set_iter sentences start_id
  <-> exists (i : nat) ja en,
        sentences !! i = Some (ja, en)
        /\ sid = start_id + Z.of_nat i
        /\ w ∈ Tokenizer.get_lemmas_with_surface tagger ja.
Proof.
  intros Hiter. rewrite build_word_index_spec, list_elem_of_bind. split.
  - intros ([sid' ja] & Hc & Hrow).
    apply contribution_elem in Hc as [-> Hw]; [|done].
    apply persisted_rows_elem in Hrow as (i & en & Hi & ->).
    by exists i, ja, en.
  - intros (i & ja & en & Hi & -> & Hw).
    exists (start_id + Z.of_nat i, ja). split.
    + by apply contribution_elem.
    + apply persisted_rows_elem. by exists i, en.
Qed.

Lemma index_ids_sorted set_iter sentences : forall start_id,
  StronglySorted Z.le
    (Loader.build_word_index tagger set_iter sentences start_id).*2
  /\ Forall (Z.le start_id)
       (Loader.build_word_index tagger set_iter sentences start_id).*2.
Proof.
  setoid_rewrite build_word_index_spec.
  induction sentences as [|[ja en] rest IH]; intros start_id; cbn.
  - split; constructor.
  - destruct (IH (start_id + 1)) as [IHs IHf]. rewrite fmap_app.
    unfold Loader.contribution at 1 3. cbn [fst snd].
    rewrite <- !list_fmap_compose.
    generalize (set_iter (Tokenizer.get_lemmas_with_surface tagger ja)).
    intros l. induction l as [|w l [IHl1 IHl2]]; cbn.
    + split; [exact IHs|]. eapply Forall_impl; [exact IHf|]. cbn. lia.
    + split; [|constructor; [lia | exact IHl2]].
      constructor; [exact IHl1 | exact IHl2].
Qed.

End IndexFacts.

Lemma sample_iterates_once : Py.iterates_once Sample.set_iter.
Proof. intros s. reflexivity. Qed.

Lemma NoDup_fst_agree {A B} (l : list (A * B)) x y1 y2 :
  NoDup l.*1 -> (x, y1) ∈ l -> (x, y2) ∈ l -> y1 = y2.
Proof.
  induction l as [|[a b] l IH]; cbn; intros Hnd H1 H2.
  - by apply elem_of_nil in H1.
  - apply NoDup_cons in Hnd as [Hnotin Hnd].
    apply elem_of_cons in H1 as [H1|H1]; apply elem_of_cons in H2 as [H2|H2].
    + congruence.
    + injection H1 as -> ->. exfalso. apply Hnotin.
      apply list_elem_of_fmap. by exists (a, y2).
    + injection H2 as -> ->. exfalso. apply Hnotin.
      apply list_elem_of_fmap. by exists (a, y1).
    + by apply IH.
Qed.

Lemma bind_Permutation_pointwise {A B} (f g : A -> list B) (l : list A) :
  (forall x, f x ≡ₚ g x) -> l ≫= f ≡ₚ l ≫= g.
Proof.
  intros Hfg. induction l as [|x l IH]; [done|].
  rewrite !bind_cons. by rewrite (Hfg x), IH.
Qed.

(** C5 (amended). Under a set iteration that visits every word once, the
    index holds the pair (w, K + i) exactly when w is in the word set of
    the i-th sentence (counting from 0).  So every emitted id lies in
    [K, K + N - 1], the i-th sentence is the one that gets K + i, the
    ids are exactly K .. K + N - 1 when every sentence has a word, and
    the ids appear in non-decreasing order in the emission. *)
Theorem build_word_index_ids
    (tagger : str -> option (list Tokenizer.Node))
    (set_iter : gset str -> list str)
    (sentences : list (str * str)) (start_id : Z) :
  Py.iterates_once set_iter ->
  let index := Loader.build_word_index tagger set_iter sentences start_id in
  (forall w sid,
     (w, sid) ∈ index
     <-> exists (i : nat) ja en,
           sentences !! i = Some (ja, en)
           /\ sid = start_id + Z.of_nat i
           /\ w ∈ Tokenizer.get_lemmas_with_surface tagger ja)
  /\ (forall sid, sid ∈ index.*2 -> start_id <= sid < start_id + len sentences)
  /\ ((forall ja en, (ja, en) ∈ sentences ->
         Tokenizer.get_lemmas_with_surface tagger ja <> ∅) ->
      forall sid,
        sid ∈ index.*2 <-> start_id <= sid < start_id + len sentences)
  /\ StronglySorted Z.le index.*2.
Proof.
  intros Hiter index.
  assert (Helem : forall w sid,
     (w, sid) ∈ index
     <-> exists (i : nat) ja en,
           sentences !! i = Some (ja, en)
           /\ sid = start_id + Z.of_nat i
           /\ w ∈ Tokenizer.get_lemmas_with_surface tagger ja).
  { intros w sid. by apply index_elem. }
  assert (Hrange : forall sid,
     sid ∈ index.*2 -> start_id <= sid < start_id + len sentences).
  { intros sid Hin. apply list_elem_of_fmap in Hin as [[w sid'] [-> Hin]].
    apply Helem in Hin as (i & ja & en & Hi & -> & _).
    apply lookup_lt_Some in Hi. unfold len. cbn. lia. }
  split; [exact Helem|]. split; [exact Hrange|]. split.
  - intros Hwords sid. split; [apply Hrange|].
    intros Hsid. unfold len in Hsid.
    destruct (lookup_lt_is_Some_2 sentences (Z.to_nat (sid - start_id)))
      as [[ja en] Hi]; [lia|].
    assert (Hne : Tokenizer.get_lemmas_with_surface tagger ja <> ∅).
    { apply (Hwords ja en). by eapply list_elem_of_lookup_2. }
    apply set_choose_L in Hne as [w Hw].
    apply list_elem_of_fmap. exists (w, sid). split; [done|].
    apply Helem. exists (Z.to_nat (sid - start_id)), ja, en.
    split; [done|]. split; [lia | done].
  - apply index_ids_sorted.
Qed.

Lemma build_word_index_ids_witness :
  Py.iterates_once Sample.set_iter
  /\ StronglySorted Z.le
       (Loader.build_word_index Sample.tagger Sample.set_iter
          [(Sample.TABETA, [0x49]%N); (Sample.NEKO, [0x49]%N)] 5).*2.
Proof.
  split; [exact sample_iterates_once|].
  exact (proj2 (proj2 (proj2
    (build_word_index_ids Sample.tagger Sample.set_iter
       [(Sample.TABETA, [0x49]%N); (Sample.NEKO, [0x49]%N)] 5
       sample_iterates_once)))).
Defined.

(** C5 as stated fails: a sentence whose word set is empty takes an id
    and emits no pair.  With start id 5, the sentences 猫 and the empty
    text give the ids {5}, not {5, 6}. *)
Lemma build_word_index_ids_counterexample :
  (Loader.build_word_index Sample.tagger Sample.set_iter
     [(Sample.NEKO, [0x49]%N); ([], [0x49]%N)] 5).*2 = [5]
  /\ ¬ (forall sid,
          sid ∈ (Loader.build_word_index Sample.tagger Sample.set_iter
                   [(Sample.NEKO, [0x49]%N); ([], [0x49]%N)] 5).*2
          <-> 5 <= sid < 5 + len [(Sample.NEKO, [0x49]%N); ([], [0x49]%N)]).
Proof.
  assert (E : (Loader.build_word_index Sample.tagger Sample.set_iter
     [(Sample.NEKO, [0x49]%N); ([], [0x49]%N)] 5).*2 = [5]).
  { vm_compute. reflexivity. }
  split; [exact E|]. rewrite E. intros H.
  assert (H6 : 6 ∈ [5]) by (apply H; unfold len; cbn; lia).
  apply list_elem_of_singleton in H6. discriminate.
Qed.

(** C6. Under a set iteration that visits every word once, the index
    has no pair twice: each sentence contributes one pair for each word
    of its word set, and no more, also for a word that is both a surface
    form and a lemma of that sentence. *)
Theorem build_word_index_dedup
    (tagger : str -> option (list Tokenizer.Node))
    (set_iter : gset str -> list str)
    (sentences : list (str * str)) (start_id : Z) :
  Py.iterates_once set_iter ->
  NoDup (Loader.build_word_index tagger set_iter sentences start_id)
  /\ (forall row, NoDup (Loader.contribution tagger set_iter row))
  /\ (forall (i : nat) ja en w,
        sentences !! i = Some (ja, en) ->
        w ∈ Tokenizer.get_lemmas_with_surface tagger ja ->
        (w, start_id + Z.of_nat i)
          ∈ Loader.build_word_index tagger set_iter sentences start_id).
Proof.
  intros Hiter. split; [|split].
  - rewrite build_word_index_spec. apply NoDup_bind.
    + intros [sid1 ja1] [sid2 ja2] [w sid] H1 H2 Hc1 Hc2.
      apply contribution_elem in Hc1 as [-> _]; [|done].
      apply contribution_elem in Hc2 as [Heq _]; [|done].
      cbn in Heq. subst sid2.
      pose proof (persisted_rows_NoDup sentences start_id) as Hnd.
      by rewrite (NoDup_fst_agree _ _ _ _ Hnd H1 H2).
    + intros row _. by apply contribution_NoDup.
    + eapply NoDup_fmap_1. apply persisted_rows_NoDup.
  - intros row. by apply contribution_NoDup.
  - intros i ja en w Hi Hw. apply index_elem; [done|]. by exists i, ja, en.
Qed.

Lemma build_word_index_dedup_witness :
  Py.iterates_once Sample.set_iter
  /\ Sample.tagger Sample.TABERU
     = Some [Sample.entry Sample.TABERU Sample.TABERU]
  /\ Loader.build_word_index Sample.tagger Sample.set_iter
       [(Sample.TABERU, [0x49]%N)] 1 = [(Sample.TABERU, 1)]
  /\ NoDup (Loader.build_word_index Sample.tagger Sample.set_iter
              [(Sample.TABERU, [0x49]%N)] 1).
Proof.
  split; [exact sample_iterates_once|].
  split; [vm_compute; reflexivity|].
  split; [vm_compute; reflexivity|].
  exact (proj1 (build_word_index_dedup Sample.tagger Sample.set_iter
                  [(Sample.TABERU, [0x49]%N)] 1 sample_iterates_once)).
Defined.

(** C9. When the rows fetched from the Sentence table carry the
    sequential ids of the build and the same Japanese texts, in whatever
    order the backend returns them, then the rebuild yields the same
    pairs as the build, whatever the two set iteration orders are: the
    two lists are rearrangements of each other, and equal as sets. *)
Theorem rebuild_matches_build
    (tagger : str -> option (list Tokenizer.Node))
    (iter_build iter_rebuild : gset str -> list str)
    (sentences : list (str * str)) (start_id : Z)
    (results : list (Z * str)) :
  Py.iterates_once iter_build ->
  Py.iterates_once iter_rebuild ->
  results ≡ₚ Rebuild.persisted_rows start_id sentences ->
  Rebuild.rebuild_word_index tagger iter_rebuild results
    ≡ₚ Loader.build_word_index tagger iter_build sentences start_id
  /\ list_to_set (Rebuild.rebuild_word_index tagger iter_rebuild results)
     =@{gset (str * Z)}
     list_to_set (Loader.build_word_index tagger iter_build sentences start_id).
Proof.
  intros Hb Hr Hrows.
  assert (Hperm : Rebuild.rebuild_word_index tagger iter_rebuild results
    ≡ₚ Loader.build_word_index tagger iter_build sentences start_id).
  { rewrite rebuild_word_index_spec, build_word_index_spec, Hrows.
    apply bind_Permutation_pointwise. intros row.
    unfold Loader.contribution. by rewrite (Hr _), (Hb _). }
  split; [exact Hperm|]. by apply list_to_set_perm_L.
Qed.

Lemma rebuild_matches_build_witness :
  Py.iterates_once Sample.set_iter
  /\ [(6, Sample.NEKO); (5, Sample.TABETA)]
     ≡ₚ Rebuild.persisted_rows 5
          [(Sample.TABETA, [0x49]%N); (Sample.NEKO, [0x49]%N)]
  /\ list_to_set (Rebuild.rebuild_word_index Sample.tagger Sample.set_iter
                    [(6, Sample.NEKO); (5, Sample.TABETA)])
     =@{gset (str * Z)}
     list_to_set (Loader.build_word_index Sample.tagger Sample.set_iter
                    [(Sample.TABETA, [0x49]%N); (Sample.NEKO, [0x49]%N)] 5).
Proof.
  split; [exact sample_iterates_once|].
  split; [apply perm_swap|].
  exact (proj2 (rebuild_matches_build Sample.tagger Sample.set_iter
                  Sample.set_iter
                  [(Sample.TABETA, [0x49]%N); (Sample.NEKO, [0x49]%N)] 5
                  [(6, Sample.NEKO); (5, Sample.TABETA)]
                  sample_iterates_once sample_iterates_once
                  (perm_swap _ _ _))).
Defined.

(** ** The query methods and the search command *)

Section QueryFacts.

Import Database.
Context {W : Type}.
Variable B : Backend W.

Lemma rows_comprehension (results : list (str * str)) :
  map (fun '(jp, en) => (jp, en)) results = results.
Proof.
  induction results as [|[jp en] results IH]; cbn; [done|]. by rewrite IH.
Qed.

(** A search method runs its statement once; it returns the rows when
    the backend answers and raises [AttributeError], from the handler,
    when the backend fails. *)
Lemma search_by_word_run word limit w :
  search_by_word B word limit w
  = (match (exec_rows B (SelectByWord word limit) (conn w)).1 with
     | Some rows => Ok rows
     | None => Raise AttributeError
     end,
     {| conn := (exec_rows B (SelectByWord word limit) (conn w)).2;
        trace := trace w ++ [Executed (SelectByWord word limit)] |}).
Proof.
  unfold search_by_word, try_except, execute_all, logger_erorr.
  unfold mbind, M_bind, bind, ret, raise.
  destruct (exec_rows B (SelectByWord word limit) (conn w)) as [[rows|] c'];
    cbn; [by rewrite rows_comprehension | done].
Qed.

Lemma search_by_partial_word_run word limit w :
  search_by_partial_word B word limit w
  = (match (exec_rows B (SelectByWordLike (word ++ [0x25]%N) limit)
              (conn w)).1 with
     | Some rows => Ok rows
     | None => Raise AttributeError
     end,
     {| conn := (exec_rows B (SelectByWordLike (word ++ [0x25]%N) limit)
                   (conn w)).2;
        trace := trace w
                 ++ [Executed (SelectByWordLike (word ++ [0x25]%N) limit)] |}).
Proof.
  unfold search_by_partial_word, try_except, execute_all, logger_erorr.
  unfold mbind, M_bind, bind, ret, raise.
  destruct (exec_rows B (SelectByWordLike (word ++ [0x25]%N) limit) (conn w))
    as [[rows|] c']; cbn; [by rewrite rows_comprehension | done].
Qed.

(** The two methods whose handlers call [logger.error] absorb every
    backend failure. *)
Lemma random_and_count_absorb_failures w :
  (exists pair, (get_random_sentence B w).1 = Ok pair)
  /\ ((exec_rows B SelectRandom (conn w)).1 = None ->
      (get_random_sentence B w).1 = Ok (None, None))
  /\ ((exec_rows B SelectRandom (conn w)).1 = Some [] ->
      (get_random_sentence B w).1 = Ok (None, None))
  /\ (exists count, (get_sentence_count B w).1 = Ok count)
  /\ ((exec_scalar B SelectCount (conn w)).1 = None ->
      (get_sentence_count B w).1 = Ok 0).
Proof.
  unfold get_random_sentence, get_sentence_count, try_except,
    execute_all, execute_scalar, logger_error.
  unfold mbind, M_bind, bind, ret, raise.
  destruct (exec_rows B SelectRandom (conn w)) as [[[|[jp en] rows]|] c'];
    destruct (exec_scalar B SelectCount (conn w)) as [[count|] c''];
    cbn; repeat split; eauto; discriminate.
Qed.

Variable tagger : str -> option (list Tokenizer.Node).
Variable set_iter : gset str -> list str.

(** The command, tier by tier. *)
Lemma sentence_command_unfold word limit w :
  Bot.sentence_command B tagger set_iter word limit w =
  let n := Tokenizer.normalize_text word in
  let l := Z.max 1 (Z.min limit 10) in
  let tier1 := search_by_word B n l w in
  match tier1.1 with
  | Ok [] =>
      let tier2 := search_by_partial_word B n l tier1.2 in
      match tier2.1 with
      | Ok [] =>
          let w3 := {| conn := conn tier2.2;
                       trace := trace tier2.2 ++ [Lemmatized n] |} in
          if bool_decide (Tokenizer.get_lemmas tagger n = ∅) then (Ok [], w3)
          else match set_iter (Tokenizer.get_lemmas tagger n) with
               | lemma :: _ => search_by_word B lemma l w3
               | [] => (Raise IndexError, w3)
               end
      | _ => tier2
      end
  | _ => tier1
  end.
Proof.
  cbn zeta. unfold Bot.sentence_command, Bot.call_get_lemmas, record,
    logger_info.
  unfold mbind, M_bind, mret, M_ret, bind, ret, raise.
  destruct (search_by_word B (Tokenizer.normalize_text word)
              (Z.max 1 (Z.min limit 10)) w) as [[[|r1 rs1]|e1] w1];
    cbn [fst snd]; [|done|done].
  destruct (search_by_partial_word B (Tokenizer.normalize_text word)
              (Z.max 1 (Z.min limit 10)) w1) as [[[|r2 rs2]|e2] w2];
    cbn [fst snd]; [|done|done].
  cbn [conn trace].
  case_bool_decide; [done|].
  destruct (set_iter _) as [|lemma rest]; [done|].
  by destruct (search_by_word B lemma _ _) as [[rs3|e3] w3].
Qed.

End QueryFacts.

(** The search command resolves a query in three sequential tiers.
    It first runs the exact lookup on the normalized word.  When that
    returns anything but the empty list, the command ends with that
    outcome and has executed that one statement.  Only when it returns
    the empty list, the prefix lookup runs; when that returns anything
    but the empty list, the command ends with it, having executed these
    two statements.  Only when the prefix lookup returns the empty list
    too, the normalized word is handed to the lemma extractor; with an
    empty lemma set the command ends with the empty list, and otherwise
    one lemma of the set, the first in iteration order, is looked up
    exactly and the command ends with the outcome of that lookup, having
    made these four calls in this order. *)
Theorem sentence_command_tiers {W : Type} (B : Database.Backend W)
    (tagger : str -> option (list Tokenizer.Node))
    (set_iter : gset str -> list str)
    (word : str) (limit : Z) (c : W) :
  Py.iterates_once set_iter ->
  let n := Tokenizer.normalize_text word in
  let l := Z.max 1 (Z.min limit 10) in
  let w0 := {| Database.conn := c; Database.trace := [] |} in
  let exact := Database.Executed (Database.SelectByWord n l) in
  let prefix :=
    Database.Executed (Database.SelectByWordLike (n ++ [0x25]%N) l) in
  let tier1 := Database.search_by_word B n l w0 in
  let tier2 := Database.search_by_partial_word B n l tier1.2 in
  let lemmas := Tokenizer.get_lemmas tagger n in
  let w3 := {| Database.conn := Database.conn tier2.2;
               Database.trace := Database.trace tier2.2
                                 ++ [Database.Lemmatized n] |} in
  let run := Bot.sentence_command B tagger set_iter word limit w0 in
  Database.trace tier1.2 = [exact]
  /\ Database.trace tier2.2 = [exact; prefix]
  /\ match tier1.1 with
     | Ok [] =>
         match tier2.1 with
         | Ok [] =>
             (lemmas = ∅ /\ run = (Ok [], w3)
              /\ Database.trace run.2 = [exact; prefix; Database.Lemmatized n])
             \/ (exists lemma,
                   lemma ∈ lemmas
                   /\ head (set_iter lemmas) = Some lemma
                   /\ run = Database.search_by_word B lemma l w3
                   /\ Database.trace run.2
                      = [exact; prefix; Database.Lemmatized n;
                         Database.Executed (Database.SelectByWord lemma l)])
         | _ => run = tier2
         end
     | _ => run = tier1
     end.
Proof.
  intros Hiter n l w0 exact prefix tier1 tier2 lemmas w3 run.
  assert (H1 : Database.trace tier1.2 = [exact]).
  { unfold tier1. by rewrite search_by_word_run. }
  assert (H2 : Database.trace tier2.2 = [exact; prefix]).
  { unfold tier2. rewrite search_by_partial_word_run. cbn [snd Database.trace].
    by rewrite H1. }
  split; [exact H1|]. split; [exact H2|].
  assert (Hrun := sentence_command_unfold B tagger set_iter word limit w0).
  cbn zeta in Hrun. fold n l tier1 tier2 lemmas w3 run in Hrun.
  destruct (tier1.1) as [[|r1 rs1]|e1]; [|exact Hrun|exact Hrun].
  destruct (tier2.1) as [[|r2 rs2]|e2]; [|exact Hrun|exact Hrun].
  case_bool_decide as Hempty.
  - left. split; [done|]. split; [done|]. rewrite Hrun. cbn. by rewrite H2.
  - right. destruct (set_iter lemmas) as [|lemma rest] eqn:Eiter.
    + exfalso. apply Hempty. apply leibniz_equiv, elements_empty_inv.
      pose proof (Hiter lemmas) as Hp. rewrite Eiter in Hp.
      by apply Permutation_nil in Hp.
    + exists lemma. split; [|split; [done|split; [done|]]].
      * apply elem_of_elements. rewrite <- (Hiter lemmas), Eiter. by left.
      * rewrite Hrun, search_by_word_run. cbn. by rewrite H2.
Qed.

Lemma sentence_command_tiers_witness :
  Py.iterates_once Sample.set_iter
  /\ Database.trace
       (Database.search_by_word Sample.backend
          (Tokenizer.normalize_text Sample.TABETA) (Z.max 1 (Z.min 50 10))
          (Sample.start Sample.store)).2
     = [Database.Executed
          (Database.SelectByWord (Tokenizer.normalize_text Sample.TABETA)
             (Z.max 1 (Z.min 50 10)))].
Proof.
  split; [exact sample_iterates_once|].
  exact (proj1 (sentence_command_tiers Sample.backend Sample.tagger
                  Sample.set_iter Sample.TABETA 50 Sample.store
                  sample_iterates_once)).
Defined.

(** The three example queries of the design: the dictionary form is
    found by the exact tier, a stem by the prefix tier, an inflected
    form by the lemma tier. *)
Example tiers_on_samples :
  Database.trace
    (Bot.sentence_command Sample.backend Sample.tagger Sample.set_iter
       Sample.TABERU 5 (Sample.start Sample.store)).2
  = [Database.Executed (Database.SelectByWord Sample.TABERU 5)]
  /\ Database.trace
       (Bot.sentence_command Sample.backend Sample.tagger Sample.set_iter
          Sample.TABE 5 (Sample.start Sample.store)).2
     = [Database.Executed (Database.SelectByWord Sample.TABE 5);
        Database.Executed
          (Database.SelectByWordLike (Sample.TABE ++ [0x25]%N) 5)]
  /\ Database.trace
       (Bot.sentence_command Sample.backend Sample.tagger Sample.set_iter
          Sample.TABETA 5 (Sample.start Sample.store)).2
     = [Database.Executed (Database.SelectByWord Sample.TABETA 5);
        Database.Executed
          (Database.SelectByWordLike (Sample.TABETA ++ [0x25]%N) 5);
        Database.Lemmatized Sample.TABETA;
        Database.Executed (Database.SelectByWord Sample.TABERU 5)].
Proof. repeat split; vm_compute; reflexivity. Qed.

(** The arrangement of a backend does not show on rows that are all
    the same. *)
Lemma rearranged_nil (arrange : Sample.Arrangement) stmt st :
  Sample.rearranges arrange -> arrange stmt st [] = [].
Proof. intros H. apply Permutation_nil. symmetry. apply H. Qed.

Lemma rearranged_replicate (arrange : Sample.Arrangement) stmt st n row :
  Sample.rearranges arrange ->
  arrange stmt st (replicate n row) = replicate n row.
Proof. intros H. symmetry. apply replicate_Permutation. symmetry. apply H. Qed.

(** C1. The second tier is not a prefix lookup for every query.  The
    tiers run in sequence, but the second one hands the query to LIKE
    as it is, followed by a percent sign, so that an underscore in the
    query stands for any character.  On the store that holds one
    sentence, indexed under 食べる and 猫, the query "_" (which is its own
    normal form, and the normal form of the full-width "＿") finds
    nothing in the exact tier and is answered by the second tier with
    that sentence, once for each of its two index words, although no
    index word starts with an underscore.  This is so whatever the
    order in which the backend hands out rows. *)
Theorem partial_lookup_takes_wildcards (arrange : Sample.Arrangement) :
  Sample.rearranges arrange ->
  let query := [0x5F]%N in
  let sentence := (Sample.NEKO ++ [0x3092]%N ++ Sample.TABETA, [0x49]%N) in
  let run := Bot.sentence_command (Sample.backend_in arrange) Sample.tagger
               Sample.set_iter query 5 (Sample.start Sample.store) in
  Tokenizer.normalize_text query = query
  /\ Tokenizer.normalize_text [0xFF3F]%N = query
  /\ (forall entry, entry ∈ Sample.word_index Sample.store ->
                    ¬ query `prefix_of` entry.1)
  /\ run.1 = Ok [sentence; sentence]
  /\ Database.trace run.2
     = [Database.Executed (Database.SelectByWord query 5);
        Database.Executed (Database.SelectByWordLike (query ++ [0x25]%N) 5)].
Proof.
  intros Harr query sentence run.
  assert (Hn : Tokenizer.normalize_text query = query)
    by (vm_compute; reflexivity).
  split; [exact Hn|]. split; [vm_compute; reflexivity|]. split.
  { intros entry Hin [k Hk]. cbn in Hin.
    repeat (apply elem_of_cons in Hin as [->|Hin]; [discriminate Hk|]).
    by apply elem_of_nil in Hin. }
  assert (E1 : Sample.join (fun x => bool_decide (x = query)) Sample.store = [])
    by (vm_compute; reflexivity).
  assert (E2 : Sample.join (Sample.like (query ++ [0x25]%N)) Sample.store
               = replicate 2 sentence) by (vm_compute; reflexivity).
  assert (T1 : forall t,
    Database.search_by_word (Sample.backend_in arrange) query 5
      {| Database.conn := Sample.store; Database.trace := t |}
    = (Ok [], {| Database.conn := Sample.store;
                 Database.trace :=
                   t ++ [Database.Executed (Database.SelectByWord query 5)] |})).
  { intros t. rewrite search_by_word_run.
    cbn [fst snd Database.conn Database.trace Database.exec_rows
         Sample.backend_in].
    unfold Sample.answer_rows. change (Sample.up Sample.store) with true.
    cbn [negb]. change (5 <? 0) with false. cbn [fst snd].
    by rewrite E1, rearranged_nil. }
  assert (T2 : forall t,
    Database.search_by_partial_word (Sample.backend_in arrange) query 5
      {| Database.conn := Sample.store; Database.trace := t |}
    = (Ok [sentence; sentence],
       {| Database.conn := Sample.store;
          Database.trace :=
            t ++ [Database.Executed
                    (Database.SelectByWordLike (query ++ [0x25]%N) 5)] |})).
  { intros t. rewrite search_by_partial_word_run.
    cbn [fst snd Database.conn Database.trace Database.exec_rows
         Sample.backend_in].
    unfold Sample.answer_rows. change (Sample.up Sample.store) with true.
    cbn [negb]. change (5 <? 0) with false. cbn [fst snd].
    by rewrite E2, rearranged_replicate. }
  unfold run. rewrite sentence_command_unfold. cbn zeta. rewrite Hn.
  change (Z.max 1 (Z.min 5 10)) with 5. unfold Sample.start.
  rewrite T1. cbn [fst snd]. rewrite T2. cbn [fst snd Database.trace app].
  split; reflexivity.
Qed.

Lemma backwards_rearranges : Sample.rearranges Sample.backwards.
Proof. intros stmt st rows. symmetry. apply Permutation_rev. Qed.

Lemma listed_rearranges : Sample.rearranges Sample.listed.
Proof. intros stmt st rows. reflexivity. Qed.

Lemma partial_lookup_takes_wildcards_witness :
  Sample.rearranges Sample.backwards
  /\ (Bot.sentence_command (Sample.backend_in Sample.backwards) Sample.tagger
        Sample.set_iter [0x5F]%N 5 (Sample.start Sample.store)).1
     = Ok [(Sample.NEKO ++ [0x3092]%N ++ Sample.TABETA, [0x49]%N);
           (Sample.NEKO ++ [0x3092]%N ++ Sample.TABETA, [0x49]%N)].
Proof.
  split; [exact backwards_rearranges|].
  exact (proj1 (proj2 (proj2 (proj2
    (partial_lookup_takes_wildcards Sample.backwards backwards_rearranges))))).
Defined.

(** C2. On a backend that fails, [search_by_word] and
    [search_by_partial_word] do not return the empty list: the handler
    itself raises, and [AttributeError] reaches the caller.  On the same
    backend [get_random_sentence] returns (None, None) and
    [get_sentence_count] returns 0. *)
Theorem search_raises_on_backend_failure :
  (Database.search_by_word Sample.backend Sample.NEKO 5
     (Sample.start Sample.store_down)).1 = Raise AttributeError
  /\ (Database.search_by_partial_word Sample.backend Sample.NEKO 5
        (Sample.start Sample.store_down)).1 = Raise AttributeError
  /\ (forall {W : Type} (B : Database.Backend W) word limit w,
        (Database.exec_rows B (Database.SelectByWord word limit)
           (Database.conn w)).1 = None <->
        (Database.search_by_word B word limit w).1 = Raise AttributeError)
  /\ (Database.get_random_sentence Sample.backend
        (Sample.start Sample.store_down)).1 = Ok (None, None)
  /\ (Database.get_sentence_count Sample.backend
        (Sample.start Sample.store_down)).1 = Ok 0.
Proof.
  split; [vm_compute; reflexivity|].
  split; [vm_compute; reflexivity|].
  split; [|split; vm_compute; reflexivity].
  intros W B word limit w. rewrite search_by_word_run. cbn [fst].
  destruct (Database.exec_rows B _ _).1; split; (done || discriminate).
Qed.

(** Case analysis on the membership of a call in an explicit trace. *)
Ltac trace_cases Hin :=
  cbn [app] in Hin;
  repeat (apply elem_of_cons in Hin as [Hin|Hin];
          [ first [ discriminate Hin | injection Hin as ->; reflexivity ] |]);
  apply elem_of_nil in Hin; contradiction.

(** C10. The search command clamps the limit into [1, 10] before it
    queries the store: a limit of 0 or less becomes 1, a limit above 10
    becomes 10, a limit in between is kept.  The command does query the
    store: its first statement is the exact lookup of the normalized
    word with the clamped limit, every statement it executes carries the
    clamped limit, and when the store answers the first statement with
    rows, these rows are what the command returns; so a limit of 0 or
    less asks for one row and returns the one row the store gives.  On a
    backend that honours [LIMIT] the list the command returns has at
    most as many entries as the clamped limit, so never more than 10. *)
Theorem sentence_command_limit {W : Type} (B : Database.Backend W)
    (tagger : str -> option (list Tokenizer.Node))
    (set_iter : gset str -> list str)
    (word : str) (limit : Z) (c : W) :
  Database.honours_limit B ->
  let l := Z.max 1 (Z.min limit 10) in
  let n := Tokenizer.normalize_text word in
  let run := Bot.sentence_command B tagger set_iter word limit
               {| Database.conn := c; Database.trace := [] |} in
  1 <= l <= 10
  /\ (limit <= 0 -> l = 1)
  /\ (10 < limit -> l = 10)
  /\ (1 <= limit <= 10 -> l = limit)
  /\ head (Database.trace run.2)
     = Some (Database.Executed (Database.SelectByWord n l))
  /\ (forall stmt,
        Database.Executed stmt ∈ Database.trace run.2 ->
        Database.stmt_limit stmt = Some l)
  /\ (forall row rows,
        (Database.exec_rows B (Database.SelectByWord n l) c).1
        = Some (row :: rows) ->
        run.1 = Ok (row :: rows))
  /\ (limit <= 0 ->
      forall row,
        (Database.exec_rows B (Database.SelectByWord n 1) c).1 = Some [row] ->
        run.1 = Ok [row])
  /\ (forall results, run.1 = Ok results -> len results <= l /\ len results <= 10).
Proof.
  intros Hlimit l n run.
  assert (Hl : 1 <= l <= 10) by (unfold l; lia).
  split; [exact Hl|]. split; [unfold l; lia|]. split; [unfold l; lia|].
  split; [unfold l; lia|].
  assert (Hw : forall word' w results,
            (Database.search_by_word B word' l w).1 = Ok results ->
            len results <= l).
  { intros word' w results. rewrite search_by_word_run. cbn [fst].
    destruct (Database.exec_rows B _ _) as [[rows|] c'] eqn:E; cbn;
      [|discriminate].
    intros [= <-]. eapply Hlimit; [exact E|done|lia]. }
  assert (Hp : forall word' w results,
            (Database.search_by_partial_word B word' l w).1 = Ok results ->
            len results <= l).
  { intros word' w results. rewrite search_by_partial_word_run. cbn [fst].
    destruct (Database.exec_rows B _ _) as [[rows|] c'] eqn:E; cbn;
      [|discriminate].
    intros [= <-]. eapply Hlimit; [exact E|done|lia]. }
  assert (Hrun := sentence_command_unfold B tagger set_iter word limit
                    {| Database.conn := c; Database.trace := [] |}).
  cbn zeta in Hrun. fold l n run in Hrun.
  clearbody n.
  set (tier1 := Database.search_by_word B n l _) in *.
  set (tier2 := Database.search_by_partial_word B n l _) in *.
  assert (H1 : Database.trace tier1.2
               = [Database.Executed (Database.SelectByWord n l)]).
  { unfold tier1. by rewrite search_by_word_run. }
  assert (H2 : Database.trace tier2.2
               = [Database.Executed (Database.SelectByWord n l);
                  Database.Executed
                    (Database.SelectByWordLike (n ++ [0x25]%N) l)]).
  { unfold tier2. rewrite search_by_partial_word_run.
    cbn [snd Database.trace]. by rewrite H1. }
  assert (Hfirst : forall row rows,
            (Database.exec_rows B (Database.SelectByWord n l) c).1
            = Some (row :: rows) ->
            tier1.1 = Ok (row :: rows)).
  { intros row rows E. unfold tier1. rewrite search_by_word_run.
    cbn [fst Database.conn]. by rewrite E. }
  assert (Hsize1 := Hw n _ : forall results, tier1.1 = Ok results -> _).
  assert (Hsize2 := Hp n _ : forall results, tier2.1 = Ok results -> _).
  assert (Hcases :
    head (Database.trace run.2)
    = Some (Database.Executed (Database.SelectByWord n l))
    /\ (forall stmt, Database.Executed stmt ∈ Database.trace run.2 ->
                     Database.stmt_limit stmt = Some l)
    /\ (forall row rows, tier1.1 = Ok (row :: rows) -> run.1 = Ok (row :: rows))
    /\ (forall results, run.1 = Ok results -> len results <= l)).
  { destruct (tier1.1) as [[|r1 rs1]|e1] eqn:E1.
    2,3: rewrite Hrun, H1; split; [done|]; split;
         [ intros stmt Hin; trace_cases Hin
         | split; [by intros row rows [= <- <-] || discriminate
                  | rewrite E1; auto ] ].
    destruct (tier2.1) as [[|r2 rs2]|e2] eqn:E2.
    2,3: rewrite Hrun, H2; split; [done|]; split;
         [ intros stmt Hin; trace_cases Hin
         | split; [discriminate | rewrite E2; auto ] ].
    case_bool_decide.
    { rewrite Hrun. cbn [fst snd Database.trace]. rewrite H2.
      split; [done|]. split; [|split; [discriminate|]].
      - intros stmt Hin. trace_cases Hin.
      - intros results [= <-]. unfold len. cbn. lia. }
    destruct (set_iter _) as [|lemma rest].
    { rewrite Hrun. cbn [fst snd Database.trace]. rewrite H2.
      split; [done|]. split; [|split; discriminate].
      intros stmt Hin. trace_cases Hin. }
    rewrite Hrun. split; [|split; [|split; [discriminate|]]].
    - rewrite search_by_word_run. cbn [snd Database.trace]. by rewrite H2.
    - rewrite search_by_word_run. cbn [snd Database.trace]. rewrite H2.
      intros stmt Hin. trace_cases Hin.
    - apply Hw. }
  destruct Hcases as (Hhead & Hstmts & Hrows & Hsize).
  split; [exact Hhead|]. split; [exact Hstmts|].
  split; [intros row rows E; apply Hrows, Hfirst, E|].
  split.
  - intros Hle row E. apply Hrows, Hfirst.
    replace l with 1 by (unfold l; lia). exact E.
  - intros results Hres. specialize (Hsize _ Hres). lia.
Qed.

Lemma backend_in_honours_limit (arrange : Sample.Arrangement) :
  Database.honours_limit (Sample.backend_in arrange).
Proof.
  intros stmt st rows st' l. cbn. unfold Sample.answer_rows.
  destruct (Sample.up st); cbn [negb]; [|discriminate].
  destruct stmt as [w lim|p lim| |]; cbn.
  - destruct (Z.ltb_spec lim 0); [discriminate|].
    intros [= <- _] [= <-] _. unfold len. rewrite length_take. lia.
  - destruct (Z.ltb_spec lim 0); [discriminate|].
    intros [= <- _] [= <-] _. unfold len. rewrite length_take. lia.
  - intros [= <- _] [= <-] _. unfold len. rewrite length_take. lia.
  - discriminate.
Qed.

Lemma sample_backend_honours_limit : Database.honours_limit Sample.backend.
Proof. apply backend_in_honours_limit. Qed.

Lemma sentence_command_limit_witness :
  Database.honours_limit Sample.backend
  /\ 0 <= 0
  /\ (Bot.sentence_command Sample.backend Sample.tagger Sample.set_iter
        Sample.TABERU 0 (Sample.start Sample.store)).1
     = Ok [(Sample.NEKO ++ [0x3092]%N ++ Sample.TABETA, [0x49]%N)].
Proof.
  split; [exact sample_backend_honours_limit|]. split; [lia|].
  apply (proj1 (proj2 (proj2 (proj2 (proj2 (proj2 (proj2 (proj2
    (sentence_command_limit Sample.backend Sample.tagger Sample.set_iter
       Sample.TABERU 0 Sample.store sample_backend_honours_limit))))))))).
  - lia.
  - vm_compute. reflexivity.
Defined.

(** A limit of 0 still returns the one sentence of the sample store. *)
Example limit_zero_returns_one :
  (Bot.sentence_command Sample.backend Sample.tagger Sample.set_iter
     Sample.TABERU 0 (Sample.start Sample.store)).1
  = Ok [(Sample.NEKO ++ [0x3092]%N ++ Sample.TABETA, [0x49]%N)].
Proof. vm_compute. reflexivity. Qed.

(** * Further properties of the code *)

(** ** The normalizer, character by character *)

Lemma chars_elem (a b c : N) :
  c ∈ chars a b <-> (a <= c /\ c <= b)%N.
Proof.
  unfold chars. rewrite list_elem_of_fmap. split.
  - intros [i [-> Hi]]. apply list_elem_of_In, in_seq in Hi. lia.
  - intros [Ha Hb]. exists (N.to_nat (c - a)). split; [lia|].
    apply list_elem_of_In, in_seq. lia.
Qed.

Lemma table_get_None tbl c :
  Forall (fun kv => kv.1 <> c) tbl -> table_get tbl c = None.
Proof.
  induction 1 as [|[k v] tbl Hk _ IH]; cbn; [done|].
  destruct (N.eqb_spec k c); [done | exact IH].
Qed.

Lemma forallb_elem {A} (f : A -> bool) (l : list A) (x : A) :
  forallb f l = true -> x ∈ l -> f x = true.
Proof.
  rewrite forallb_forall. intros H Hin. apply H. by apply list_elem_of_In.
Qed.

Lemma settled_iff (c : N) :
  Jaconv.settled Jaconv.Z2H_AD Jaconv.H2Z_K Jaconv.DAKUTEN c
  = negb (is_wide_or_half c).
Proof.
  destruct (is_wide_or_half c) eqn:E; cbn [negb].
  - assert (Hin : c ∈ chars 0xFF01 0xFF5E ++ [0x3000%N] ++ chars 0xFF61 0xFF9D).
    { unfold is_wide_or_half in E.
      rewrite !elem_of_app, !chars_elem, list_elem_of_singleton.
      apply orb_prop in E as [E|E]; [apply orb_prop in E as [E|E]|].
      - apply andb_prop in E as [E1 E2].
        apply N.leb_le in E1, E2. by left.
      - apply N.eqb_eq in E. right. by left.
      - apply andb_prop in E as [E1 E2].
        apply N.leb_le in E1, E2. right. by right. }
    apply negb_true_iff.
    refine (forallb_elem (fun c => negb
      (Jaconv.settled Jaconv.Z2H_AD Jaconv.H2Z_K Jaconv.DAKUTEN c)) _ c _ Hin).
    vm_compute. reflexivity.
  - unfold Jaconv.settled, Jaconv.z_fixed, translate_char.
    assert (Hz : table_get Jaconv.Z2H_AD c = None).
    { destruct (table_get Jaconv.Z2H_AD c) as [v|] eqn:Ez; [|done].
      apply table_get_In, list_elem_of_In in Ez.
      pose proof (forallb_elem (fun kv => is_wide_or_half kv.1)
                    Jaconv.Z2H_AD (c, v)) as Hk.
      cbn [fst] in Hk. rewrite Hk in E; [done| |done].
      vm_compute. reflexivity. }
    assert (Hh : match table_get Jaconv.H2Z_K c with
                 | Some v => v | None => c end = c).
    { destruct (table_get Jaconv.H2Z_K c) as [v|] eqn:Eh; [|done].
      apply table_get_In, list_elem_of_In in Eh.
      pose proof (forallb_elem
                    (fun kv => is_wide_or_half kv.1 || (kv.2 =? kv.1)%N)
                    Jaconv.H2Z_K (c, v)) as Hk.
      cbn [fst snd] in Hk. rewrite E in Hk. cbn [orb] in Hk.
      apply N.eqb_eq, Hk; [|done]. vm_compute. reflexivity. }
    rewrite Hz, Hh, !N.eqb_refl. cbn [andb].
    apply negb_true_iff, not_true_is_false. intros Hex.
    apply existsb_exists in Hex as [[[a b] c'] [Hin Heq]].
    apply N.eqb_eq in Heq. subst a.
    pose proof (forallb_elem (fun j => is_wide_or_half j.1.1)
                  Jaconv.DAKUTEN (c, b, c')) as Hk.
    cbn [fst] in Hk. rewrite Hk in E; [done| |by apply list_elem_of_In].
    vm_compute. reflexivity.
Qed.

(** X1. The normal forms are the texts without a character the
    normalizer acts on: a text is left unchanged exactly when it holds no
    full-width ASCII letter, digit or sign (U+FF01..U+FF5E), no
    ideographic space (U+3000) and no half-width katakana or half-width
    punctuation (U+FF61..U+FF9D).  Half-width ASCII, full-width katakana,
    hiragana and kanji are all left as they are. *)
Theorem normalize_fixed_points (text : str) :
  Tokenizer.normalize text = text
  <-> Forall (fun c => is_wide_or_half c = false) text.
Proof.
  assert (Hsettled : Forall (fun c => is_wide_or_half c = false) text
    <-> Forall (fun c => Jaconv.settled Jaconv.Z2H_AD Jaconv.H2Z_K
                           Jaconv.DAKUTEN c = true) text).
  { apply Forall_iff. intros c. rewrite settled_iff.
    by destruct (is_wide_or_half c). }
  rewrite Hsettled.
  change Tokenizer.normalize
    with (Jaconv.normalize_with Jaconv.Z2H_AD Jaconv.H2Z_K Jaconv.DAKUTEN).
  split.
  - intros Heq. rewrite <- Heq.
    apply normalize_with_settles; vm_compute; reflexivity.
  - apply normalize_with_settled.
Qed.

Lemma replace2_length a b c s : (length (replace2 a b c s) <= length s)%nat.
Proof.
  induction s as [| x | x y t IHt IHyt] using list_pair_ind.
  - done.
  - done.
  - change (replace2 a b c (x :: y :: t))
      with (if ((x =? a) && (y =? b))%N then c :: replace2 a b c t
            else x :: replace2 a b c (y :: t)).
    destruct ((x =? a) && (y =? b))%N; cbn [length] in *; lia.
Qed.

Lemma replace2_no_mark a b c s :
  Forall (fun x => x <> b) s -> replace2 a b c s = s.
Proof.
  induction s as [| x | x y t IHt IHyt] using list_pair_ind; intros Hs.
  - done.
  - done.
  - change (replace2 a b c (x :: y :: t))
      with (if ((x =? a) && (y =? b))%N then c :: replace2 a b c t
            else x :: replace2 a b c (y :: t)).
    inversion Hs as [|? ? Hx Hyt]; subst.
    inversion Hyt as [|? ? Hy Ht]; subst.
    destruct (N.eqb_spec y b) as [->|_]; [contradiction|].
    rewrite andb_false_r. f_equal. by apply IHyt.
Qed.

Lemma conv_dakuten_length joins s :
  (length (Jaconv.conv_dakuten joins s) <= length s)%nat.
Proof.
  unfold Jaconv.conv_dakuten. revert s.
  induction joins as [|[[a b] c] joins IH]; intros s; cbn; [done|].
  etrans; [apply IH | apply replace2_length].
Qed.

Lemma conv_dakuten_no_mark s :
  Forall (fun c => is_voicing_mark c = false) s ->
  Jaconv.conv_dakuten Jaconv.DAKUTEN s = s.
Proof.
  intros Hs. unfold Jaconv.conv_dakuten.
  assert (Hmarks : Forall (fun j => is_voicing_mark j.1.2 = true)
                          Jaconv.DAKUTEN).
  { apply Forall_forall. intros j Hj.
    apply (forallb_elem (fun j => is_voicing_mark j.1.2) Jaconv.DAKUTEN);
      [vm_compute; reflexivity | done]. }
  induction Hmarks as [|[[a b] c] joins Hb _ IH]; cbn; [done|].
  rewrite replace2_no_mark; [exact IH|].
  eapply Forall_impl; [exact Hs|]. cbn. intros x Hx ->.
  cbn in Hb. congruence.
Qed.

Lemma normalize_not_longer (text : str) :
  len (Tokenizer.normalize text) <= len text.
Proof.
  unfold Tokenizer.normalize, Jaconv.h2z_kana, Jaconv.z2h_ascii_digit,
    translate.
  unfold len. rewrite length_map.
  pose proof (conv_dakuten_length Jaconv.DAKUTEN
                (map (translate_char Jaconv.Z2H_AD) text)) as Hlen.
  rewrite length_map in Hlen. lia.
Qed.

Lemma normalize_without_marks (text : str) :
  Forall (fun c => is_voicing_mark c = false) text ->
  Tokenizer.normalize text
  = map (fun c => translate_char Jaconv.H2Z_K
                    (translate_char Jaconv.Z2H_AD c)) text.
Proof.
  unfold Tokenizer.normalize, Jaconv.h2z_kana, Jaconv.z2h_ascii_digit,
    translate.
  intros Hmarks. rewrite conv_dakuten_no_mark.
  - by rewrite map_map.
  - apply Forall_map. eapply Forall_impl; [exact Hmarks|].
    cbn. intros c Hc. unfold translate_char.
    destruct (table_get Jaconv.Z2H_AD c) as [v|] eqn:E; [|exact Hc].
    apply table_get_In, list_elem_of_In in E.
    pose proof (forallb_elem (fun kv => negb (is_voicing_mark kv.2))
                  Jaconv.Z2H_AD (c, v)) as Hk.
    apply negb_true_iff, Hk; [|done]. vm_compute. reflexivity.
Qed.

(** X2. Normalizing never makes a text longer, and it works character by
    character on a text without voicing marks (U+FF9E, U+FF9F): such a
    text keeps its length, and each character is passed through the two
    tables.  Only a half-width kana followed by its voicing mark is
    joined into one character. *)
Theorem normalize_length (text : str) :
  len (Tokenizer.normalize text) <= len text
  /\ (Forall (fun c => is_voicing_mark c = false) text ->
      Tokenizer.normalize text
      = map (fun c => translate_char Jaconv.H2Z_K
                        (translate_char Jaconv.Z2H_AD c)) text
      /\ len (Tokenizer.normalize text) = len text).
Proof.
  split; [apply normalize_not_longer|].
  intros Hmarks. split; [by apply normalize_without_marks|].
  rewrite normalize_without_marks by done. unfold len. by rewrite length_map.
Qed.

Lemma normalize_length_witness :
  Forall (fun c => is_voicing_mark c = false) [0xFF21; 0xFF71; 0x732B]%N
  /\ Tokenizer.normalize [0xFF21; 0xFF71; 0x732B]%N
     = map (fun c => translate_char Jaconv.H2Z_K
                       (translate_char Jaconv.Z2H_AD c))
           [0xFF21; 0xFF71; 0x732B]%N.
Proof.
  assert (H : Forall (fun c => is_voicing_mark c = false)
                     [0xFF21; 0xFF71; 0x732B]%N).
  { repeat constructor. }
  split; [exact H|].
  exact (proj1 (proj2 (normalize_length [0xFF21; 0xFF71; 0x732B]%N) H)).
Defined.

(** X3. Full-width ASCII is folded to half-width by a shift of the code
    point: a text of full-width letters, digits and signs
    (U+FF01..U+FF5E) is normalized to the same text 0xFEE0 lower. *)
Theorem normalize_fullwidth_ascii (text : str) :
  Forall (fun c => (0xFF01 <= c /\ c <= 0xFF5E)%N) text ->
  Tokenizer.normalize text = map (fun c => (c - 0xFEE0)%N) text.
Proof.
  intros Hwide.
  rewrite normalize_without_marks.
  - apply map_ext_Forall. eapply Forall_impl; [exact Hwide|].
    cbn. intros c Hc. apply chars_elem in Hc.
    apply N.eqb_eq.
    refine (forallb_elem (fun c =>
      (translate_char Jaconv.H2Z_K (translate_char Jaconv.Z2H_AD c)
       =? c - 0xFEE0)%N) _ c _ Hc).
    vm_compute. reflexivity.
  - eapply Forall_impl; [exact Hwide|]. cbn. intros c Hc.
    unfold is_voicing_mark.
    destruct (N.eqb_spec c 0xFF9E); [lia|].
    destruct (N.eqb_spec c 0xFF9F); [lia|]. done.
Qed.

Lemma normalize_fullwidth_ascii_witness :
  Forall (fun c => (0xFF01 <= c /\ c <= 0xFF5E)%N) [0xFF2A; 0xFF11]%N
  /\ Tokenizer.normalize [0xFF2A; 0xFF11]%N = [0x4A; 0x31]%N.
Proof.
  assert (H : Forall (fun c => (0xFF01 <= c /\ c <= 0xFF5E)%N)
                     [0xFF2A; 0xFF11]%N).
  { repeat constructor; lia. }
  split; [exact H|].
  exact (normalize_fullwidth_ascii [0xFF2A; 0xFF11]%N H).
Defined.

(** ** More on the tokenizer wrappers *)

Section TokenizerEdges.

Import Tokenizer.
Variable tagger : str -> option (list Node).

Lemma lemma_fold_mono (words : list Node) (acc : gset str) :
  acc ⊆ fold_left
          (fun (lemmas : gset str) word =>
             match lemma (feature word) with
             | Some l => if usable (Some l) then lemmas ∪ {[ l ]}
                         else lemmas ∪ {[ surface word ]}
             | None => lemmas ∪ {[ surface word ]}
             end) words acc.
Proof.
  revert acc. induction words as [|w words IH]; intros acc; cbn; [done|].
  etrans; [|apply IH].
  destruct (lemma (feature w)) as [l|]; [destruct (usable (Some l))|];
    apply union_subseteq_l.
Qed.

Lemma get_lemmas_empty text :
  get_lemmas tagger text = ∅ <-> tokenize tagger text = [].
Proof.
  unfold get_lemmas, tokenize.
  destruct (tagger (normalize text)) as [[|w words]|]; [done| |done].
  split; [|done]. cbn. intros Hempty. exfalso.
  set (first := match lemma (feature w) with
                | Some l => if usable (Some l) then (∅ : gset str) ∪ {[ l ]}
                            else ∅ ∪ {[ surface w ]}
                | None => ∅ ∪ {[ surface w ]}
                end) in *.
  assert (Hne : exists x, x ∈ first).
  { unfold first.
    destruct (lemma (feature w)) as [l|]; [destruct (usable (Some l))|];
      eexists; apply elem_of_union_r, elem_of_singleton; reflexivity. }
  destruct Hne as [x Hx].
  apply (lemma_fold_mono words first) in Hx.
  rewrite Hempty in Hx. by apply not_elem_of_empty in Hx.
Qed.

Lemma get_lemmas_with_surface_empty text :
  get_lemmas_with_surface tagger text = ∅ <-> tokenize tagger text = [].
Proof.
  split.
  - intros Hempty. destruct (tokenize tagger text) as [|t ts] eqn:E; [done|].
    exfalso. assert (Ht : t ∈ tokenize tagger text) by (rewrite E; by left).
    apply tokens_below_words in Ht. rewrite Hempty in Ht.
    by apply not_elem_of_empty in Ht.
  - unfold get_lemmas_with_surface, tokenize.
    by destruct (tagger (normalize text)) as [[|w words]|].
Qed.

End TokenizerEdges.

(** X4. A text has a lemma exactly when it has a token, and it has an
    index word exactly when it has a token: [get_lemmas] and
    [get_lemmas_with_surface] return the empty set if and only if
    [tokenize] returns the empty list (the analyser failed or found no
    morpheme).  So a query reaches the lemma lookup of the search command
    only if it tokenizes to something, and a sentence without a token
    contributes nothing to the index. *)
Theorem word_sets_empty_iff_no_tokens
    (tagger : str -> option (list Tokenizer.Node)) (text : str) :
  (Tokenizer.get_lemmas tagger text = ∅
   <-> Tokenizer.tokenize tagger text = [])
  /\ (Tokenizer.get_lemmas_with_surface tagger text = ∅
      <-> Tokenizer.tokenize tagger text = []).
Proof.
  split; [apply get_lemmas_empty | apply get_lemmas_with_surface_empty].
Qed.

(** X5. [analyze_word] returns the empty dictionary exactly when the
    analyser fails or finds no morpheme.  Otherwise it describes the
    first morpheme the analyser finds in the word as given: the reported
    lemma is never the placeholder [*], and for a word that is in normal
    form the reported surface is the first token of [tokenize]. *)
Theorem analyze_word_first_morpheme
    (tagger : str -> option (list Tokenizer.Node)) (word : str) :
  (Tokenizer.analyze_word tagger word = None
   <-> tagger word = None \/ tagger word = Some [])
  /\ (forall info,
        Tokenizer.analyze_word tagger word = Some info ->
        Tokenizer.info_lemma info <> Some Tokenizer.STAR
        /\ (exists first rest,
              tagger word = Some (first :: rest)
              /\ Tokenizer.info_surface info = Tokenizer.surface first
              /\ Tokenizer.info_pos info = Tokenizer.pos1 (Tokenizer.feature first)
              /\ Tokenizer.info_pos_detail info
                 = Tokenizer.pos2 (Tokenizer.feature first))
        /\ (Tokenizer.normalize word = word ->
            head (Tokenizer.tokenize tagger word)
            = Some (Tokenizer.info_surface info))).
Proof.
  unfold Tokenizer.analyze_word, Tokenizer.tokenize.
  destruct (tagger word) as [[|first rest]|] eqn:E.
  - split; [split; auto|]. intros info [=].
  - split.
    + split; [discriminate | intros [[=]|[=]]].
    + intros info [= <-]. cbn. split; [|split].
      * case_bool_decide as Hstar; [discriminate|exact Hstar].
      * by exists first, rest.
      * intros ->. by rewrite E.
  - split; [split; auto|]. intros info [=].
Qed.

(** ** More on the corpus reader *)

Lemma lstrip_suffix (s : str) : exists p, s = p ++ lstrip s.
Proof.
  induction s as [|c s [p IH]]; cbn.
  - by exists [].
  - destruct (isspace c).
    + exists (c :: p). cbn. by rewrite <- IH.
    + by exists [].
Qed.

Lemma lstrip_head (s : str) :
  match lstrip s with c :: _ => isspace c = false | [] => True end.
Proof.
  induction s as [|c s IH]; cbn; [done|].
  destruct (isspace c) eqn:E; [exact IH | exact E].
Qed.

Lemma lstrip_fixed (s : str) :
  match s with c :: _ => isspace c = false | [] => True end ->
  lstrip s = s.
Proof. destruct s as [|c s]; cbn; [done|]. by intros ->. Qed.

Lemma strip_head (s : str) :
  match strip s with c :: _ => isspace c = false | [] => True end.
Proof.
  unfold strip, rstrip.
  pose proof (lstrip_head s) as Hhead.
  destruct (lstrip_suffix (rev (lstrip s))) as [p Hp].
  apply (f_equal (@rev N)) in Hp. rewrite rev_involutive, rev_app_distr in Hp.
  destruct (rev (lstrip (rev (lstrip s)))) as [|c r]; [done|].
  rewrite Hp in Hhead. exact Hhead.
Qed.

Lemma strip_last (s : str) :
  match rev (strip s) with c :: _ => isspace c = false | [] => True end.
Proof.
  unfold strip, rstrip. rewrite rev_involutive. apply lstrip_head.
Qed.

Lemma strip_idempotent (s : str) : strip (strip s) = strip s.
Proof.
  unfold strip at 1. rewrite (lstrip_fixed (strip s)) by apply strip_head.
  unfold rstrip. rewrite (lstrip_fixed (rev (strip s))) by apply strip_last.
  apply rev_involutive.
Qed.

(** X6. Every pair the reader returns is clean: both texts are
    non-empty, trimmed (they neither start nor end with white space, so
    trimming them again changes nothing), free of newlines and tabs, and
    at most 300 characters long. *)
Theorem read_jesc_file_clean (entries : list Csv.Entry) (limit : option Z)
    (sentences : list (str * str)) (ja en : str) :
  Loader.read_jesc_file entries limit = Ok sentences ->
  (ja, en) ∈ sentences ->
  ja <> [] /\ en <> []
  /\ strip ja = ja /\ strip en = en
  /\ (Loader.NEWLINE ∉ ja) /\ (Loader.TAB ∉ ja)
  /\ (Loader.NEWLINE ∉ en) /\ (Loader.TAB ∉ en)
  /\ len ja <= 300 /\ len en <= 300.
Proof.
  rewrite read_jesc_file_spec.
  destruct (Csv.read_all _) as [rows|e]; [|discriminate].
  intros [= <-]. unfold Loader.accepted.
  intros Hin. apply list_elem_of_fmap in Hin as [row [Heq Hrow]].
  apply list_elem_of_filter in Hrow as [Hok _].
  unfold Loader.pair_of in Heq. injection Heq as -> ->.
  unfold Loader.rejected in Hok.
  repeat split.
  - intros H. apply Hok. auto.
  - intros H. apply Hok. auto.
  - apply strip_idempotent.
  - apply strip_idempotent.
  - intros H. apply Hok. auto.
  - intros H. apply Hok. auto 6.
  - intros H. apply Hok. auto 7.
  - intros H. apply Hok. auto 8.
  - destruct (Z.le_gt_cases (len (Loader.ja_field row)) 300) as [H|H];
      [done|]. exfalso. apply Hok. auto 9 with zarith.
  - destruct (Z.le_gt_cases (len (Loader.en_field row)) 300) as [H|H];
      [done|]. exfalso. apply Hok. auto 10 with zarith.
Qed.

Lemma read_jesc_file_clean_witness :
  Loader.read_jesc_file
    [Csv.Fields [[0x31]; [0x20; 0x49; 0x0A]; [0x3000; 0x732B]]%N] None
  = Ok [([0x732B]%N, [0x49]%N)]
  /\ ([0x732B]%N, [0x49]%N) ∈ [([0x732B]%N, [0x49]%N)]
  /\ strip [0x732B]%N = [0x732B]%N.
Proof.
  assert (H : Loader.read_jesc_file
                [Csv.Fields [[0x31]; [0x20; 0x49; 0x0A]; [0x3000; 0x732B]]%N]
                None
              = Ok [([0x732B]%N, [0x49]%N)]) by (vm_compute; reflexivity).
  assert (Hin : ([0x732B]%N, [0x49]%N) ∈ [([0x732B]%N, [0x49]%N)])
    by (by left).
  split; [exact H|]. split; [exact Hin|].
  exact (proj1 (proj2 (proj2 (read_jesc_file_clean _ _ _ _ _ H Hin)))).
Defined.

Lemma filter_prefix {A} (P : A -> Prop) `{forall x, Decision (P x)}
    (l1 l2 : list A) :
  l1 `prefix_of` l2 -> filter P l1 `prefix_of` filter P l2.
Proof. intros [k ->]. rewrite filter_app. by eexists. Qed.

Lemma fmap_prefix {A B} (f : A -> B) (l1 l2 : list A) :
  l1 `prefix_of` l2 -> f <$> l1 `prefix_of` f <$> l2.
Proof. intros [k ->]. rewrite fmap_app. by eexists. Qed.

(** The rows of the first entries of a file the reader gets through. *)
Lemma read_all_take (entries : list Csv.Entry) : forall k rows,
  Csv.read_all entries = Ok rows ->
  Csv.read_all (take k entries) = Ok (take k rows).
Proof.
  induction entries as [|entry rest IH]; intros k rows.
  - cbn. intros [= <-]. by rewrite !take_nil.
  - cbn [Csv.read_all]. destruct (Csv.next entry) as [row|e] eqn:E;
      [|discriminate].
    destruct (Csv.read_all rest) as [rows'|e] eqn:E'; [|discriminate].
    intros [= <-]. destruct k as [|k]; [done|].
    cbn [take Csv.read_all]. by rewrite E, (IH k rows').
Qed.

Lemma read_all_length (entries : list Csv.Entry) : forall rows,
  Csv.read_all entries = Ok rows -> length rows = length entries.
Proof.
  induction entries as [|entry rest IH]; intros rows.
  - by intros [= <-].
  - cbn [Csv.read_all]. destruct (Csv.next entry) as [row|e]; [|discriminate].
    destruct (Csv.read_all rest) as [rows'|e]; [|discriminate].
    intros [= <-]. cbn. by rewrite (IH rows').
Qed.

(** The reader under a limit other than 0, in terms of the reader
    without a limit. *)
Lemma read_jesc_file_limited (entries : list Csv.Entry) (n : Z) :
  n <> 0 ->
  Loader.read_jesc_file entries (Some n)
  = match Csv.read_all (take (S (Z.to_nat n)) entries) with
    | Ok _ => Loader.read_jesc_file (take (Z.to_nat n) entries) None
    | Raise e => Raise e
    end.
Proof.
  intros Hn. rewrite !read_jesc_file_spec.
  cbn [Loader.requested Loader.consumed].
  destruct (Z.eqb_spec n 0) as [|_]; [done|].
  destruct (Csv.read_all (take (S (Z.to_nat n)) entries)) as [rows|e] eqn:E;
    [|done].
  apply (read_all_take _ (Z.to_nat n)) in E.
  rewrite take_take in E.
  replace (Z.to_nat n `min` S (Z.to_nat n))%nat with (Z.to_nat n) in E by lia.
  by rewrite E.
Qed.

(** X7. The limit of the reader counts records read, not sentences kept,
    and the reader asks for one record more than it reads.  A limit of 0
    is no limit at all.  Under any other limit n the reader asks for the
    first n + 1 records (for the first one when n is negative): when one
    of them cannot be delivered the read fails, also when it is the last
    of them, on which the loop would only have stopped; and otherwise
    the reader returns what it returns on the first n records alone.  A
    list returned under a limit has at most n pairs and is a prefix of
    the list returned without a limit, when there is one; and when the
    read without a limit succeeds, so does the read under a limit. *)
Theorem read_jesc_file_limit (entries : list Csv.Entry) (n : Z) :
  n <> 0 ->
  Loader.read_jesc_file entries (Some 0) = Loader.read_jesc_file entries None
  /\ Loader.read_jesc_file entries (Some n)
     = match Csv.read_all (take (S (Z.to_nat n)) entries) with
       | Ok _ => Loader.read_jesc_file (take (Z.to_nat n) entries) None
       | Raise e => Raise e
       end
  /\ (forall sentences,
        Loader.read_jesc_file entries (Some n) = Ok sentences ->
        len sentences <= Z.max n 0
        /\ forall unlimited,
             Loader.read_jesc_file entries None = Ok unlimited ->
             sentences `prefix_of` unlimited)
  /\ (forall unlimited,
        Loader.read_jesc_file entries None = Ok unlimited ->
        exists sentences,
          Loader.read_jesc_file entries (Some n) = Ok sentences)
  /\ (forall (rows : list (list str)) (entry : Csv.Entry)
             (after : list Csv.Entry) (e : exn),
        entries = (Csv.Fields <$> rows) ++ entry :: after ->
        Forall (Forall (fun field => len field <= 131072)) rows ->
        length rows = Z.to_nat n ->
        Csv.next entry = Raise e ->
        Loader.read_jesc_file entries (Some n) = Raise e
        /\ Loader.read_jesc_file (take (Z.to_nat n) entries) None
           = Ok (Loader.accepted rows)).
Proof.
  intros Hn. split; [by rewrite !read_jesc_file_spec|].
  split; [by apply read_jesc_file_limited|].
  split; [|split].
  - intros sentences. rewrite !read_jesc_file_spec.
    cbn [Loader.requested Loader.consumed].
    destruct (Z.eqb_spec n 0) as [|_]; [done|].
    destruct (Csv.read_all (take (S (Z.to_nat n)) entries)) as [rows|e] eqn:E;
      [|discriminate].
    intros [= <-]. split.
    + unfold len, Loader.accepted. rewrite length_fmap.
      pose proof (length_filter (fun row => ¬ Loader.rejected row)
                    (take (Z.to_nat n) rows)) as H1.
      rewrite length_take in H1. lia.
    + intros unlimited.
      destruct (Csv.read_all entries) as [all|e] eqn:Eall; [|discriminate].
      intros [= <-].
      apply (read_all_take _ (S (Z.to_nat n))) in Eall.
      rewrite E in Eall. injection Eall as ->.
      rewrite take_take.
      apply fmap_prefix, filter_prefix, prefix_take.
  - intros unlimited. rewrite !read_jesc_file_spec.
    cbn [Loader.requested Loader.consumed].
    destruct (Z.eqb_spec n 0) as [|_]; [done|].
    destruct (Csv.read_all entries) as [all|e] eqn:Eall; [|discriminate].
    intros _. apply (read_all_take _ (S (Z.to_nat n))) in Eall.
    rewrite Eall. by eexists.
  - intros rows entry after e -> Hshort Hlen Hfail.
    assert (Hk : length (Csv.Fields <$> rows) = Z.to_nat n)
      by (by rewrite length_fmap).
    split.
    + rewrite read_jesc_file_limited by done.
      replace (S (Z.to_nat n)) with (length (Csv.Fields <$> rows) + 1)%nat
        by lia.
      rewrite take_app_add'; [|done].
      change (take 1 (entry :: after)) with (entry :: take 0 after).
      by rewrite (read_all_failure rows entry (take 0 after) e).
    + rewrite <- Hk, take_app_length.
      rewrite read_jesc_file_spec. cbn [Loader.requested Loader.consumed].
      by rewrite read_all_fields.
Qed.

Lemma read_jesc_file_limit_witness :
  1 <> 0
  /\ Loader.read_jesc_file
       [Csv.Fields [[0x31]; [0x49]; [0x732B]]%N; Csv.Broken UnicodeDecodeError]
       (Some 1)
     = Raise UnicodeDecodeError
  /\ Loader.read_jesc_file
       (take (Z.to_nat 1)
          [Csv.Fields [[0x31]; [0x49]; [0x732B]]%N;
           Csv.Broken UnicodeDecodeError])
       None
     = Ok (Loader.accepted [[[0x31]; [0x49]; [0x732B]]%N]).
Proof.
  split; [lia|].
  refine (proj2 (proj2 (proj2 (proj2 (read_jesc_file_limit
    [Csv.Fields [[0x31]; [0x49]; [0x732B]]%N; Csv.Broken UnicodeDecodeError]
    1 ltac:(lia))))) [[[0x31]; [0x49]; [0x732B]]%N]
    (Csv.Broken UnicodeDecodeError) [] UnicodeDecodeError eq_refl _ eq_refl
    eq_refl).
  repeat constructor; vm_compute; discriminate.
Defined.

(** ** The bulk inserts *)

Lemma range_batches (n b : Z) :
  0 < b ->
  PyX.range 0 n b
  = Some (map (fun k => Z.of_nat k * b)
              (seq 0 (Z.to_nat ((n + b - 1) / b)))).
Proof.
  intros Hb. unfold PyX.range.
  destruct (Z.eqb_spec b 0); [lia|].
  destruct (Z.ltb_spec 0 b); [|lia].
  replace (n - 0 + b - 1) with (n + b - 1) by lia. done.
Qed.

Lemma range_negative_step (n b : Z) :
  0 <= n -> b < 0 -> PyX.range 0 n b = Some [].
Proof.
  intros Hn Hb. unfold PyX.range.
  destruct (Z.eqb_spec b 0); [lia|].
  destruct (Z.ltb_spec 0 b); [lia|].
  assert (H0 : (0 - n - b - 1) / - b <= 0).
  { apply Z.lt_succ_r. apply Z.div_lt_upper_bound; lia. }
  by replace (Z.to_nat ((0 - n - b - 1) / - b)) with 0%nat by lia.
Qed.

Lemma slice_batch {A} (l : list A) (i b : Z) :
  0 <= i -> 0 <= b ->
  PyX.slice l i (i + b) = take (Z.to_nat b) (drop (Z.to_nat i) l).
Proof.
  intros Hi Hb. unfold PyX.slice, PyX.clip, len.
  destruct (Z.ltb_spec i 0); [lia|].
  destruct (Z.ltb_spec (i + b) 0); [lia|].
  destruct (Z.le_gt_cases (Z.of_nat (length l)) i) as [Hge|Hlt].
  - rewrite !drop_ge by lia. by rewrite !take_nil.
  - replace (Z.to_nat (i `min` Z.of_nat (length l))) with (Z.to_nat i) by lia.
    destruct (Z.le_gt_cases (i + b) (Z.of_nat (length l))) as [Hfit|Hover].
    + f_equal. lia.
    + rewrite !take_ge; [done| |]; rewrite length_drop; lia.
Qed.

Lemma number_app (id : Z) (o1 o2 : list DatabaseWrite.Obj) :
  MemDb.number id (o1 ++ o2)
  = MemDb.number id o1 ++ MemDb.number (id + MemDb.count_sentences o1) o2.
Proof.
  revert id. induction o1 as [|[ja en|w sid] o1 IH]; intros id; cbn.
  - by rewrite Z.add_0_r.
  - rewrite IH. do 3 f_equal. lia.
  - by rewrite IH.
Qed.

Lemma count_sentences_app (o1 o2 : list DatabaseWrite.Obj) :
  MemDb.count_sentences (o1 ++ o2)
  = MemDb.count_sentences o1 + MemDb.count_sentences o2.
Proof.
  induction o1 as [|[ja en|w sid] o1 IH]; cbn; lia.
Qed.

Lemma erase_number (id : Z) (objs : list DatabaseWrite.Obj) :
  map MemDb.erase (MemDb.number id objs) = objs.
Proof.
  revert id. induction objs as [|[ja en|w sid] objs IH]; intros id; cbn;
    [done| |]; by rewrite IH.
Qed.

Section BulkInsertFacts.

Import PyX DatabaseWrite.
Context {A : Type}.
Variable mk : A -> Obj.
Variable entries : list A.
Variable b : Z.
Hypothesis b_pos : 0 < b.

(** The body of the two insert loops. *)
Let body (i : Z) : X MemDb.Db unit :=
  let batch := slice entries i (i + b) in
  session_bulk_save_objects MemDb.session (map mk batch);;
  session_commit MemDb.session;;
  logger_info.

Let starts (j n : nat) : list Z := map (fun k => Z.of_nat k * b) (seq j n).

Let chunk (j n : nat) : list A :=
  take (n * Z.to_nat b) (drop (j * Z.to_nat b) entries).

Lemma chunk_succ j n :
  take (Z.to_nat b) (drop (Z.to_nat (Z.of_nat j * b)) entries) ++ chunk (S j) n
  = chunk j (S n).
Proof.
  unfold chunk.
  replace (Z.to_nat (Z.of_nat j * b)) with (j * Z.to_nat b)%nat by lia.
  replace (S j * Z.to_nat b)%nat with (j * Z.to_nat b + Z.to_nat b)%nat by lia.
  rewrite <- drop_drop, take_take_drop. f_equal; lia.
Qed.

(** A run of the loop on a database without scripted faults. *)
Lemma loop_without_faults n : forall j db,
  MemDb.pending db = [] -> MemDb.faults db = [] ->
  for_each (starts j n) body db
  = (Return tt,
     {| MemDb.rows := MemDb.rows db
                      ++ MemDb.number (MemDb.next_id db) (map mk (chunk j n));
        MemDb.pending := [];
        MemDb.next_id := MemDb.next_id db
                         + MemDb.count_sentences (map mk (chunk j n));
        MemDb.faults := [] |}).
Proof.
  induction n as [|n IH]; intros j db Hp Hf.
  - unfold chunk. cbn. rewrite app_nil_r, Z.add_0_r.
    destruct db; cbn in *; by subst.
  - cbn [starts seq map for_each].
    unfold mbind, X_bind, bind. unfold body at 1.
    unfold mbind, X_bind, bind, session_bulk_save_objects, session_commit,
      attempt, logger_info, ret.
    cbn [bulk_save_objects commit MemDb.session].
    unfold MemDb.save, MemDb.do_commit, MemDb.pop_fault.
    rewrite Hf, Hp. cbn [MemDb.faults MemDb.rows MemDb.pending MemDb.next_id app].
    rewrite Hf. cbn [MemDb.faults MemDb.rows MemDb.pending MemDb.next_id app].
    fold (starts (S j) n). rewrite IH by done.
    cbn [MemDb.faults MemDb.rows MemDb.pending MemDb.next_id].
    rewrite slice_batch by lia.
    rewrite <- (chunk_succ j n), map_app, number_app, count_sentences_app.
    rewrite <- app_assoc, Z.add_assoc. done.
Qed.

Lemma pop_fault_keeps db :
  MemDb.rows (MemDb.pop_fault db).2 = MemDb.rows db
  /\ MemDb.pending (MemDb.pop_fault db).2 = MemDb.pending db
  /\ MemDb.next_id (MemDb.pop_fault db).2 = MemDb.next_id db.
Proof. unfold MemDb.pop_fault. by destruct (MemDb.faults db). Qed.

(** One batch under any fault script: saved and committed, or nothing
    durable. *)
Lemma body_outcome i db :
  0 <= i -> MemDb.pending db = [] ->
  ((body i db).1 = Return tt
   /\ MemDb.pending (body i db).2 = []
   /\ map MemDb.erase (MemDb.rows (body i db).2)
      = map MemDb.erase (MemDb.rows db)
        ++ map mk (take (Z.to_nat b) (drop (Z.to_nat i) entries)))
  \/ ((body i db).1 = Except (Base BackendError)
      /\ MemDb.rows (body i db).2 = MemDb.rows db).
Proof.
  intros Hi Hp. unfold body.
  unfold mbind, X_bind, bind, session_bulk_save_objects, session_commit,
    attempt, logger_info, ret.
  cbn [bulk_save_objects commit MemDb.session].
  unfold MemDb.save.
  destruct (pop_fault_keeps db) as (Hr1 & Hp1 & Hn1).
  destruct (MemDb.pop_fault db) as [[|] db1]; cbn [fst snd] in *.
  { right. done. }
  unfold MemDb.do_commit.
  match goal with
  | |- context [MemDb.pop_fault ?d] =>
      destruct (pop_fault_keeps d) as (Hr2 & Hp2 & Hn2);
      destruct (MemDb.pop_fault d) as [[|] db2]
  end; cbn [fst snd MemDb.rows MemDb.pending] in *.
  { right. split; [done|]. by rewrite Hr2. }
  left. split; [done|]. split; [done|].
  rewrite map_app, Hr2, Hr1, Hp2, Hp1, Hp. cbn [app].
  by rewrite erase_number, slice_batch by lia.
Qed.

(** A run of the loop under any fault script: the durable rows grow by
    whole batches, and the loop stops at the first operation that
    raises. *)
Lemma loop_with_faults n : forall j db,
  MemDb.pending db = [] ->
  exists m : nat,
    (m <= n)%nat
    /\ map MemDb.erase (MemDb.rows (for_each (starts j n) body db).2)
       = map MemDb.erase (MemDb.rows db) ++ map mk (chunk j m)
    /\ ((for_each (starts j n) body db).1 = Return tt
        /\ m = n /\ MemDb.pending (for_each (starts j n) body db).2 = []
        \/ (for_each (starts j n) body db).1 = Except (Base BackendError)
           /\ (m < n)%nat).
Proof.
  induction n as [|n IH]; intros j db Hp.
  - exists 0%nat. unfold chunk. cbn. rewrite app_nil_r.
    split; [lia|]. split; [done|]. left. done.
  - cbn [starts seq map for_each]. fold (starts (S j) n).
    unfold mbind, X_bind, bind.
    destruct (body_outcome (Z.of_nat j * b) db ltac:(lia) Hp)
      as [(Hr & Hp1 & Hrows1)|(Hr & Hrows1)].
    + destruct (body (Z.of_nat j * b) db) as [[[]|e] db1];
        cbn [fst snd] in *; [|discriminate].
      destruct (IH (S j) db1 Hp1) as (m & Hm & Hrows & Hres).
      exists (S m). split; [lia|]. split.
      * rewrite Hrows, Hrows1, <- app_assoc, <- map_app.
        by rewrite (chunk_succ j m).
      * destruct Hres as [(Hr' & -> & Hp')|(Hr' & Hlt)].
        -- left. done.
        -- right. split; [done | lia].
    + destruct (body (Z.of_nat j * b) db) as [[[]|e] db1];
        cbn [fst snd] in *; [discriminate|].
      exists 0%nat. unfold chunk. cbn [Nat.mul take map].
      rewrite app_nil_r, Hrows1.
      split; [lia|]. split; [done|]. right. split; [done | lia].
Qed.

Lemma chunk_all :
  chunk 0 (Z.to_nat ((len entries + b - 1) / b)) = entries.
Proof.
  unfold chunk. cbn [Nat.mul drop]. apply take_ge. unfold len.
  assert (H : Z.of_nat (length entries)
              <= (Z.of_nat (length entries) + b - 1) / b * b).
  { pose proof (Z.div_mod (Z.of_nat (length entries) + b - 1) b) as Hdm.
    pose proof (Z.mod_pos_bound (Z.of_nat (length entries) + b - 1) b).
    lia. }
  assert (H0 : 0 <= (Z.of_nat (length entries) + b - 1) / b).
  { apply Z.div_pos; lia. }
  nia.
Qed.

Lemma chunk_prefix n : chunk 0 n = take (n * Z.to_nat b) entries.
Proof. unfold chunk. by cbn [Nat.mul drop]. Qed.

(** The insert as both methods run it. *)
Let insert : X MemDb.Db unit :=
  try_except
    (starts ← batch_starts entries b;
     for_each starts body)
    (fun e => session_rollback MemDb.session;; logger_error;; raise e).

Lemma insert_without_faults db :
  MemDb.pending db = [] -> MemDb.faults db = [] ->
  insert db
  = (Return tt,
     {| MemDb.rows := MemDb.rows db
                      ++ MemDb.number (MemDb.next_id db) (map mk entries);
        MemDb.pending := [];
        MemDb.next_id := MemDb.next_id db
                         + MemDb.count_sentences (map mk entries);
        MemDb.faults := [] |}).
Proof.
  intros Hp Hf. unfold insert, try_except, batch_starts.
  rewrite range_batches by done.
  unfold mbind, X_bind, bind, ret.
  pose proof (loop_without_faults (Z.to_nat ((len entries + b - 1) / b))
                0 db Hp Hf) as Hloop.
  unfold starts in Hloop. rewrite Hloop. by rewrite chunk_all.
Qed.

Lemma insert_with_faults db :
  MemDb.pending db = [] ->
  MemDb.pending (insert db).2 = []
  /\ exists m : nat,
       map MemDb.erase (MemDb.rows (insert db).2)
       = map MemDb.erase (MemDb.rows db)
         ++ map mk (take (m * Z.to_nat b) entries)
       /\ ((insert db).1 = Return tt
           /\ map MemDb.erase (MemDb.rows (insert db).2)
              = map MemDb.erase (MemDb.rows db) ++ map mk entries
           \/ (insert db).1 = Except (Base BackendError)
              /\ (m * Z.to_nat b < length entries)%nat).
Proof.
  intros Hp. unfold insert, try_except, batch_starts.
  rewrite range_batches by done.
  unfold mbind, X_bind, bind, ret.
  destruct (loop_with_faults (Z.to_nat ((len entries + b - 1) / b)) 0 db Hp)
    as (m & Hm & Hrows & Hres).
  rewrite chunk_prefix in Hrows. unfold starts in Hrows, Hres.
  destruct (for_each _ body db) as [[[]|e] db'] eqn:E; cbn [fst snd] in *.
  - destruct Hres as [(_ & -> & Hp')|(Hr & _)]; [|discriminate].
    split; [done|]. exists (Z.to_nat ((len entries + b - 1) / b)).
    split; [done|]. left. split; [done|].
    rewrite Hrows. by rewrite <- chunk_prefix, chunk_all.
  - destruct Hres as [(Hr & _)|(Hr & Hlt)]; [discriminate|].
    injection Hr as ->. cbn [is_Exception].
    unfold session_rollback, logger_error, raise, ret.
    cbn [fst snd rollback MemDb.session MemDb.do_rollback MemDb.pending
         MemDb.rows].
    split; [done|]. exists m. split; [done|]. right. split; [done|].
    assert (H0 : 0 <= (len entries + b - 1) / b).
    { apply Z.div_pos; unfold len; lia. }
    assert (Hnb : (len entries + b - 1) / b * b < len entries + b).
    { pose proof (Z.div_mod (len entries + b - 1) b) as Hdm.
      pose proof (Z.mod_pos_bound (len entries + b - 1) b). lia. }
    unfold len in *. nia.
Qed.

End BulkInsertFacts.

Lemma sentences_app_rows (r1 r2 : list MemDb.Row) nid f p :
  MemDb.sentences {| MemDb.rows := r1 ++ r2; MemDb.pending := p;
                     MemDb.next_id := nid; MemDb.faults := f |}
  = flat_map (fun r => match r with
                       | MemDb.SentenceRow id ja en => [(id, ja, en)]
                       | MemDb.WordIndexRow _ _ => []
                       end) r1
    ++ flat_map (fun r => match r with
                          | MemDb.SentenceRow id ja en => [(id, ja, en)]
                          | MemDb.WordIndexRow _ _ => []
                          end) r2.
Proof. unfold MemDb.sentences. cbn. apply flat_map_app. Qed.

Lemma word_index_app_rows (r1 r2 : list MemDb.Row) nid f p :
  MemDb.word_index {| MemDb.rows := r1 ++ r2; MemDb.pending := p;
                      MemDb.next_id := nid; MemDb.faults := f |}
  = flat_map (fun r => match r with
                       | MemDb.SentenceRow _ _ _ => []
                       | MemDb.WordIndexRow w sid => [(w, sid)]
                       end) r1
    ++ flat_map (fun r => match r with
                          | MemDb.SentenceRow _ _ _ => []
                          | MemDb.WordIndexRow w sid => [(w, sid)]
                          end) r2.
Proof. unfold MemDb.word_index. cbn. apply flat_map_app. Qed.

Lemma number_sentences (id : Z) (sentences : list (str * str)) :
  flat_map (fun r => match r with
                     | MemDb.SentenceRow id ja en => [(id, ja, en)]
                     | MemDb.WordIndexRow _ _ => []
                     end)
    (MemDb.number id
       (map (fun '(jp, en) => DatabaseWrite.SentenceObj jp en) sentences))
  = MemDb.stored_from id sentences
  /\ flat_map (fun r => match r with
                        | MemDb.SentenceRow _ _ _ => []
                        | MemDb.WordIndexRow w sid => [(w, sid)]
                        end)
       (MemDb.number id
          (map (fun '(jp, en) => DatabaseWrite.SentenceObj jp en) sentences))
     = []
  /\ MemDb.count_sentences
       (map (fun '(jp, en) => DatabaseWrite.SentenceObj jp en) sentences)
     = len sentences.
Proof.
  revert id. induction sentences as [|[ja en] rest IH]; intros id; cbn.
  - done.
  - destruct (IH (id + 1)) as (-> & -> & ->). unfold len. cbn [length].
    split; [done|]. split; [done|]. lia.
Qed.

Lemma number_word_entries (id : Z) (entries : list (str * Z)) :
  flat_map (fun r => match r with
                     | MemDb.SentenceRow id ja en => [(id, ja, en)]
                     | MemDb.WordIndexRow _ _ => []
                     end)
    (MemDb.number id
       (map (fun '(word, sid) => DatabaseWrite.WordIndexObj word sid) entries))
  = []
  /\ flat_map (fun r => match r with
                        | MemDb.SentenceRow _ _ _ => []
                        | MemDb.WordIndexRow w sid => [(w, sid)]
                        end)
       (MemDb.number id
          (map (fun '(word, sid) => DatabaseWrite.WordIndexObj word sid)
               entries))
     = entries
  /\ MemDb.count_sentences
       (map (fun '(word, sid) => DatabaseWrite.WordIndexObj word sid) entries)
     = 0.
Proof.
  induction entries as [|[w sid] rest (IH1 & IH2 & IH3)]; cbn; [done|].
  by rewrite IH1, IH2, IH3.
Qed.

(** The state of the database after a run of [bulk_insert_sentences]
    without faults. *)
Lemma bulk_insert_sentences_run (db : MemDb.Db) sentences (b : Z) :
  0 < b -> MemDb.pending db = [] -> MemDb.faults db = [] ->
  DatabaseWrite.bulk_insert_sentences MemDb.session sentences b db
  = (PyX.Return tt,
     {| MemDb.rows :=
          MemDb.rows db
          ++ MemDb.number (MemDb.next_id db)
               (map (fun '(jp, en) => DatabaseWrite.SentenceObj jp en)
                    sentences);
        MemDb.pending := [];
        MemDb.next_id :=
          MemDb.next_id db
          + MemDb.count_sentences
              (map (fun '(jp, en) => DatabaseWrite.SentenceObj jp en)
                   sentences);
        MemDb.faults := [] |}).
Proof.
  intros Hb Hp Hf.
  exact (insert_without_faults
           (fun '(jp, en) => DatabaseWrite.SentenceObj jp en)
           sentences b Hb db Hp Hf).
Qed.

Lemma bulk_insert_word_index_run (db : MemDb.Db) entries (b : Z) :
  0 < b -> MemDb.pending db = [] -> MemDb.faults db = [] ->
  DatabaseWrite.bulk_insert_word_index MemDb.session entries b db
  = (PyX.Return tt,
     {| MemDb.rows :=
          MemDb.rows db
          ++ MemDb.number (MemDb.next_id db)
               (map (fun '(word, sid) => DatabaseWrite.WordIndexObj word sid)
                    entries);
        MemDb.pending := [];
        MemDb.next_id :=
          MemDb.next_id db
          + MemDb.count_sentences
              (map (fun '(word, sid) => DatabaseWrite.WordIndexObj word sid)
                   entries);
        MemDb.faults := [] |}).
Proof.
  intros Hb Hp Hf.
  exact (insert_without_faults
           (fun '(word, sid) => DatabaseWrite.WordIndexObj word sid)
           entries b Hb db Hp Hf).
Qed.

(** X8. Batching loses, repeats and reorders nothing.  On a database
    without faults and for every positive batch size,
    [bulk_insert_sentences] returns normally and leaves the sentence
    table extended by exactly the given sentences, in input order, under
    consecutive ids from the next id of the sequence, with the word index
    untouched; [bulk_insert_word_index] leaves the word index extended by
    exactly the given entries, in input order, with the sentence table
    untouched.  No row is left pending. *)
Theorem bulk_insert_appends (db : MemDb.Db)
    (sentences : list (str * str)) (word_entries : list (str * Z)) (b : Z) :
  0 < b -> MemDb.pending db = [] -> MemDb.faults db = [] ->
  let s := DatabaseWrite.bulk_insert_sentences MemDb.session sentences b db in
  let w := DatabaseWrite.bulk_insert_word_index MemDb.session word_entries b db in
  (s.1 = PyX.Return tt
   /\ MemDb.sentences s.2
      = MemDb.sentences db ++ MemDb.stored_from (MemDb.next_id db) sentences
   /\ MemDb.word_index s.2 = MemDb.word_index db
   /\ MemDb.next_id s.2 = MemDb.next_id db + len sentences
   /\ MemDb.pending s.2 = [])
  /\ (w.1 = PyX.Return tt
      /\ MemDb.word_index w.2 = MemDb.word_index db ++ word_entries
      /\ MemDb.sentences w.2 = MemDb.sentences db
      /\ MemDb.next_id w.2 = MemDb.next_id db
      /\ MemDb.pending w.2 = []).
Proof.
  intros Hb Hp Hf s w. unfold s, w.
  rewrite bulk_insert_sentences_run, bulk_insert_word_index_run by done.
  cbn [fst snd MemDb.pending MemDb.next_id].
  rewrite !sentences_app_rows, !word_index_app_rows.
  destruct (number_sentences (MemDb.next_id db) sentences) as (-> & -> & ->).
  destruct (number_word_entries (MemDb.next_id db) word_entries)
    as (-> & -> & ->).
  rewrite !app_nil_r, Z.add_0_r. done.
Qed.

Lemma bulk_insert_appends_witness :
  0 < 2 /\ MemDb.pending MemDb.fresh = [] /\ MemDb.faults MemDb.fresh = []
  /\ (DatabaseWrite.bulk_insert_sentences MemDb.session
        [(Sample.NEKO, [0x49]%N); (Sample.TABERU, [0x49]%N);
         (Sample.TABETA, [0x49]%N)] 2 MemDb.fresh).1 = PyX.Return tt.
Proof.
  split; [lia|]. split; [reflexivity|]. split; [reflexivity|].
  exact (proj1 (proj1 (bulk_insert_appends MemDb.fresh
    [(Sample.NEKO, [0x49]%N); (Sample.TABERU, [0x49]%N);
     (Sample.TABETA, [0x49]%N)] [] 2 ltac:(lia) eq_refl eq_refl))).
Defined.

Lemma texts_of_erased (db : MemDb.Db) :
  MemDb.texts db
  = flat_map (fun o => match o with
                       | DatabaseWrite.SentenceObj ja en => [(ja, en)]
                       | DatabaseWrite.WordIndexObj _ _ => []
                       end) (map MemDb.erase (MemDb.rows db)).
Proof.
  unfold MemDb.texts, MemDb.sentences.
  induction (MemDb.rows db) as [|[id ja en|w sid] rows IH]; cbn; [done| |done].
  by rewrite IH.
Qed.

Lemma word_index_of_erased (db : MemDb.Db) :
  MemDb.word_index db
  = flat_map (fun o => match o with
                       | DatabaseWrite.SentenceObj _ _ => []
                       | DatabaseWrite.WordIndexObj w sid => [(w, sid)]
                       end) (map MemDb.erase (MemDb.rows db)).
Proof.
  unfold MemDb.word_index.
  induction (MemDb.rows db) as [|[id ja en|w sid] rows IH]; cbn; [done|done|].
  by rewrite IH.
Qed.

Lemma erased_sentence_objs (l : list (str * str)) :
  flat_map (fun o => match o with
                     | DatabaseWrite.SentenceObj ja en => [(ja, en)]
                     | DatabaseWrite.WordIndexObj _ _ => []
                     end)
    (map (fun '(jp, en) => DatabaseWrite.SentenceObj jp en) l) = l
  /\ flat_map (fun o => match o with
                        | DatabaseWrite.SentenceObj _ _ => []
                        | DatabaseWrite.WordIndexObj w sid => [(w, sid)]
                        end)
       (map (fun '(jp, en) => DatabaseWrite.SentenceObj jp en) l) = [].
Proof.
  induction l as [|[ja en] l [IH1 IH2]]; cbn; [done|]. by rewrite IH1, IH2.
Qed.

Lemma erased_word_objs (l : list (str * Z)) :
  flat_map (fun o => match o with
                     | DatabaseWrite.SentenceObj ja en => [(ja, en)]
                     | DatabaseWrite.WordIndexObj _ _ => []
                     end)
    (map (fun '(word, sid) => DatabaseWrite.WordIndexObj word sid) l) = []
  /\ flat_map (fun o => match o with
                        | DatabaseWrite.SentenceObj _ _ => []
                        | DatabaseWrite.WordIndexObj w sid => [(w, sid)]
                        end)
       (map (fun '(word, sid) => DatabaseWrite.WordIndexObj word sid) l) = l.
Proof.
  induction l as [|[w sid] l [IH1 IH2]]; cbn; [done|]. by rewrite IH1, IH2.
Qed.

(** X9. A failed batch costs that batch and the ones after it, nothing
    else.  For every positive batch size and every script of faults, a
    bulk insert leaves no row pending, and what it has made durable is a
    prefix of the input made of whole batches.  It returns normally only
    with the whole input durable, and otherwise raises the backend's
    error again with a strict prefix durable: the batches committed
    before the failure stay.  The other table is not touched. *)
Theorem bulk_insert_keeps_whole_batches (db : MemDb.Db)
    (sentences : list (str * str)) (word_entries : list (str * Z)) (b : Z) :
  0 < b -> MemDb.pending db = [] ->
  let s := DatabaseWrite.bulk_insert_sentences MemDb.session sentences b db in
  let w := DatabaseWrite.bulk_insert_word_index MemDb.session word_entries b db in
  (MemDb.pending s.2 = []
   /\ MemDb.word_index s.2 = MemDb.word_index db
   /\ exists m : nat,
        MemDb.texts s.2
        = MemDb.texts db ++ take (m * Z.to_nat b) sentences
        /\ (s.1 = PyX.Return tt
            /\ MemDb.texts s.2 = MemDb.texts db ++ sentences
            \/ s.1 = PyX.Except (PyX.Base BackendError)
               /\ (m * Z.to_nat b < length sentences)%nat))
  /\ (MemDb.pending w.2 = []
      /\ MemDb.texts w.2 = MemDb.texts db
      /\ exists m : nat,
           MemDb.word_index w.2
           = MemDb.word_index db ++ take (m * Z.to_nat b) word_entries
           /\ (w.1 = PyX.Return tt
               /\ MemDb.word_index w.2 = MemDb.word_index db ++ word_entries
               \/ w.1 = PyX.Except (PyX.Base BackendError)
                  /\ (m * Z.to_nat b < length word_entries)%nat)).
Proof.
  intros Hb Hp s w. split.
  - assert (H : MemDb.pending s.2 = []
      /\ exists m : nat,
           map MemDb.erase (MemDb.rows s.2)
           = map MemDb.erase (MemDb.rows db)
             ++ map (fun '(jp, en) => DatabaseWrite.SentenceObj jp en)
                    (take (m * Z.to_nat b) sentences)
           /\ (s.1 = PyX.Return tt
               /\ map MemDb.erase (MemDb.rows s.2)
                  = map MemDb.erase (MemDb.rows db)
                    ++ map (fun '(jp, en) => DatabaseWrite.SentenceObj jp en)
                           sentences
               \/ s.1 = PyX.Except (PyX.Base BackendError)
                  /\ (m * Z.to_nat b < length sentences)%nat)).
    { exact (insert_with_faults
               (fun '(jp, en) => DatabaseWrite.SentenceObj jp en)
               sentences b Hb db Hp). }
    destruct H as (Hpend & m & Hrows & Hres).
    split; [exact Hpend|].
    rewrite !texts_of_erased, !word_index_of_erased.
    split.
    + rewrite Hrows, flat_map_app.
      rewrite (proj2 (erased_sentence_objs _)). by rewrite app_nil_r.
    + exists m. split.
      * rewrite Hrows, flat_map_app.
        by rewrite (proj1 (erased_sentence_objs _)).
      * destruct Hres as [[Hr Hall]|[Hr Hlt]]; [left|right; done].
        split; [done|]. rewrite Hall, flat_map_app.
        by rewrite (proj1 (erased_sentence_objs _)).
  - assert (H : MemDb.pending w.2 = []
      /\ exists m : nat,
           map MemDb.erase (MemDb.rows w.2)
           = map MemDb.erase (MemDb.rows db)
             ++ map (fun '(word, sid) => DatabaseWrite.WordIndexObj word sid)
                    (take (m * Z.to_nat b) word_entries)
           /\ (w.1 = PyX.Return tt
               /\ map MemDb.erase (MemDb.rows w.2)
                  = map MemDb.erase (MemDb.rows db)
                    ++ map (fun '(word, sid) =>
                              DatabaseWrite.WordIndexObj word sid)
                           word_entries
               \/ w.1 = PyX.Except (PyX.Base BackendError)
                  /\ (m * Z.to_nat b < length word_entries)%nat)).
    { exact (insert_with_faults
               (fun '(word, sid) => DatabaseWrite.WordIndexObj word sid)
               word_entries b Hb db Hp). }
    destruct H as (Hpend & m & Hrows & Hres).
    split; [exact Hpend|].
    rewrite !texts_of_erased, !word_index_of_erased.
    split.
    + rewrite Hrows, flat_map_app.
      rewrite (proj1 (erased_word_objs _)). by rewrite app_nil_r.
    + exists m. split.
      * rewrite Hrows, flat_map_app.
        by rewrite (proj2 (erased_word_objs _)).
      * destruct Hres as [[Hr Hall]|[Hr Hlt]]; [left|right; done].
        split; [done|]. rewrite Hall, flat_map_app.
        by rewrite (proj2 (erased_word_objs _)).
Qed.

(** Three entries in batches of one, the commit of the second batch
    failing: the first entry is durable, the error comes back. *)
Example bulk_insert_second_batch_fails :
  let db := {| MemDb.rows := []; MemDb.pending := []; MemDb.next_id := 1;
               MemDb.faults := [false; false; false; true] |} in
  let w := DatabaseWrite.bulk_insert_word_index MemDb.session
             [(Sample.NEKO, 1); (Sample.TABERU, 1); (Sample.TA, 2)] 1 db in
  w.1 = PyX.Except (PyX.Base BackendError)
  /\ MemDb.word_index w.2 = [(Sample.NEKO, 1)]
  /\ MemDb.pending w.2 = [].
Proof. vm_compute. done. Qed.

Lemma bulk_insert_keeps_whole_batches_witness :
  0 < 1 /\ MemDb.pending MemDb.fresh = []
  /\ MemDb.pending
       (DatabaseWrite.bulk_insert_sentences MemDb.session
          [(Sample.NEKO, [0x49]%N)] 1 MemDb.fresh).2 = [].
Proof.
  split; [lia|]. split; [reflexivity|].
  exact (proj1 (proj1 (bulk_insert_keeps_whole_batches MemDb.fresh
    [(Sample.NEKO, [0x49]%N)] [] 1 ltac:(lia) eq_refl))).
Defined.

(** X10. A batch size that is not positive inserts nothing, on every
    session.  With batch size 0 the loop header raises [ValueError]; the
    handler rolls back and raises it again, and no save or commit was
    attempted.  With a negative batch size the loop has no round: the
    method returns normally, silently, with the state of the session
    unchanged. *)
Theorem bulk_insert_bad_batch_size {W : Type}
    (Ss : DatabaseWrite.Session W)
    (sentences : list (str * str)) (word_entries : list (str * Z))
    (b : Z) (s : W) :
  DatabaseWrite.bulk_insert_sentences Ss sentences 0 s
  = (PyX.Except PyX.ValueError, DatabaseWrite.rollback Ss s)
  /\ DatabaseWrite.bulk_insert_word_index Ss word_entries 0 s
     = (PyX.Except PyX.ValueError, DatabaseWrite.rollback Ss s)
  /\ (b < 0 ->
      DatabaseWrite.bulk_insert_sentences Ss sentences b s = (PyX.Return tt, s)
      /\ DatabaseWrite.bulk_insert_word_index Ss word_entries b s
         = (PyX.Return tt, s)).
Proof.
  split; [done|]. split; [done|]. intros Hb.
  unfold DatabaseWrite.bulk_insert_sentences,
    DatabaseWrite.bulk_insert_word_index, DatabaseWrite.batch_starts,
    PyX.try_except.
  rewrite !range_negative_step by (unfold len; lia). done.
Qed.

Lemma bulk_insert_bad_batch_size_witness :
  -5 < 0
  /\ DatabaseWrite.bulk_insert_sentences MemDb.session
       [(Sample.NEKO, [0x49]%N)] (-5) MemDb.fresh
     = (PyX.Return tt, MemDb.fresh).
Proof.
  split; [lia|].
  exact (proj1 (proj2 (proj2 (bulk_insert_bad_batch_size MemDb.session
    [(Sample.NEKO, [0x49]%N)] [] (-5) MemDb.fresh)) ltac:(lia))).
Defined.

(** ** Loading a corpus and searching it *)

Lemma flat_map_ext_elem {A B} (f g : A -> list B) (l : list A) :
  (forall x, x ∈ l -> f x = g x) -> flat_map f l = flat_map g l.
Proof.
  induction l as [|a l IH]; intros Hfg; cbn; [done|].
  rewrite (Hfg a) by (by left). rewrite IH; [done|].
  intros x Hx. apply Hfg. by right.
Qed.

Lemma flat_map_bind {A B C} (f : A -> list B) (g : B -> list C) (l : list A) :
  flat_map g (l ≫= f) = flat_map (fun a => flat_map g (f a)) l.
Proof.
  induction l as [|a l IH]; [done|].
  rewrite bind_cons, flat_map_app. cbn. by rewrite IH.
Qed.

Lemma stored_from_elem sentences : forall K sid ja en,
  (sid, ja, en) ∈ MemDb.stored_from K sentences ->
  exists i : nat, sentences !! i = Some (ja, en) /\ sid = K + Z.of_nat i.
Proof.
  induction sentences as [|[ja' en'] rest IH]; intros K sid ja en; cbn.
  - by intros ?%elem_of_nil.
  - intros [[= -> -> ->]|Hin]%elem_of_cons.
    + exists 0%nat. split; [done | lia].
    + apply IH in Hin as (i & Hi & ->). exists (S i). split; [done | lia].
Qed.

Lemma stored_from_texts sentences : forall K (h : str -> str -> list (str * str)),
  flat_map (fun '(sid, ja, en) => h ja en) (MemDb.stored_from K sentences)
  = flat_map (fun '(ja, en) => h ja en) sentences.
Proof.
  induction sentences as [|[ja en] rest IH]; intros K h; cbn; [done|].
  by rewrite IH.
Qed.

Section JoinFacts.

Variable tagger : str -> option (list Tokenizer.Node).
Variable set_iter : gset str -> list str.
Variable p : str -> bool.

(** What the join yields for one sentence: the pair, once for each of
    its index words that satisfies the condition. *)
Let hits (ja en : str) : list (str * str) :=
  flat_map (fun w => if p w then [(ja, en)] else [])
           (set_iter (Tokenizer.get_lemmas_with_surface tagger ja)).

Lemma join_contribution (sid : Z) (ja en : str) (row : Z * str) :
  flat_map (fun '(w, i) => if (i =? sid) && p w then [(ja, en)] else [])
           (Loader.contribution tagger set_iter row)
  = if row.1 =? sid
    then flat_map (fun w => if p w then [(ja, en)] else [])
           (set_iter (Tokenizer.get_lemmas_with_surface tagger row.2))
    else [].
Proof.
  unfold Loader.contribution.
  induction (set_iter _) as [|w l IH]; cbn.
  - by destruct (row.1 =? sid).
  - rewrite IH. by destruct (row.1 =? sid).
Qed.

Lemma join_select (sentences : list (str * str)) :
  forall K (i : nat) sid (ja en : str) (h : str -> list (str * str)),
  (sentences !! i = Some (ja, en) /\ sid = K + Z.of_nat i
   -> flat_map (fun row : Z * str => if row.1 =? sid then h row.2 else [])
        (Rebuild.persisted_rows K sentences) = h ja)
  /\ (sid < K
      -> flat_map (fun row : Z * str => if row.1 =? sid then h row.2 else [])
           (Rebuild.persisted_rows K sentences) = []).
Proof.
  induction sentences as [|[ja' en'] rest IH]; intros K i sid ja en h.
  - split; [by intros [? _] | done].
  - cbn [Rebuild.persisted_rows flat_map fst snd]. split.
    + intros [Hi ->]. destruct i as [|i].
      * injection Hi as -> ->. rewrite Z.add_0_r, Z.eqb_refl.
        rewrite (proj2 (IH (K + 1) 0%nat K ja en h)) by lia.
        by rewrite app_nil_r.
      * destruct (Z.eqb_spec K (K + Z.of_nat (S i))); [lia|].
        cbn [app]. apply (proj1 (IH (K + 1) i _ ja en h)).
        split; [done | lia].
    + intros Hlt. destruct (Z.eqb_spec K sid); [lia|].
      cbn [app]. apply (proj2 (IH (K + 1) 0%nat sid ja en h)). lia.
Qed.

(** The join of a sentence table with the index built for it. *)
Lemma join_built_index (sentences : list (str * str)) (K : Z)
    (up : bool) (seed : nat) :
  Sample.join p
    {| Sample.sentences := MemDb.stored_from K sentences;
       Sample.word_index :=
         Loader.build_word_index tagger set_iter sentences K;
       Sample.up := up; Sample.seed := seed |}
  = flat_map (fun '(ja, en) => hits ja en) sentences.
Proof.
  unfold Sample.join. cbn [Sample.sentences Sample.word_index].
  rewrite <- (stored_from_texts sentences K hits).
  apply flat_map_ext_elem. intros [[sid ja] en] Hin.
  apply stored_from_elem in Hin as (i & Hi & ->).
  rewrite build_word_index_spec, flat_map_bind.
  rewrite (flat_map_ext_elem _
             (fun row : Z * str =>
                if row.1 =? K + Z.of_nat i
                then (fun ja' => flat_map (fun w => if p w then [(ja, en)] else [])
                        (set_iter (Tokenizer.get_lemmas_with_surface tagger ja')))
                       row.2
                else [])).
  - unfold hits.
    by apply (proj1 (join_select sentences K i (K + Z.of_nat i) ja en
      (fun ja' => flat_map (fun w => if p w then [(ja, en)] else [])
         (set_iter (Tokenizer.get_lemmas_with_surface tagger ja'))))).
  - intros row _. apply join_contribution.
Qed.

End JoinFacts.

Lemma hits_exact {A} (w : str) (a : A) (l : list str) :
  NoDup l ->
  flat_map (fun x => if bool_decide (x = w) then [a] else []) l
  = if decide (w ∈ l) then [a] else [].
Proof.
  induction 1 as [|x l Hx Hnd IH]; cbn.
  - rewrite decide_False; [done | apply not_elem_of_nil].
  - rewrite IH. case_bool_decide as Hxw.
    + subst x. rewrite decide_False by done.
      rewrite decide_True; [done | by left].
    + destruct (decide (w ∈ l)) as [Hin|Hout].
      * rewrite decide_True; [done | by right].
      * rewrite decide_False; [done|].
        intros [->|Hin]%elem_of_cons; done.
Qed.

Lemma hits_count {A} (p : str -> bool) (a : A) (l : list str) :
  flat_map (fun x => if p x then [a] else []) l
  = replicate (length (List.filter p l)) a.
Proof.
  induction l as [|x l IH]; cbn; [done|].
  rewrite IH. by destruct (p x).
Qed.

(** The database after [bulk_insert_sentences] and then
    [bulk_insert_word_index] of the index built from start id 1, run on
    the fresh database. *)
Lemma loaded_view tagger set_iter (sentences : list (str * str)) (b1 b2 : Z) :
  0 < b1 -> 0 < b2 ->
  let db1 := (DatabaseWrite.bulk_insert_sentences MemDb.session sentences b1
                MemDb.fresh).2 in
  let db2 := (DatabaseWrite.bulk_insert_word_index MemDb.session
                (Loader.build_word_index tagger set_iter sentences 1) b2
                db1).2 in
  (DatabaseWrite.bulk_insert_sentences MemDb.session sentences b1
     MemDb.fresh).1 = PyX.Return tt
  /\ (DatabaseWrite.bulk_insert_word_index MemDb.session
        (Loader.build_word_index tagger set_iter sentences 1) b2 db1).1
     = PyX.Return tt
  /\ MemDb.pending db2 = [] /\ MemDb.faults db2 = []
  /\ MemDb.sentences db2 = MemDb.stored_from 1 sentences
  /\ MemDb.word_index db2
     = Loader.build_word_index tagger set_iter sentences 1.
Proof.
  intros Hb1 Hb2 db1 db2. unfold db2, db1.
  rewrite bulk_insert_sentences_run by done. cbn [fst snd].
  rewrite bulk_insert_word_index_run by done. cbn [fst snd].
  split; [done|]. split; [done|]. split; [done|]. split; [done|].
  cbn [MemDb.rows MemDb.fresh MemDb.next_id app].
  rewrite sentences_app_rows, word_index_app_rows.
  destruct (number_sentences 1 sentences) as (-> & -> & _).
  match goal with
  | |- context [MemDb.number ?id (map _ ?es)] =>
      destruct (number_word_entries id es) as (-> & -> & _)
  end.
  by rewrite app_nil_r.
Qed.

(** What LIMIT keeps of rows handed out in some order: as many rows as
    the limit allows, each of them one of the rows, none more often than
    it is there; and all of the rows when the limit allows. *)
Lemma take_rearranged {A} (n : nat) (arranged rows : list A) :
  arranged ≡ₚ rows ->
  take n arranged ⊆+ rows
  /\ length (take n arranged) = (n `min` length rows)%nat
  /\ (length rows <= n -> take n arranged ≡ₚ rows)%nat.
Proof.
  intros Hp. split; [|split].
  - rewrite <- Hp. apply sublist_submseteq, sublist_take.
  - by rewrite length_take, (Permutation_length Hp).
  - intros Hn. rewrite take_ge; [done|]. rewrite (Permutation_length Hp). lia.
Qed.

(** The rows of the two joins on the database loaded from the fresh
    one. *)
Lemma loaded_join tagger set_iter (sentences : list (str * str))
    (b1 b2 : Z) (p : str -> bool) :
  0 < b1 -> 0 < b2 ->
  let db1 := (DatabaseWrite.bulk_insert_sentences MemDb.session sentences b1
                MemDb.fresh).2 in
  let db2 := (DatabaseWrite.bulk_insert_word_index MemDb.session
                (Loader.build_word_index tagger set_iter sentences 1)
                b2 db1).2 in
  Sample.join p (MemDb.view db2)
  = flat_map
      (fun s =>
         replicate
           (length (List.filter p
                      (set_iter (Tokenizer.get_lemmas_with_surface tagger s.1))))
           s)
      sentences.
Proof.
  intros Hb1 Hb2 db1 db2.
  destruct (loaded_view tagger set_iter sentences b1 b2 Hb1 Hb2)
    as (_ & _ & _ & _ & Hs & Hw).
  fold db1 in Hs, Hw. fold db2 in Hs, Hw.
  unfold MemDb.view. rewrite Hs, Hw, join_built_index.
  apply flat_map_ext_elem. intros [ja en] _. apply hits_count.
Qed.

Lemma exact_hits tagger set_iter (sentences : list (str * str)) (word : str) :
  Py.iterates_once set_iter ->
  flat_map
    (fun s =>
       replicate
         (length (List.filter (fun x => bool_decide (x = word))
                    (set_iter (Tokenizer.get_lemmas_with_surface tagger s.1))))
         s)
    sentences
  = filter (fun s => word ∈ Tokenizer.get_lemmas_with_surface tagger s.1)
           sentences.
Proof.
  intros Hiter.
  induction sentences as [|[ja en] rest IH]; cbn [flat_map]; [done|].
  rewrite filter_cons, IH. cbn [fst].
  rewrite <- hits_count, hits_exact.
  - destruct (decide (word ∈ set_iter _)) as [Hin|Hout].
    + rewrite decide_True; [done|].
      rewrite (Hiter _) in Hin. by apply elem_of_elements in Hin.
    + rewrite decide_False; [done|]. intros Hin. apply Hout.
      rewrite (Hiter _). by apply elem_of_elements.
  - rewrite (Hiter _). apply NoDup_elements.
Qed.

(** A statement with a limit that is not negative, run on the committed
    tables. *)
Lemma memdb_select_by_word arrange word limit (db : MemDb.Db) :
  0 <= limit ->
  Database.exec_rows (MemDb.backend_in arrange)
    (Database.SelectByWord word limit) db
  = (Some (take (Z.to_nat limit)
             (arrange (Database.SelectByWord word limit) (MemDb.view db)
                (Sample.join (fun x => bool_decide (x = word))
                   (MemDb.view db)))),
     db).
Proof.
  intros Hlimit. cbn [Database.exec_rows MemDb.backend_in].
  unfold Sample.answer_rows.
  change (Sample.up (MemDb.view db)) with true. cbn [negb].
  by destruct (Z.ltb_spec limit 0); [lia|].
Qed.

Lemma memdb_select_like arrange pattern limit (db : MemDb.Db) :
  0 <= limit ->
  Database.exec_rows (MemDb.backend_in arrange)
    (Database.SelectByWordLike pattern limit) db
  = (Some (take (Z.to_nat limit)
             (arrange (Database.SelectByWordLike pattern limit) (MemDb.view db)
                (Sample.join (Sample.like pattern) (MemDb.view db)))),
     db).
Proof.
  intros Hlimit. cbn [Database.exec_rows MemDb.backend_in].
  unfold Sample.answer_rows.
  change (Sample.up (MemDb.view db)) with true. cbn [negb].
  by destruct (Z.ltb_spec limit 0); [lia|].
Qed.

(** The exact lookup on the database loaded from the fresh one. *)
Lemma search_by_word_loaded
    (tagger : str -> option (list Tokenizer.Node))
    (set_iter : gset str -> list str) (arrange : Sample.Arrangement)
    (sentences : list (str * str)) (b1 b2 : Z) (word : str) (limit : Z)
    (t : list Database.Call) :
  Py.iterates_once set_iter -> 0 < b1 -> 0 < b2 -> 0 <= limit ->
  let db1 := (DatabaseWrite.bulk_insert_sentences MemDb.session sentences b1
                MemDb.fresh).2 in
  let db2 := (DatabaseWrite.bulk_insert_word_index MemDb.session
                (Loader.build_word_index tagger set_iter sentences 1)
                b2 db1).2 in
  Database.search_by_word (MemDb.backend_in arrange) word limit
    {| Database.conn := db2; Database.trace := t |}
  = (Ok (take (Z.to_nat limit)
           (arrange (Database.SelectByWord word limit) (MemDb.view db2)
              (filter (fun s => word
                         ∈ Tokenizer.get_lemmas_with_surface tagger s.1)
                      sentences))),
     {| Database.conn := db2;
        Database.trace :=
          t ++ [Database.Executed (Database.SelectByWord word limit)] |}).
Proof.
  intros Hiter Hb1 Hb2 Hlimit db1 db2.
  rewrite search_by_word_run. cbn [Database.conn Database.trace].
  rewrite memdb_select_by_word by done. cbn [fst snd].
  unfold db2, db1. rewrite (loaded_join tagger set_iter) by done.
  by rewrite exact_hits.
Qed.

(** X11. Insert, then look up.  Load sentences into the empty database as
    the loader does it: the sentences in batches, then the index built
    from start id 1 (the sentence count plus one) in batches.  Then the
    exact lookup of a word returns sentences whose word set holds the
    word, none of them more often than it was loaded, and as many of
    them as the limit allows: all of them, in some order, when there are
    no more than the limit.  Which of them are returned under a smaller
    limit, and in which order, is the choice of the backend. *)
Theorem load_then_search_by_word
    (tagger : str -> option (list Tokenizer.Node))
    (set_iter : gset str -> list str) (arrange : Sample.Arrangement)
    (sentences : list (str * str)) (b1 b2 : Z) (word : str) (limit : Z) :
  Py.iterates_once set_iter -> Sample.rearranges arrange ->
  0 < b1 -> 0 < b2 -> 0 <= limit ->
  let db1 := (DatabaseWrite.bulk_insert_sentences MemDb.session sentences b1
                MemDb.fresh).2 in
  let start_id := len (MemDb.sentences MemDb.fresh) + 1 in
  let db2 := (DatabaseWrite.bulk_insert_word_index MemDb.session
                (Loader.build_word_index tagger set_iter sentences start_id)
                b2 db1).2 in
  let hits :=
    filter (fun s => word ∈ Tokenizer.get_lemmas_with_surface tagger s.1)
           sentences in
  exists rows,
    (Database.search_by_word (MemDb.backend_in arrange) word limit
       {| Database.conn := db2; Database.trace := [] |}).1 = Ok rows
    /\ rows ⊆+ hits
    /\ length rows = (Z.to_nat limit `min` length hits)%nat
    /\ (length hits <= Z.to_nat limit -> rows ≡ₚ hits)%nat.
Proof.
  intros Hiter Harr Hb1 Hb2 Hlimit db1 start_id db2 hits.
  change start_id with 1 in *. unfold db2, db1.
  rewrite search_by_word_loaded by done. cbn [fst].
  eexists. split; [reflexivity|].
  apply take_rearranged, Harr.
Qed.

Lemma load_then_search_by_word_witness :
  Py.iterates_once Sample.set_iter /\ Sample.rearranges Sample.backwards
  /\ 0 < 1 /\ 0 < 2 /\ 0 <= 5
  /\ exists rows,
       (Database.search_by_word (MemDb.backend_in Sample.backwards)
          Sample.TABERU 5
          {| Database.conn :=
               (DatabaseWrite.bulk_insert_word_index MemDb.session
                  (Loader.build_word_index Sample.tagger Sample.set_iter
                     [(Sample.NEKO, [0x49]%N); (Sample.TABETA, [0x4A]%N)]
                     (len (MemDb.sentences MemDb.fresh) + 1))
                  2
                  (DatabaseWrite.bulk_insert_sentences MemDb.session
                     [(Sample.NEKO, [0x49]%N); (Sample.TABETA, [0x4A]%N)] 1
                     MemDb.fresh).2).2;
             Database.trace := [] |}).1
       = Ok rows
       /\ rows ⊆+ filter (fun s => Sample.TABERU
                            ∈ Tokenizer.get_lemmas_with_surface Sample.tagger s.1)
                    [(Sample.NEKO, [0x49]%N); (Sample.TABETA, [0x4A]%N)].
Proof.
  split; [exact sample_iterates_once|].
  split; [exact backwards_rearranges|].
  split; [lia|]. split; [lia|]. split; [lia|].
  destruct (load_then_search_by_word Sample.tagger Sample.set_iter
              Sample.backwards
              [(Sample.NEKO, [0x49]%N); (Sample.TABETA, [0x4A]%N)] 1 2
              Sample.TABERU 5 sample_iterates_once backwards_rearranges
              ltac:(lia) ltac:(lia) ltac:(lia)) as (rows & Hrun & Hsub & _).
  exists rows. split; [exact Hrun | exact Hsub].
Defined.

(** A pattern that is a word followed by a percent sign matches the
    texts that start with the word, provided the word has no percent
    sign, underscore or backslash of its own. *)
Lemma like_percent (s : str) : Sample.like [0x25]%N s = true.
Proof. induction s as [|c s IH]; [reflexivity|]. cbn. cbn in IH. by rewrite IH. Qed.

Lemma like_prefix (word s : str) :
  Forall (fun c => is_like_special c = false) word ->
  Sample.like (word ++ [0x25]%N) s = true <-> word `prefix_of` s.
Proof.
  intros Hword. revert s.
  induction Hword as [|c word Hc _ IH]; intros s.
  - cbn [app]. rewrite like_percent. split; [intros _; apply prefix_nil | done].
  - unfold is_like_special in Hc.
    apply orb_false_elim in Hc as [Hc H3].
    apply orb_false_elim in Hc as [H1 H2].
    cbn [app Sample.like]. rewrite H1, H2, H3.
    destruct s as [|x s].
    + split; [done|]. intros [k Hk]. discriminate.
    + destruct (N.eqb_spec x c) as [->|Hxc]; cbn [andb].
      * rewrite IH. split.
        -- by apply prefix_cons.
        -- by intros ?%prefix_cons_inv_2.
      * split; [done|]. by intros ?%prefix_cons_inv_1.
Qed.

(** X12. The lookup of the second tier repeats a sentence.  On the
    database loaded as in X11, [search_by_partial_word] returns the
    sentences once for each of their index words that the pattern
    matches, as many as the limit allows and in the order the backend
    chooses: a sentence with two matching index words can be listed
    twice.  The pattern is the word followed by a percent sign; for a
    word without a percent sign, underscore or backslash it matches the
    index words that start with the word. *)
Theorem load_then_search_by_partial_word
    (tagger : str -> option (list Tokenizer.Node))
    (set_iter : gset str -> list str) (arrange : Sample.Arrangement)
    (sentences : list (str * str)) (b1 b2 : Z) (word : str) (limit : Z) :
  Sample.rearranges arrange -> 0 < b1 -> 0 < b2 -> 0 <= limit ->
  let db1 := (DatabaseWrite.bulk_insert_sentences MemDb.session sentences b1
                MemDb.fresh).2 in
  let start_id := len (MemDb.sentences MemDb.fresh) + 1 in
  let db2 := (DatabaseWrite.bulk_insert_word_index MemDb.session
                (Loader.build_word_index tagger set_iter sentences start_id)
                b2 db1).2 in
  let matching (s : str * str) :=
    List.filter (Sample.like (word ++ [0x25]%N))
      (set_iter (Tokenizer.get_lemmas_with_surface tagger s.1)) in
  let hits := flat_map (fun s => replicate (length (matching s)) s) sentences in
  (exists rows,
     (Database.search_by_partial_word (MemDb.backend_in arrange) word limit
        {| Database.conn := db2; Database.trace := [] |}).1 = Ok rows
     /\ rows ⊆+ hits
     /\ length rows = (Z.to_nat limit `min` length hits)%nat
     /\ (length hits <= Z.to_nat limit -> rows ≡ₚ hits)%nat)
  /\ (Forall (fun c => is_like_special c = false) word ->
      forall s x, x ∈ matching s <->
        x ∈ set_iter (Tokenizer.get_lemmas_with_surface tagger s.1)
        /\ word `prefix_of` x).
Proof.
  intros Harr Hb1 Hb2 Hlimit db1 start_id db2 matching hits.
  change start_id with 1 in *. split.
  - rewrite search_by_partial_word_run. cbn [Database.conn].
    rewrite memdb_select_like by done. cbn [fst].
    unfold db2, db1. rewrite (loaded_join tagger set_iter) by done.
    eexists. split; [reflexivity|].
    apply take_rearranged, Harr.
  - intros Hword s x. unfold matching.
    rewrite list_elem_of_In, filter_In, <- list_elem_of_In.
    by rewrite like_prefix.
Qed.

Lemma load_then_search_by_partial_word_witness :
  Sample.rearranges Sample.backwards /\ 0 < 1 /\ 0 < 1 /\ 0 <= 5
  /\ exists rows,
       (Database.search_by_partial_word (MemDb.backend_in Sample.backwards)
          Sample.TABE 5
          {| Database.conn :=
               (DatabaseWrite.bulk_insert_word_index MemDb.session
                  (Loader.build_word_index Sample.tagger Sample.set_iter
                     [(Sample.TABETA, [0x4A]%N)]
                     (len (MemDb.sentences MemDb.fresh) + 1))
                  1
                  (DatabaseWrite.bulk_insert_sentences MemDb.session
                     [(Sample.TABETA, [0x4A]%N)] 1 MemDb.fresh).2).2;
             Database.trace := [] |}).1
       = Ok rows
       /\ length rows = 2%nat.
Proof.
  split; [exact backwards_rearranges|].
  split; [lia|]. split; [lia|]. split; [lia|].
  destruct (proj1 (load_then_search_by_partial_word Sample.tagger
              Sample.set_iter Sample.backwards
              [(Sample.TABETA, [0x4A]%N)] 1 1 Sample.TABE 5
              backwards_rearranges ltac:(lia) ltac:(lia) ltac:(lia)))
    as (rows & Hrun & _ & Hlen & _).
  exists rows. split; [exact Hrun|]. rewrite Hlen. vm_compute. reflexivity.
Defined.

(** ** The entry points of the scripts *)

Lemma get_sentence_count_run {W} (B : Database.Backend W) w :
  Database.get_sentence_count B w
  = (Ok (match (Database.exec_scalar B Database.SelectCount
                  (Database.conn w)).1 with
         | Some count => Database.or_zero count
         | None => 0
         end),
     {| Database.conn := (Database.exec_scalar B Database.SelectCount
                            (Database.conn w)).2;
        Database.trace := Database.trace w
                          ++ [Database.Executed Database.SelectCount] |}).
Proof.
  unfold Database.get_sentence_count, Database.try_except,
    Database.execute_scalar, Database.logger_error.
  unfold mbind, Database.M_bind, Database.bind, Database.ret.
  by destruct (Database.exec_scalar B Database.SelectCount (Database.conn w))
    as [[count|] c'].
Qed.

Lemma get_random_sentence_run {W} (B : Database.Backend W) w :
  Database.get_random_sentence B w
  = (Ok (match (Database.exec_rows B Database.SelectRandom
                  (Database.conn w)).1 with
         | Some ((jp, en) :: _) => (Some jp, Some en)
         | _ => (None, None)
         end),
     {| Database.conn := (Database.exec_rows B Database.SelectRandom
                            (Database.conn w)).2;
        Database.trace := Database.trace w
                          ++ [Database.Executed Database.SelectRandom] |}).
Proof.
  unfold Database.get_random_sentence, Database.try_except,
    Database.execute_all, Database.logger_error.
  unfold mbind, Database.M_bind, Database.bind, Database.ret.
  by destruct (Database.exec_rows B Database.SelectRandom (Database.conn w))
    as [[[|[jp en] rows]|] c'].
Qed.


Lemma rebuild_script_run tagger set_iter (arrange : Sample.Arrangement)
    (db : MemDb.Db) (t : list Database.Call) :
  MemDb.pending db = [] -> MemDb.faults db = [] ->
  Scripts.rebuild_word_index (MemDb.backend_in arrange) MemDb.session
    tagger set_iter {| Database.conn := db; Database.trace := t |}
  = (PyX.Return tt,
     {| Database.conn :=
          (DatabaseWrite.bulk_insert_word_index MemDb.session
             (Rebuild.rebuild_word_index tagger set_iter
                (map (fun '(id, ja, _) => (id, ja)) (MemDb.sentences db)))
             50000 db).2;
        Database.trace := t ++ [Database.Executed Database.SelectCount] |}).
Proof.
  intros Hp Hf.
  unfold Scripts.rebuild_word_index, PyX.try_except,
    DatabaseWrite.db_connect, PyX.on_conn, PyX.lift, Scripts.fetch_sentences,
    DatabaseWrite.attempt, DatabaseWrite.logger_info,
    DatabaseWrite.logger_error.
  unfold mbind, PyX.X_bind, PyX.bind, PyX.ret, PyX.raise, PyX.try_except.
  cbn [DatabaseWrite.connect DatabaseWrite.show_client_encoding
       DatabaseWrite.select_id_japanese MemDb.session fst snd
       Database.conn Database.trace].
  rewrite get_sentence_count_run.
  cbn [fst snd Database.conn Database.trace Database.exec_scalar
       MemDb.backend_in].
  rewrite bulk_insert_word_index_run by (done || lia).
  done.
Qed.

Lemma rebuild_script_state tagger set_iter (arrange : Sample.Arrangement)
    (db : MemDb.Db) :
  MemDb.pending db = [] -> MemDb.faults db = [] ->
  let out := Scripts.rebuild_word_index (MemDb.backend_in arrange)
               MemDb.session tagger set_iter
               {| Database.conn := db; Database.trace := [] |} in
  out.1 = PyX.Return tt
  /\ MemDb.sentences (Database.conn out.2) = MemDb.sentences db
  /\ MemDb.word_index (Database.conn out.2)
     = MemDb.word_index db
       ++ Rebuild.rebuild_word_index tagger set_iter
            (map (fun '(id, ja, _) => (id, ja)) (MemDb.sentences db)).
Proof.
  intros Hp Hf out. unfold out. rewrite rebuild_script_run by done.
  cbn [fst snd Database.conn]. split; [done|].
  rewrite bulk_insert_word_index_run by (done || lia). cbn [snd].
  rewrite sentences_app_rows, word_index_app_rows.
  match goal with
  | |- context [MemDb.number ?id (map _ ?es)] =>
      destruct (number_word_entries id es) as (-> & -> & _)
  end.
  by rewrite app_nil_r.
Qed.

(** X14. The rebuild script adds and never removes.  On a database
    without faults it returns normally, leaves the sentence table as it
    is, and leaves the word index as it was with the pairs derived from
    the stored sentences appended: the entries that were there before
    the run are all still there. *)
Theorem rebuild_script_appends
    (tagger : str -> option (list Tokenizer.Node))
    (set_iter : gset str -> list str) (db : MemDb.Db) :
  MemDb.pending db = [] -> MemDb.faults db = [] ->
  let out := Scripts.rebuild_word_index MemDb.backend MemDb.session
               tagger set_iter
               {| Database.conn := db; Database.trace := [] |} in
  out.1 = PyX.Return tt
  /\ MemDb.sentences (Database.conn out.2) = MemDb.sentences db
  /\ MemDb.word_index (Database.conn out.2)
     = MemDb.word_index db
       ++ Rebuild.rebuild_word_index tagger set_iter
            (map (fun '(id, ja, _) => (id, ja)) (MemDb.sentences db))
  /\ (forall entry, entry ∈ MemDb.word_index db ->
                    entry ∈ MemDb.word_index (Database.conn out.2)).
Proof.
  intros Hp Hf out.
  destruct (rebuild_script_state tagger set_iter Sample.listed db Hp Hf)
    as (H1 & H2 & H3).
  change (MemDb.backend_in Sample.listed) with MemDb.backend in H1, H2, H3.
  fold out in H1, H2, H3.
  split; [done|]. split; [done|]. split; [done|].
  intros entry Hin. rewrite H3. apply elem_of_app. by left.
Qed.

Lemma rebuild_script_appends_witness :
  MemDb.pending MemDb.fresh = [] /\ MemDb.faults MemDb.fresh = []
  /\ (Scripts.rebuild_word_index MemDb.backend MemDb.session
        Sample.tagger Sample.set_iter
        {| Database.conn := MemDb.fresh; Database.trace := [] |}).1
     = PyX.Return tt.
Proof.
  split; [reflexivity|]. split; [reflexivity|].
  exact (proj1 (rebuild_script_appends Sample.tagger Sample.set_iter
                  MemDb.fresh eq_refl eq_refl)).
Defined.

Lemma stored_rows_fetched (sentences : list (str * str)) : forall K,
  map (fun '(id, ja, _) => (id, ja)) (MemDb.stored_from K sentences)
  = Rebuild.persisted_rows K sentences.
Proof.
  induction sentences as [|[ja en] rest IH]; intros K; cbn; [done|].
  by rewrite IH.
Qed.

Lemma join_doubled_index tagger set_iter (p : str -> bool)
    (sentences : list (str * str)) (K : Z) (up : bool) (seed : nat) :
  Sample.join p
    {| Sample.sentences := MemDb.stored_from K sentences;
       Sample.word_index :=
         Loader.build_word_index tagger set_iter sentences K
         ++ Loader.build_word_index tagger set_iter sentences K;
       Sample.up := up; Sample.seed := seed |}
  = flat_map
      (fun '(ja, en) =>
         flat_map (fun w => if p w then [(ja, en)] else [])
           (set_iter (Tokenizer.get_lemmas_with_surface tagger ja))
         ++ flat_map (fun w => if p w then [(ja, en)] else [])
              (set_iter (Tokenizer.get_lemmas_with_surface tagger ja)))
      sentences.
Proof.
  unfold Sample.join. cbn [Sample.sentences Sample.word_index].
  rewrite <- (stored_from_texts sentences K
    (fun ja en =>
       flat_map (fun w => if p w then [(ja, en)] else [])
         (set_iter (Tokenizer.get_lemmas_with_surface tagger ja))
       ++ flat_map (fun w => if p w then [(ja, en)] else [])
            (set_iter (Tokenizer.get_lemmas_with_surface tagger ja)))).
  apply flat_map_ext_elem. intros [[sid ja] en] Hin.
  apply stored_from_elem in Hin as (i & Hi & ->).
  rewrite flat_map_app, build_word_index_spec, flat_map_bind.
  rewrite (flat_map_ext_elem _
             (fun row : Z * str =>
                if row.1 =? K + Z.of_nat i
                then (fun ja' => flat_map (fun w => if p w then [(ja, en)] else [])
                        (set_iter (Tokenizer.get_lemmas_with_surface tagger ja')))
                       row.2
                else [])).
  - by rewrite (proj1 (join_select sentences K i (K + Z.of_nat i) ja en
      (fun ja' => flat_map (fun w => if p w then [(ja, en)] else [])
         (set_iter (Tokenizer.get_lemmas_with_surface tagger ja'))))).
  - intros row _. apply join_contribution.
Qed.

Lemma doubled_hits {A} (P : A -> Prop) `{forall x, Decision (P x)}
    (l : list A) :
  flat_map (fun x => (if decide (P x) then [x] else [])
                     ++ (if decide (P x) then [x] else [])) l
  ≡ₚ filter P l ++ filter P l.
Proof.
  induction l as [|x l IH]; cbn [flat_map]; [done|].
  rewrite filter_cons, IH. destruct (decide (P x)); cbn [app]; [|done].
  by rewrite <- Permutation_middle.
Qed.

(** X15. After a rebuild every hit is there twice.  Load sentences into
    the empty database as in X11 and run the rebuild script once: the
    index now holds every pair twice, and the rows of the exact lookup
    of a word are the sentences whose word set holds the word, each of
    them two times.  The lookup returns as many of these rows as the
    limit allows: all of them, in some order, when the limit is at
    least twice the number of hits, so that a limit which showed every
    hit before the rebuild now shows each of them twice or leaves hits
    out. *)
Theorem rebuild_doubles_hits
    (tagger : str -> option (list Tokenizer.Node))
    (set_iter : gset str -> list str) (arrange : Sample.Arrangement)
    (sentences : list (str * str)) (b1 b2 : Z) (word : str) (limit : Z) :
  Py.iterates_once set_iter -> Sample.rearranges arrange ->
  0 < b1 -> 0 < b2 -> 0 <= limit ->
  let db1 := (DatabaseWrite.bulk_insert_sentences MemDb.session sentences b1
                MemDb.fresh).2 in
  let db2 := (DatabaseWrite.bulk_insert_word_index MemDb.session
                (Loader.build_word_index tagger set_iter sentences 1)
                b2 db1).2 in
  let db3 := Database.conn
               (Scripts.rebuild_word_index (MemDb.backend_in arrange)
                  MemDb.session tagger set_iter
                  {| Database.conn := db2; Database.trace := [] |}).2 in
  let hits :=
    filter (fun s => word ∈ Tokenizer.get_lemmas_with_surface tagger s.1)
           sentences in
  MemDb.word_index db3
  = Loader.build_word_index tagger set_iter sentences 1
    ++ Loader.build_word_index tagger set_iter sentences 1
  /\ exists rows,
       (Database.search_by_word (MemDb.backend_in arrange) word limit
          {| Database.conn := db3; Database.trace := [] |}).1 = Ok rows
       /\ rows ⊆+ hits ++ hits
       /\ length rows = (Z.to_nat limit `min` (2 * length hits))%nat
       /\ (2 * length hits <= Z.to_nat limit -> rows ≡ₚ hits ++ hits)%nat.
Proof.
  intros Hiter Harr Hb1 Hb2 Hlimit db1 db2 db3 hits.
  destruct (loaded_view tagger set_iter sentences b1 b2 Hb1 Hb2)
    as (_ & _ & Hp & Hf & Hs & Hw).
  fold db1 in Hp, Hf, Hs, Hw. fold db2 in Hp, Hf, Hs, Hw.
  destruct (rebuild_script_state tagger set_iter arrange db2 Hp Hf)
    as (_ & Hs3 & Hw3).
  fold db3 in Hs3, Hw3.
  rewrite Hs, stored_rows_fetched, rebuild_word_index_spec,
    <- build_word_index_spec, Hw in Hw3.
  rewrite Hs in Hs3.
  split; [exact Hw3|].
  rewrite search_by_word_run. cbn [Database.conn].
  rewrite memdb_select_by_word by done. cbn [fst].
  eexists. split; [reflexivity|].
  assert (Hrows :
    arrange (Database.SelectByWord word limit) (MemDb.view db3)
      (Sample.join (fun x => bool_decide (x = word)) (MemDb.view db3))
    ≡ₚ hits ++ hits).
  { rewrite (Harr _ _ _). unfold MemDb.view.
    rewrite Hs3, Hw3, join_doubled_index.
    unfold hits.
    rewrite (flat_map_ext_elem _
      (fun s : str * str =>
         (if decide (word ∈ Tokenizer.get_lemmas_with_surface tagger s.1)
          then [s] else [])
         ++ (if decide (word ∈ Tokenizer.get_lemmas_with_surface tagger s.1)
             then [s] else []))
      sentences).
    - apply (doubled_hits
               (fun s : str * str =>
                  word ∈ Tokenizer.get_lemmas_with_surface tagger s.1)).
    - intros [ja en] _. cbn [fst].
      rewrite hits_exact by (rewrite (Hiter _); apply NoDup_elements).
      destruct (decide (word ∈ set_iter _)) as [Hin|Hout].
      + rewrite decide_True; [done|].
        rewrite (Hiter _) in Hin. by apply elem_of_elements in Hin.
      + rewrite decide_False; [done|]. intros Hin. apply Hout.
        rewrite (Hiter _). by apply elem_of_elements. }
  pose proof (take_rearranged (Z.to_nat limit) _ _ Hrows) as (H1 & H2 & H3).
  rewrite length_app in H2, H3.
  split; [exact H1|]. split; [rewrite H2; f_equal; lia|].
  intros Hle. apply H3. lia.
Qed.

Lemma rebuild_doubles_hits_witness :
  Py.iterates_once Sample.set_iter /\ Sample.rearranges Sample.backwards
  /\ 0 < 1 /\ 0 < 1 /\ 0 <= 5
  /\ MemDb.word_index
       (Database.conn
          (Scripts.rebuild_word_index (MemDb.backend_in Sample.backwards)
             MemDb.session Sample.tagger Sample.set_iter
             {| Database.conn :=
                  (DatabaseWrite.bulk_insert_word_index MemDb.session
                     (Loader.build_word_index Sample.tagger
                        Sample.set_iter [(Sample.NEKO, [0x49]%N)] 1)
                     1
                     (DatabaseWrite.bulk_insert_sentences MemDb.session
                        [(Sample.NEKO, [0x49]%N)] 1 MemDb.fresh).2).2;
                Database.trace := [] |}).2)
     = [(Sample.NEKO, 1); (Sample.NEKO, 1)].
Proof.
  split; [exact sample_iterates_once|].
  split; [exact backwards_rearranges|].
  split; [lia|]. split; [lia|]. split; [lia|].
  etrans.
  - exact (proj1 (rebuild_doubles_hits Sample.tagger Sample.set_iter
             Sample.backwards [(Sample.NEKO, [0x49]%N)] 1 1 Sample.NEKO 5
             sample_iterates_once backwards_rearranges
             ltac:(lia) ltac:(lia) ltac:(lia))).
  - vm_compute. reflexivity.
Defined.

(** ** The replies of the bot *)

(** X16. The search command answers only when it found something.  The
    full command sends the embed built from the results exactly when the
    search returned a non-empty list.  When every tier came back empty,
    the reply for that case is never sent: building it calls
    [add_field] with the keyword [values], which raises [TypeError].
    An exception of the search reaches the caller as it is. *)
Theorem sentence_command_reply {W : Type} (B : Database.Backend W)
    (tagger : str -> option (list Tokenizer.Node))
    (set_iter : gset str -> list str)
    (word : str) (limit : Z) (w : Database.World W) :
  let search := Bot.sentence_command B tagger set_iter word limit w in
  let out := Replies.sentence_command B tagger set_iter word limit w in
  out.2 = search.2
  /\ match search.1 with
     | Ok [] => out.1 = PyX.Except PyX.TypeError
     | Ok (r :: rs) =>
         out.1 = PyX.Return (Replies.results_embed word (r :: rs))
     | Raise e => out.1 = PyX.Except (PyX.Base e)
     end
  /\ ((exists embed, out.1 = PyX.Return embed)
      <-> exists r rs, search.1 = Ok (r :: rs)).
Proof.
  intros search out. unfold out, search.
  unfold Replies.sentence_command, Replies.followup_send,
    Replies.no_results_embed, Replies.add_field_values, PyX.lift.
  unfold mbind, PyX.X_bind, PyX.bind, PyX.ret, PyX.raise.
  destruct (Bot.sentence_command B tagger set_iter word limit w)
    as [[[|r rs]|e] w']; cbn [fst snd].
  - split; [done|]. split; [done|]. split.
    + intros [embed [=]].
    + intros (r & rs & [=]).
  - split; [done|]. split; [done|]. split; [by exists r, rs | by eexists].
  - split; [done|]. split; [done|]. split.
    + intros [embed [=]].
    + intros (r & rs & [=]).
Qed.

(** No result on the sample store: the reply is lost. *)
Example sentence_command_reply_none :
  (Replies.sentence_command Sample.backend Sample.tagger Sample.set_iter
     Sample.TA 5 (Sample.start Sample.store)).1
  = PyX.Except PyX.TypeError.
Proof. vm_compute. reflexivity. Qed.

Lemma display_short (text : str) :
  len text <= 200 -> Replies.display text = text.
Proof.
  intros H. unfold Replies.display. by destruct (Z.leb_spec (len text) 200); [|lia].
Qed.

Lemma display_long (text : str) :
  200 < len text ->
  Replies.display text = take 197 text ++ Lit.DOTS
  /\ len (Replies.display text) = 200.
Proof.
  intros H. unfold Replies.display.
  destruct (Z.leb_spec (len text) 200); [lia|].
  assert (Hslice : PyX.slice text 0 197 = take 197 text).
  { unfold PyX.slice, PyX.clip. cbn [Z.ltb Z.compare].
    unfold len in *.
    replace (Z.to_nat (0 `min` Z.of_nat (length text))) with 0%nat by lia.
    replace (Z.to_nat (197 `min` Z.of_nat (length text))) with 197%nat by lia.
    done. }
  rewrite Hslice. split; [done|].
  unfold len in *. rewrite length_app, length_take.
  change (length Lit.DOTS) with 3%nat. lia.
Qed.

Lemma display_bound (text : str) : len (Replies.display text) <= 200.
Proof.
  destruct (Z.le_gt_cases (len text) 200) as [H|H].
  - by rewrite display_short.
  - rewrite (proj2 (display_long text H)). lia.
Qed.

Lemma add_examples_fields results : forall idx embed,
  Discord.fields (Replies.add_examples idx results embed)
  = Discord.fields embed
    ++ imap (fun i '(ja, en) =>
               {| Discord.name := Lit.EXAMPLE ++ Lit.str_of_Z (idx + Z.of_nat i);
                  Discord.value := Lit.JP ++ Replies.display ja ++ Lit.EN
                                   ++ Replies.display en;
                  Discord.inline := false |}) results.
Proof.
  induction results as [|[ja en] rest IH]; intros idx embed;
    cbn [Replies.add_examples imap].
  - by rewrite app_nil_r.
  - rewrite IH. cbn [Discord.add_field Discord.fields].
    rewrite <- app_assoc. cbn [app]. rewrite Z.add_0_r. do 2 f_equal.
    apply imap_ext. intros i [ja' en'] _. unfold compose.
    by replace (idx + 1 + Z.of_nat i) with (idx + Z.of_nat (S i)) by lia.
Qed.

(** X17. The reply to a successful search has one field for each result,
    in order, named [Example 1], [Example 2], ...  A text of at most 200
    characters is shown whole; a longer one is cut to its first 197
    characters followed by three dots, 200 characters in all.  So the
    value of a field never has more than 410 characters, however long
    the stored texts are. *)
Theorem results_embed_fields (word : str) (results : list (str * str)) :
  length (Discord.fields (Replies.results_embed word results))
  = length results
  /\ (forall (i : nat) ja en,
        results !! i = Some (ja, en) ->
        Discord.fields (Replies.results_embed word results) !! i
        = Some {| Discord.name := Lit.EXAMPLE ++ Lit.str_of_Z (1 + Z.of_nat i);
                  Discord.value := Lit.JP ++ Replies.display ja ++ Lit.EN
                                   ++ Replies.display en;
                  Discord.inline := false |})
  /\ Forall (fun f => len (Discord.value f) <= 410)
            (Discord.fields (Replies.results_embed word results))
  /\ (forall text : str,
        (len text <= 200 -> Replies.display text = text)
        /\ (200 < len text ->
            Replies.display text = take 197 text ++ Lit.DOTS
            /\ len (Replies.display text) = 200)).
Proof.
  unfold Replies.results_embed. cbn [Discord.set_footer Discord.fields].
  rewrite add_examples_fields. cbn [Discord.fields app].
  split; [by rewrite length_imap|]. split; [|split].
  - intros i ja en Hi. rewrite list_lookup_imap, Hi. done.
  - apply Forall_forall. intros f Hf.
    apply list_elem_of_lookup in Hf as [i Hf].
    rewrite list_lookup_imap in Hf.
    destruct (results !! i) as [[ja en]|]; [|done].
    apply (inj Some) in Hf. rewrite <- Hf. cbn [Discord.value].
    pose proof (display_bound ja). pose proof (display_bound en).
    unfold len in *. rewrite !length_app.
    change (length Lit.JP) with 4%nat. change (length Lit.EN) with 6%nat.
    lia.
  - intros text. split; [apply display_short | apply display_long].
Qed.

(** X18. The random command always answers.  It never raises; it sends
    the sentence in the first row the backend returns when both its
    texts are non-empty, and the error embed in every other case: the
    backend failed, the corpus is empty, or a text of the row is empty. *)
Theorem random_command_reply {W : Type} (B : Database.Backend W)
    (w : Database.World W) :
  let out := Replies.random_command B w in
  (exists embed, out.1 = PyX.Return embed)
  /\ match (Database.exec_rows B Database.SelectRandom (Database.conn w)).1 with
     | Some ((ja, en) :: _) =>
         if bool_decide (ja <> [] /\ en <> [])
         then out.1 = PyX.Return (Replies.random_embed ja en)
         else out.1 = PyX.Return Replies.error_embed
     | Some [] => out.1 = PyX.Return Replies.error_embed
     | None => out.1 = PyX.Return Replies.error_embed
     end.
Proof.
  intros out. unfold out, Replies.random_command, Replies.followup_send,
    PyX.lift, DatabaseWrite.logger_info.
  unfold mbind, PyX.X_bind, PyX.bind, PyX.ret.
  rewrite get_random_sentence_run.
  destruct (Database.exec_rows B Database.SelectRandom (Database.conn w)).1
    as [[|[ja en] rows]|]; cbn [fst snd].
  - split; [by eexists | done].
  - split; [by eexists|].
    destruct ja as [|j ja], en as [|e en];
      [ rewrite bool_decide_eq_false_2 by (intros [? ?]; done)
      | rewrite bool_decide_eq_false_2 by (intros [? ?]; done)
      | rewrite bool_decide_eq_false_2 by (intros [? ?]; done)
      | rewrite bool_decide_eq_true_2 by done ];
      reflexivity.
  - split; [by eexists | done].
Qed.

(** X19. Startup does not notice a database that cannot be queried.  In
    [setup_hook] only a failure to create the connection ends the
    process, with exit status 1 and before the commands are synced.
    Once the connection is created, the commands are synced whether or
    not the count query succeeds: [get_sentence_count] turns a failure
    into a count of 0. *)
Theorem setup_hook_startup {W : Type} (B : Database.Backend W)
    (Ss : DatabaseWrite.Session W)
    (tree_sync : PyX.X (Database.World W) unit) (w : Database.World W) :
  let out := Replies.setup_hook B Ss tree_sync w in
  let connected := DatabaseWrite.connect Ss (Database.conn w) in
  (connected.1 = false ->
   out = (PyX.Except (PyX.SystemExit 1),
          {| Database.conn := connected.2;
             Database.trace := Database.trace w |}))
  /\ (connected.1 = true ->
      out = PyX.bind tree_sync (fun _ => PyX.ret tt)
              {| Database.conn :=
                   (Database.exec_scalar B Database.SelectCount connected.2).2;
                 Database.trace :=
                   Database.trace w
                   ++ [Database.Executed Database.SelectCount] |}).
Proof.
  intros out connected. unfold out, connected.
  unfold Replies.setup_hook, PyX.try_except, DatabaseWrite.db_connect,
    PyX.on_conn, PyX.lift, DatabaseWrite.attempt, DatabaseWrite.logger_info,
    DatabaseWrite.logger_error.
  unfold mbind, PyX.X_bind, PyX.bind, PyX.ret, PyX.raise, PyX.try_except.
  destruct (DatabaseWrite.connect Ss (Database.conn w)) as [[|] c1];
    cbn [fst snd PyX.is_Exception Database.conn Database.trace].
  - split; [discriminate|]. intros _.
    rewrite get_sentence_count_run. cbn [fst snd Database.conn Database.trace].
    by destruct (tree_sync _) as [[[]|e] w'].
  - split; [done | discriminate].
Qed.

Lemma setup_hook_startup_witness :
  (DatabaseWrite.connect MemDb.session MemDb.fresh).1 = true
  /\ Replies.setup_hook
       {| Database.exec_rows := fun _ db => (None, db);
          Database.exec_scalar := fun _ db => (None, db) |}
       MemDb.session (PyX.ret tt)
       {| Database.conn := MemDb.fresh; Database.trace := [] |}
     = PyX.bind (PyX.ret tt) (fun _ => PyX.ret tt)
         {| Database.conn := MemDb.fresh;
            Database.trace := [] ++ [Database.Executed Database.SelectCount] |}.
Proof.
  split; [reflexivity|].
  exact (proj2 (setup_hook_startup
                  {| Database.exec_rows := fun _ db => (None, db);
                     Database.exec_scalar := fun _ db => (None, db) |}
                  MemDb.session (PyX.ret tt)
                  {| Database.conn := MemDb.fresh; Database.trace := [] |})
               eq_refl).
Defined.

(** ** From a loaded corpus to the answer *)

(** X20. A query for an indexed word is answered by the exact tier.  On
    the database loaded as in X11, if some sentence has the normalized
    query in its word set, the search command executes one statement,
    the exact lookup with the clamped limit: neither the lookup of the
    second tier nor the lemma extractor runs.  The list it returns is
    not empty; it holds sentences that have the normalized query in
    their word set, none more often than it was loaded, as many as the
    clamped limit allows, in the order the backend chooses. *)
Theorem sentence_command_finds_loaded
    (tagger : str -> option (list Tokenizer.Node))
    (set_iter : gset str -> list str) (arrange : Sample.Arrangement)
    (sentences : list (str * str)) (b1 b2 : Z) (word : str) (limit : Z) :
  Py.iterates_once set_iter -> Sample.rearranges arrange ->
  0 < b1 -> 0 < b2 ->
  let db1 := (DatabaseWrite.bulk_insert_sentences MemDb.session sentences b1
                MemDb.fresh).2 in
  let db2 := (DatabaseWrite.bulk_insert_word_index MemDb.session
                (Loader.build_word_index tagger set_iter sentences 1)
                b2 db1).2 in
  let n := Tokenizer.normalize_text word in
  let l := Z.max 1 (Z.min limit 10) in
  let hits :=
    filter (fun s => n ∈ Tokenizer.get_lemmas_with_surface tagger s.1)
           sentences in
  hits <> [] ->
  exists rows,
    Bot.sentence_command (MemDb.backend_in arrange) tagger set_iter word limit
      {| Database.conn := db2; Database.trace := [] |}
    = (Ok rows,
       {| Database.conn := db2;
          Database.trace := [Database.Executed (Database.SelectByWord n l)] |})
    /\ rows <> []
    /\ rows ⊆+ hits
    /\ length rows = (Z.to_nat l `min` length hits)%nat.
Proof.
  intros Hiter Harr Hb1 Hb2 db1 db2 n l hits Hhits.
  pose proof (take_rearranged (Z.to_nat l) _ _
                (Harr (Database.SelectByWord n l) (MemDb.view db2) hits))
    as (Hsub & Hlen & _).
  set (rows := take (Z.to_nat l)
                 (arrange (Database.SelectByWord n l) (MemDb.view db2) hits))
    in *.
  assert (Hne : rows <> []).
  { intros E. rewrite E in Hlen. cbn in Hlen.
    destruct hits as [|h hits']; [done|]. cbn in Hlen. unfold l in Hlen. lia. }
  exists rows. split; [|done].
  rewrite sentence_command_unfold. cbn zeta. fold n l.
  unfold db2, db1.
  rewrite search_by_word_loaded by (done || unfold l; lia).
  cbn [fst snd app]. fold db1 db2 hits rows.
  by destruct rows.
Qed.

Lemma sentence_command_finds_loaded_witness :
  Py.iterates_once Sample.set_iter /\ Sample.rearranges Sample.backwards
  /\ 0 < 1 /\ 0 < 1
  /\ filter (fun s => Tokenizer.normalize_text Sample.NEKO
                        ∈ Tokenizer.get_lemmas_with_surface Sample.tagger s.1)
            [(Sample.NEKO, [0x49]%N)] <> []
  /\ exists rows,
       (Bot.sentence_command (MemDb.backend_in Sample.backwards)
          Sample.tagger Sample.set_iter Sample.NEKO 0
          {| Database.conn :=
               (DatabaseWrite.bulk_insert_word_index MemDb.session
                  (Loader.build_word_index Sample.tagger Sample.set_iter
                     [(Sample.NEKO, [0x49]%N)] 1)
                  1
                  (DatabaseWrite.bulk_insert_sentences MemDb.session
                     [(Sample.NEKO, [0x49]%N)] 1 MemDb.fresh).2).2;
             Database.trace := [] |}).1
       = Ok rows
       /\ rows <> [].
Proof.
  assert (H : filter (fun s => Tokenizer.normalize_text Sample.NEKO
                        ∈ Tokenizer.get_lemmas_with_surface Sample.tagger s.1)
                [(Sample.NEKO, [0x49]%N)] <> []).
  { vm_compute. discriminate. }
  split; [exact sample_iterates_once|].
  split; [exact backwards_rearranges|].
  split; [lia|]. split; [lia|]. split; [exact H|].
  destruct (sentence_command_finds_loaded Sample.tagger Sample.set_iter
              Sample.backwards [(Sample.NEKO, [0x49]%N)] 1 1 Sample.NEKO 0
              sample_iterates_once backwards_rearranges
              ltac:(lia) ltac:(lia) H) as (rows & Hrun & Hne & _).
  exists rows. split; [by rewrite Hrun | exact Hne].
Defined.

(** ** The size of the index *)

Section IndexSize.

Import Tokenizer.
Variable tagger : str -> option (list Node).

Lemma size_add (X : gset str) (x : str) : (size (X ∪ {[ x ]}) <= size X + 1)%nat.
Proof.
  rewrite size_union_alt.
  assert (H : (size (({[ x ]} : gset str) ∖ X) <= size ({[ x ]} : gset str))%nat).
  { apply subseteq_size. intros y [Hy _]%elem_of_difference. exact Hy. }
  rewrite size_singleton in H. lia.
Qed.

Lemma words_fold_size (words : list Node) (acc : gset str) :
  (size (fold_left
           (fun (words : gset str) word =>
              let words := words ∪ {[ surface word ]} in
              match lemma (feature word) with
              | Some l => if usable (Some l) then words ∪ {[ l ]} else words
              | None => words
              end) words acc)
   <= size acc + 2 * length words)%nat.
Proof.
  revert acc. induction words as [|w words IH]; intros acc; cbn [fold_left length].
  - lia.
  - etrans; [apply IH|].
    pose proof (size_add acc (surface w)) as H1.
    destruct (lemma (feature w)) as [l|]; [destruct (usable (Some l))|].
    + pose proof (size_add (acc ∪ {[ surface w ]}) l). lia.
    + lia.
    + lia.
Qed.

Lemma word_set_size (text : str) :
  (size (get_lemmas_with_surface tagger text)
   <= 2 * length (tokenize tagger text))%nat.
Proof.
  unfold get_lemmas_with_surface, tokenize.
  destruct (tagger (normalize text)) as [words|].
  - rewrite length_map.
    etrans; [apply (words_fold_size words ∅)|].
    rewrite size_empty. lia.
  - rewrite size_empty. lia.
Qed.

End IndexSize.

(** X21. The index has one entry for each word of each sentence's word
    set, and a sentence has at most two index words for each of its
    tokens (the surface form and the lemma): the index is never longer
    than twice the number of tokens of the corpus. *)
Theorem build_word_index_size
    (tagger : str -> option (list Tokenizer.Node))
    (set_iter : gset str -> list str)
    (sentences : list (str * str)) (start_id : Z) :
  Py.iterates_once set_iter ->
  length (Loader.build_word_index tagger set_iter sentences start_id)
  = sum_list ((fun s => size (Tokenizer.get_lemmas_with_surface tagger s.1))
                <$> sentences)
  /\ (length (Loader.build_word_index tagger set_iter sentences start_id)
      <= 2 * sum_list ((fun s => length (Tokenizer.tokenize tagger s.1))
                         <$> sentences))%nat.
Proof.
  intros Hiter. rewrite build_word_index_spec.
  assert (Hlen : forall K,
    length (Rebuild.persisted_rows K sentences
              ≫= Loader.contribution tagger set_iter)
    = sum_list ((fun s => size (Tokenizer.get_lemmas_with_surface tagger s.1))
                  <$> sentences)).
  { induction sentences as [|[ja en] rest IH]; intros K; [done|].
    cbn [Rebuild.persisted_rows]. rewrite bind_cons, length_app, IH.
    cbn [fmap list_fmap sum_list sum_list_with fst]. f_equal.
    unfold Loader.contribution. cbn [fst snd].
    rewrite length_fmap, (Hiter _). done. }
  rewrite Hlen. split; [done|].
  clear Hlen. induction sentences as [|[ja en] rest IH]; [done|].
  rewrite !fmap_cons. cbn [sum_list sum_list_with fst].
  pose proof (word_set_size tagger ja) as Hja. cbn [fst] in IH.
  revert IH Hja.
  generalize (size (Tokenizer.get_lemmas_with_surface tagger ja)).
  generalize (length (Tokenizer.tokenize tagger ja)).
  generalize (sum_list ((fun s : str * str =>
     size (Tokenizer.get_lemmas_with_surface tagger s.1)) <$> rest)).
  generalize (sum_list ((fun s : str * str =>
     length (Tokenizer.tokenize tagger s.1)) <$> rest)).
  unfold id. intros; lia.
Qed.

Lemma build_word_index_size_witness :
  Py.iterates_once Sample.set_iter
  /\ (length (Loader.build_word_index Sample.tagger Sample.set_iter
                [(Sample.TABETA, [0x49]%N)] 1)
      <= 2 * sum_list ((fun s => length (Tokenizer.tokenize Sample.tagger s.1))
                         <$> [(Sample.TABETA, [0x49]%N)]))%nat.
Proof.
  split; [exact sample_iterates_once|].
  exact (proj2 (build_word_index_size Sample.tagger Sample.set_iter
                  [(Sample.TABETA, [0x49]%N)] 1 sample_iterates_once)).
Defined.
